(** * Cache-aside data access layer of the PAKE task API

    Shallow embedding of
    - [apps/api/src/services/CacheService.ts]  (module [CacheSvc]),
    - [apps/api/src/data/DataAccessLayer.ts]   (module [Dal]),
    - the error middleware at the end of [CacheService.ts] (module
      [ErrorHandler]),
    - [apps/api/src/data/BaseRepository.ts]    (module [BaseRepository]),
    - the [TaskRepository] class (module [TaskRepository]),
    together with the pieces of the JavaScript runtime they rely on:
    [String()] coercion, [JSON.stringify], [JSON.parse] and the key
    sanitiser [String(part).replace(/[^a-zA-Z0-9_-]/g, '_')].

    JavaScript numbers are modelled as integers ([Z]); characters as
    ASCII. *)

From Stdlib Require Import String Ascii List ZArith Bool Lia Zpow_facts Permutation.
Import ListNotations.

Local Open Scope string_scope.
Set Warnings "-register-all".

(* ------------------------------------------------------------------ *)
(** ** Character classes and string helpers *)

Definition dq : ascii := ascii_of_nat 34.   (* the double quote *)
Definition bsl : ascii := ascii_of_nat 92.  (* the backslash *)

Definition in_range (lo hi : nat) (c : ascii) : bool :=
  Nat.leb lo (nat_of_ascii c) && Nat.leb (nat_of_ascii c) hi.

Definition is_digit (c : ascii) : bool := in_range 48 57 c.

(** The complement of the character class [[^a-zA-Z0-9_-]]. *)
Definition is_key_char (c : ascii) : bool :=
  is_digit c || in_range 65 90 c || in_range 97 122 c
  || Ascii.eqb c "_"%char || Ascii.eqb c "-"%char.

(** [s.replace(/[^a-zA-Z0-9_-]/g, '_')] *)
Fixpoint sanitize (s : string) : string :=
  match s with
  | EmptyString => EmptyString
  | String c r => String (if is_key_char c then c else "_"%char) (sanitize r)
  end.

(** [parts.join(sep)] *)
Fixpoint join (sep : string) (xs : list string) : string :=
  match xs with
  | [] => EmptyString
  | [x] => x
  | x :: r => x ++ sep ++ join sep r
  end.

Definition digit_char (d : N) : ascii := ascii_of_N (48 + d).

Fixpoint digits_of (fuel : nat) (n : N) (acc : string) : string :=
  match fuel with
  | O => acc
  | S f =>
      let acc' := String (digit_char (N.modulo n 10)) acc in
      if N.eqb (N.div n 10) 0 then acc' else digits_of f (N.div n 10) acc'
  end.

(** Decimal rendering of an integer, as [String(n)] does. *)
Definition z_to_string (z : Z) : string :=
  let n := Z.abs_N z in
  let ds := digits_of (S (N.size_nat n)) n EmptyString in
  if (z <? 0)%Z then "-" ++ ds else ds.

Definition hex_char (d : nat) : ascii :=
  if Nat.ltb d 10 then ascii_of_nat (48 + d) else ascii_of_nat (87 + d).

(* ------------------------------------------------------------------ *)
(** ** JavaScript values and JSON *)

(** The JavaScript values that flow through the cache layer: filter
    objects, rows, responses.  Objects keep their property insertion
    order. *)
Inductive jval : Type :=
| JUndef
| JNull
| JBool (b : bool)
| JNum (n : Z)
| JStr (s : string)
| JArr (xs : list jval)
| JObj (fields : list (string * jval)).

(** JavaScript truthiness ([if (x)]). *)
Definition truthy (v : jval) : bool :=
  match v with
  | JUndef | JNull => false
  | JBool b => b
  | JNum n => negb (Z.eqb n 0)
  | JStr s => negb (String.eqb s EmptyString)
  | JArr _ | JObj _ => true
  end.

(** [String(v)]; an array prints its elements joined by commas, with
    [null] and [undefined] elements as empty text. *)
Fixpoint js_String (v : jval) : string :=
  match v with
  | JUndef => "undefined"
  | JNull => "null"
  | JBool true => "true"
  | JBool false => "false"
  | JNum n => z_to_string n
  | JStr s => s
  | JArr xs => join "," (map (fun x => match x with
                                       | JUndef | JNull => EmptyString
                                       | _ => js_String x
                                       end) xs)
  | JObj _ => "[object Object]"
  end.

(** The own enumerable keys of an array or a string: its indices. *)
Definition index_keys (n : nat) : list string :=
  map (fun i => z_to_string (Z.of_nat i)) (seq 0 n).

(** The characters of a string as one-character strings. *)
Fixpoint chars (s : string) : list jval :=
  match s with
  | EmptyString => []
  | String c r => JStr (String c EmptyString) :: chars r
  end.

(** The own properties of a value, in order: an object's members, an
    array's or a string's elements under their indices. *)
Definition own_props (v : jval) : list (string * jval) :=
  match v with
  | JObj fs => fs
  | JArr xs => combine (index_keys (length xs)) xs
  | JStr s => combine (index_keys (String.length s)) (chars s)
  | _ => []
  end.

(** Property lookup [v[k]]: an own property, or the [length] of an array
    or a string.  The names the code looks up ([title], [sort],
    [category_id], ...) are not properties of [Object.prototype], so the
    prototype chain adds nothing here. *)
Definition get_prop (k : string) (v : jval) : jval :=
  match find (fun p => String.eqb (fst p) k) (own_props v) with
  | Some (_, x) => x
  | None =>
      match v with
      | JArr xs => if String.eqb k "length" then JNum (Z.of_nat (length xs)) else JUndef
      | JStr s => if String.eqb k "length" then JNum (Z.of_nat (String.length s)) else JUndef
      | _ => JUndef
      end
  end.

(** JSON string escaping, as [JSON.stringify] does for string values. *)
Fixpoint escape (s : string) : string :=
  match s with
  | EmptyString => EmptyString
  | String c r =>
      let n := nat_of_ascii c in
      if Nat.eqb n 34 then String bsl (String dq (escape r))
      else if Nat.eqb n 92 then String bsl (String bsl (escape r))
      else if Nat.eqb n 10 then String bsl (String "n" (escape r))
      else if Nat.eqb n 13 then String bsl (String "r" (escape r))
      else if Nat.eqb n 9 then String bsl (String "t" (escape r))
      else if Nat.eqb n 8 then String bsl (String "b" (escape r))
      else if Nat.eqb n 12 then String bsl (String "f" (escape r))
      else if Nat.ltb n 32 then
        String bsl (String "u" (String "0" (String "0"
          (String (hex_char (n / 16)) (String (hex_char (n mod 16)) (escape r))))))
      else String c (escape r)
  end.

Definition quote (s : string) : string := String dq (escape s ++ String dq EmptyString).

(** [JSON.stringify(v)]: [None] stands for the [undefined] it returns on
    [undefined]; object members whose value is [undefined] are omitted
    and array elements that are [undefined] print as [null]. *)
Fixpoint stringify (v : jval) : option string :=
  match v with
  | JUndef => None
  | JNull => Some "null"
  | JBool true => Some "true"
  | JBool false => Some "false"
  | JNum n => Some (z_to_string n)
  | JStr s => Some (quote s)
  | JArr xs =>
      Some ("[" ++ join ","
              (map (fun x => match stringify x with
                             | Some s => s
                             | None => "null"
                             end) xs) ++ "]")
  | JObj fs =>
      Some ("{" ++ join ","
              (flat_map (fun kv => match stringify (snd kv) with
                                   | Some s => [quote (fst kv) ++ ":" ++ s]
                                   | None => []
                                   end) fs) ++ "}")
  end.

Definition is_ws (c : ascii) : bool :=
  let n := nat_of_ascii c in
  Nat.eqb n 32 || Nat.eqb n 9 || Nat.eqb n 10 || Nat.eqb n 13.

Fixpoint skip_ws (s : string) : string :=
  match s with
  | String c r => if is_ws c then skip_ws r else s
  | EmptyString => s
  end.

(** [Some rest] when [s] starts with [p]. *)
Fixpoint strip_prefix (p s : string) : option string :=
  match p, s with
  | EmptyString, _ => Some s
  | String a p', String b s' => if Ascii.eqb a b then strip_prefix p' s' else None
  | String _ _, EmptyString => None
  end.

Definition hex_val (c : ascii) : option nat :=
  let n := nat_of_ascii c in
  if in_range 48 57 c then Some (n - 48)
  else if in_range 97 102 c then Some (n - 87)
  else if in_range 65 70 c then Some (n - 55)
  else None.

(** Body of a JSON string literal, after its opening quote; returns the
    decoded text and the input after the closing quote.  [\u] escapes
    are decoded for code points below 256 (the ASCII model). *)
Fixpoint parse_str_body (s : string) : option (string * string) :=
  match s with
  | EmptyString => None
  | String c r =>
      if Ascii.eqb c dq then Some (EmptyString, r)
      else if Nat.ltb (nat_of_ascii c) 32 then None
      else if Ascii.eqb c bsl then
        match r with
        | String e r' =>
            let k := nat_of_ascii e in
            let simple (x : ascii) :=
              match parse_str_body r' with
              | Some (t, rest) => Some (String x t, rest)
              | None => None
              end in
            if Nat.eqb k 34 then simple dq
            else if Nat.eqb k 92 then simple bsl
            else if Nat.eqb k 47 then simple "/"%char
            else if Nat.eqb k 110 then simple (ascii_of_nat 10)
            else if Nat.eqb k 114 then simple (ascii_of_nat 13)
            else if Nat.eqb k 116 then simple (ascii_of_nat 9)
            else if Nat.eqb k 98 then simple (ascii_of_nat 8)
            else if Nat.eqb k 102 then simple (ascii_of_nat 12)
            else if Nat.eqb k 117 then
              match r' with
              | String h1 (String h2 (String h3 (String h4 r''))) =>
                  match hex_val h1, hex_val h2, hex_val h3, hex_val h4 with
                  | Some 0, Some 0, Some a, Some b =>
                      match parse_str_body r'' with
                      | Some (t, rest) => Some (String (ascii_of_nat (16 * a + b)) t, rest)
                      | None => None
                      end
                  | _, _, _, _ => None
                  end
              | _ => None
              end
            else None
        | EmptyString => None
        end
      else
        match parse_str_body r with
        | Some (t, rest) => Some (String c t, rest)
        | None => None
        end
  end.

(** A run of decimal digits, accumulated into [acc]. *)
Fixpoint parse_digits (s : string) (acc : Z) (seen : bool) : option (Z * string) :=
  match s with
  | String c r =>
      if is_digit c
      then parse_digits r (acc * 10 + Z.of_nat (nat_of_ascii c - 48))%Z true
      else if seen then Some (acc, s) else None
  | EmptyString => if seen then Some (acc, s) else None
  end.

(** A JSON number; the model only carries integers, so a fraction or an
    exponent part is refused. *)
Definition parse_number (s : string) : option (jval * string) :=
  let '(neg, s') := match s with
                    | String "-" r => (true, r)
                    | _ => (false, s)
                    end in
  match parse_digits s' 0%Z false with
  | Some (n, rest) =>
      match rest with
      | String c _ =>
          if Ascii.eqb c "."%char || Ascii.eqb c "e"%char || Ascii.eqb c "E"%char
          then None
          else Some (JNum (if neg then Z.opp n else n), rest)
      | EmptyString => Some (JNum (if neg then Z.opp n else n), rest)
      end
  | None => None
  end.

Fixpoint parse_value (fuel : nat) (s : string) : option (jval * string) :=
  match fuel with
  | O => None
  | S f =>
      match skip_ws s with
      | EmptyString => None
      | String c r as s0 =>
          if Ascii.eqb c "n"%char then
            option_map (fun rest => (JNull, rest)) (strip_prefix "ull" r)
          else if Ascii.eqb c "t"%char then
            option_map (fun rest => (JBool true, rest)) (strip_prefix "rue" r)
          else if Ascii.eqb c "f"%char then
            option_map (fun rest => (JBool false, rest)) (strip_prefix "alse" r)
          else if Ascii.eqb c dq then
            option_map (fun p => (JStr (fst p), snd p)) (parse_str_body r)
          else if Ascii.eqb c "["%char then parse_elems f (skip_ws r) []
          else if Ascii.eqb c "{"%char then parse_members f (skip_ws r) []
          else parse_number s0
      end
  end
with parse_elems (fuel : nat) (s : string) (acc : list jval) : option (jval * string) :=
  match fuel with
  | O => None
  | S f =>
      match s, acc with
      | String "]" r, [] => Some (JArr [], r)
      | _, _ =>
          match parse_value f s with
          | Some (v, rest) =>
              match skip_ws rest with
              | String "]" r => Some (JArr (rev (v :: acc)), r)
              | String "," r => parse_elems f (skip_ws r) (v :: acc)
              | _ => None
              end
          | None => None
          end
      end
  end
with parse_members (fuel : nat) (s : string) (acc : list (string * jval))
  : option (jval * string) :=
  match fuel with
  | O => None
  | S f =>
      match s, acc with
      | String "}" r, [] => Some (JObj [], r)
      | String c r, _ =>
          if Ascii.eqb c dq then
            match parse_str_body r with
            | Some (k, rest) =>
                match skip_ws rest with
                | String ":" rest' =>
                    match parse_value f rest' with
                    | Some (v, rest'') =>
                        match skip_ws rest'' with
                        | String "}" r' => Some (JObj (rev ((k, v) :: acc)), r')
                        | String "," r' => parse_members f (skip_ws r') ((k, v) :: acc)
                        | _ => None
                        end
                    | None => None
                    end
                | _ => None
                end
            | None => None
            end
          else None
      | EmptyString, _ => None
      end
  end.

(** [JSON.parse(s)]: [None] is the [SyntaxError] it throws. *)
Definition parse (s : string) : option jval :=
  match parse_value (S (String.length s)) s with
  | Some (v, rest) =>
      match skip_ws rest with
      | EmptyString => Some v
      | _ => None
      end
  | None => None
  end.


(* ------------------------------------------------------------------ *)
(** ** What [JSON.stringify] and [JSON.parse] round-trip *)

(** A value with no [undefined] inside: [JSON.stringify] keeps all of it. *)
Fixpoint clean (v : jval) : bool :=
  match v with
  | JUndef => false
  | JArr xs => forallb clean xs
  | JObj fs => forallb (fun kv => clean (snd kv)) fs
  | _ => true
  end.

(** The fuel [parse_value] needs for a value: its nesting depth and
    width. *)
Fixpoint need (v : jval) : nat :=
  match v with
  | JArr xs => S (fold_right (fun x acc => S (Nat.max (need x) acc)) 1 xs)
  | JObj fs => S (fold_right (fun kv acc => S (Nat.max (need (snd kv)) acc)) 1 fs)
  | _ => 1
  end.

(** Induction over values, through the elements of arrays and objects. *)
Section JInd.
Variable P : jval -> Prop.
Hypothesis HU : P JUndef.
Hypothesis HN : P JNull.
Hypothesis HB : forall b, P (JBool b).
Hypothesis HZ : forall n, P (JNum n).
Hypothesis HS : forall s, P (JStr s).
Hypothesis HA : forall xs, Forall P xs -> P (JArr xs).
Hypothesis HO : forall fs, Forall (fun kv => P (snd kv)) fs -> P (JObj fs).
Fixpoint jval_ind' (v : jval) : P v :=
  match v with
  | JUndef => HU
  | JNull => HN
  | JBool b => HB b
  | JNum n => HZ n
  | JStr s => HS s
  | JArr xs => HA xs ((fix go (l : list jval) : Forall P l :=
                        match l with
                        | [] => Forall_nil _
                        | x :: r => Forall_cons x (jval_ind' x) (go r)
                        end) xs)
  | JObj fs => HO fs ((fix go (l : list (string * jval)) : Forall (fun kv => P (snd kv)) l :=
                        match l with
                        | [] => Forall_nil _
                        | kv :: r => Forall_cons kv (jval_ind' (snd kv)) (go r)
                        end) fs)
  end.
End JInd.

(** What may follow a value inside a JSON text. *)
Definition stop (r : string) : Prop :=
  match r with
  | EmptyString => True
  | String c _ => c = ","%char \/ c = "]"%char \/ c = "}"%char
  end.

(** The JSON text of a value (an [undefined] element prints as [null]). *)
Definition text (x : jval) : string :=
  match stringify x with Some s => s | None => "null" end.

Definition E_need (xs : list jval) : nat :=
  fold_right (fun x acc => S (Nat.max (need x) acc)) 1 xs.

Definition M_need (fs : list (string * jval)) : nat :=
  fold_right (fun kv acc => S (Nat.max (need (snd kv)) acc)) 1 fs.

(** [parse_value] reads the text of [v] back, given the fuel. *)
Definition PV (v : jval) : Prop :=
  clean v = true -> forall f rest, need v <= f -> stop rest ->
  parse_value f (text v ++ rest) = Some (v, rest).

(** The text of one object member. *)
Definition mtext (kv : string * jval) : string := quote (fst kv) ++ ":" ++ text (snd kv).

(* ------------------------------------------------------------------ *)
(** ** Searching text *)

(** Every character of [s] satisfies [f]. *)
Fixpoint forall_chars (f : ascii -> bool) (s : string) : bool :=
  match s with
  | EmptyString => true
  | String c r => f c && forall_chars f r
  end.

(** [s.startsWith(p)] *)
Fixpoint starts_with (p s : string) : bool :=
  match p, s with
  | EmptyString, _ => true
  | String a p', String b s' => Ascii.eqb a b && starts_with p' s'
  | String _ _, EmptyString => false
  end.

(** [s.includes(w)] *)
Fixpoint has_sub (w s : string) : bool :=
  match s with
  | EmptyString => starts_with w s
  | String _ r => starts_with w s || has_sub w r
  end.


(* ------------------------------------------------------------------ *)
(** ** Exceptions and a state monad with [try]/[catch] *)

(** A thrown JavaScript [Error]: its [name], [code], [message] and the
    [statusCode] some errors carry. *)
Record exn := mkExn {
  ex_name : string;
  ex_code : option string;
  ex_message : string;
  ex_status : option Z
}.

Inductive res (A : Type) : Type :=
| Ok (a : A)
| Exn (e : exn).
Arguments Ok {A} a.
Arguments Exn {A} e.

(** An [async] method over a state [S]: it resolves to a value or
    rejects with an exception. *)
Definition M (S A : Type) : Type := S -> res A * S.

Definition ret {S A} (a : A) : M S A := fun s => (Ok a, s).

Definition bind {S A B} (m : M S A) (k : A -> M S B) : M S B :=
  fun s => match m s with
           | (Ok a, s') => k a s'
           | (Exn e, s') => (Exn e, s')
           end.

Definition throw {S A} (e : exn) : M S A := fun s => (Exn e, s).

(** [try { m } catch (error) { h(error) }] *)
Definition try_catch {S A} (m : M S A) (h : exn -> M S A) : M S A :=
  fun s => match m s with
           | (Exn e, s') => h e s'
           | r => r
           end.

Notation "x <- m ;; k" := (bind m (fun x => k))
  (at level 61, m at next level, right associativity).
Notation "m ;;; k" := (bind m (fun _ => k))
  (at level 61, right associativity).

(** [new Error(message)] *)
Definition plain_error (msg : string) : exn := mkExn "Error" None msg None.

(** A [SyntaxError] from [JSON.parse]. *)
Definition syntax_error : exn := mkExn "SyntaxError" None "Unexpected token in JSON" None.

(** An error reported by a backend client call, with its [code]. *)
Definition backend_error (code : string) : exn := mkExn "Error" (Some code) code None.

(* ------------------------------------------------------------------ *)
(** ** CacheService ([apps/api/src/services/CacheService.ts]) *)

Module CacheSvc.

(** [pattern] without its leading [*]s. *)
Fixpoint strip_stars (p : string) : string :=
  match p with
  | String "*" p' => strip_stars p'
  | _ => p
  end.

(** The end of the string was reached: the rest of the pattern matches
    if it is made of [*]s only. *)
Definition all_stars (p : string) : bool :=
  match strip_stars p with
  | EmptyString => true
  | _ => false
  end.

(** A character class [[...]] against the character [c]: [m] is [match]
    so far; the result is [match] and the pattern after the class. *)
Fixpoint glob_class (c : ascii) (q : string) (m : bool) : bool * string :=
  match q with
  | String "\" (String d q') => glob_class c q' (m || Ascii.eqb d c)
  | String "]" q' => (m, q')
  | EmptyString => (m, EmptyString)
  | String a (String "-" (String b q')) =>
      let start := Nat.min (nat_of_ascii a) (nat_of_ascii b) in
      let end_ := Nat.max (nat_of_ascii a) (nat_of_ascii b) in
      glob_class c q' (m || (Nat.leb start (nat_of_ascii c) && Nat.leb (nat_of_ascii c) end_))
  | String a q' => glob_class c q' (m || Ascii.eqb a c)
  end.

(** One step of the loop on a pattern whose head is not [*], against
    the character [c]; [k] goes on with the rest of the pattern and of
    the string. *)
Definition glob_step (c : ascii) (p : string) (k : string -> bool) : bool :=
  match p with
  | EmptyString => false
  | String "?" p' => k p'
  | String "[" p' =>
      let '(neg, q) := match p' with
                       | String "^" q => (true, q)
                       | _ => (false, p')
                       end in
      let '(m, rest) := glob_class c q false in
      if xorb neg m then k rest else false
  | String "\" (String d p') => Ascii.eqb d c && k p'
  | String a p' => Ascii.eqb a c && k p'
  end.

(** [stringmatchlen] of the backend (Redis [util.c]), for a call at
    depth [nesting]: [*], [?], character classes [[abc]], [[^abc]] and
    [[a-z]], and [\] quoting the next character. *)
Fixpoint glob_at (nesting : nat) (p s : string) {struct s} : bool :=
  if Nat.ltb 1000 nesting then false else
  match s with
  | EmptyString => match p with EmptyString => true | _ => false end
  | String c s' =>
      let cont := fun n p' => match s' with
                              | EmptyString => all_stars p'
                              | _ => glob_at n p' s'
                              end in
      match p with
      | String "*" p0 =>
          match strip_stars p0 with
          | EmptyString => true
          | p1 =>
              (negb (Nat.ltb 1000 (S nesting)) && glob_step c p1 (cont (S nesting))) ||
              (fix suffixes (t : string) : bool :=
                 match t with
                 | EmptyString => false
                 | String _ t' => glob_at (S nesting) p1 t || suffixes t'
                 end) s'
          end
      | _ => glob_step c p (cont nesting)
      end
  end.

(** The [MATCH] filter of the backend's [SCAN]: the pattern [*] alone
    lets every key through without matching; any other pattern goes
    through [stringmatchlen]. *)
Definition glob (p s : string) : bool := String.eqb p "*" || glob_at 0 p s.

(** One key of the backend with its TTL and its stored text. *)
Record entry := mkEntry { e_key : string; e_ttl : Z; e_val : string }.

(** The commands the service sends to the backend client. *)
Inductive command : Type :=
| CGet (k : string)
| CSetEx (k : string) (ttl : Z) (v : string)
| CDel (ks : list string)
| CExists (k : string)
| CScan (cursor : nat) (pattern : string) (count : nat).

(** The service ([this.isAvailable], [this.redis], [this.ttl.default])
    together with the backend it talks to.  The backend keeps its keys in
    a table of slots (a deleted key frees its slot, nothing moves), the
    SCAN cursor is a slot index and [0] is the sentinel ['0'].  [faults]
    says how each coming backend call ends: [Some code] makes it fail
    with that error code.  [log] records every call sent to the
    backend. *)
Record world := mkWorld {
  isAvailable : bool;
  redis : bool;
  default_ttl : Z;
  slots : list (option entry);
  faults : list (option string);
  log : list command
}.

Definition set_available (b : bool) (w : world) : world :=
  mkWorld b (redis w) (default_ttl w) (slots w) (faults w) (log w).
Definition set_slots (sl : list (option entry)) (w : world) : world :=
  mkWorld (isAvailable w) (redis w) (default_ttl w) sl (faults w) (log w).
Definition set_faults (fs : list (option string)) (w : world) : world :=
  mkWorld (isAvailable w) (redis w) (default_ttl w) (slots w) fs (log w).
Definition add_log (c : command) (w : world) : world :=
  mkWorld (isAvailable w) (redis w) (default_ttl w) (slots w) (faults w) (log w ++ [c]).

(** *** The backend client *)

Definition slot_has (k : string) (o : option entry) : bool :=
  match o with Some e => String.eqb (e_key e) k | None => false end.

Fixpoint lookup (k : string) (sl : list (option entry)) : option string :=
  match sl with
  | [] => None
  | Some e :: r => if String.eqb (e_key e) k then Some (e_val e) else lookup k r
  | None :: r => lookup k r
  end.

(** [SETEX]: overwrite the key's slot, else take the first free slot,
    else grow the table. *)
Fixpoint put_free (e : entry) (sl : list (option entry)) : list (option entry) :=
  match sl with
  | [] => [Some e]
  | None :: r => Some e :: r
  | o :: r => o :: put_free e r
  end.

Definition store_put (e : entry) (sl : list (option entry)) : list (option entry) :=
  if existsb (slot_has (e_key e)) sl
  then map (fun o => if slot_has (e_key e) o then Some e else o) sl
  else put_free e sl.

Definition store_remove (k : string) (sl : list (option entry)) : list (option entry) :=
  map (fun o => if slot_has k o then None else o) sl.

(** [DEL k1 k2 ...]: removes the keys, answers how many existed. *)
Fixpoint store_del (ks : list string) (sl : list (option entry))
  : Z * list (option entry) :=
  match ks with
  | [] => (0%Z, sl)
  | k :: r =>
      let hit := existsb (slot_has k) sl in
      let '(n, sl') := store_del r (store_remove k sl) in
      ((if hit then 1 else 0) + n, sl')%Z
  end.

Fixpoint present_keys (sl : list (option entry)) : list string :=
  match sl with
  | [] => []
  | Some e :: r => e_key e :: present_keys r
  | None :: r => present_keys r
  end.

(** [SCAN cursor MATCH pattern COUNT count]: looks at [count] slots from
    the cursor on, answers the matching keys there and the next cursor,
    [0] once the table is exhausted. *)
Definition store_scan (cursor : nat) (pattern : string) (count : nat)
  (sl : list (option entry)) : nat * list string :=
  let page := firstn count (skipn cursor sl) in
  let next := if Nat.leb (length sl) (cursor + count) then 0 else cursor + count in
  (next, filter (glob pattern) (present_keys page)).

(** One backend call: it is logged, then it either fails with the next
    fault or takes effect. *)
Definition backend {A} (c : command) (eff : list (option entry) -> A * list (option entry))
  : M world A :=
  fun w =>
    let w1 := add_log c w in
    match faults w with
    | Some code :: rest => (Exn (backend_error code), set_faults rest w1)
    | fs =>
        let '(a, sl') := eff (slots w) in
        (Ok a, set_slots sl' (set_faults (tl fs) w1))
    end.

Definition r_get (k : string) : M world (option string) :=
  backend (CGet k) (fun sl => (lookup k sl, sl)).
(** [SETEX key ttl value].  The backend refuses a TTL that is not
    positive (an error that is not a connection failure); this model of
    the backend stores the entry whatever the TTL. *)
Definition r_setEx (k : string) (ttl : Z) (v : string) : M world unit :=
  backend (CSetEx k ttl v) (fun sl => (tt, store_put (mkEntry k ttl v) sl)).
Definition r_del (ks : list string) : M world Z :=
  backend (CDel ks) (store_del ks).
Definition r_exists (k : string) : M world Z :=
  backend (CExists k) (fun sl => (if existsb (slot_has k) sl then 1%Z else 0%Z, sl)).
Definition r_scan (cursor : nat) (pattern : string) (count : nat)
  : M world (nat * list string) :=
  backend (CScan cursor pattern count) (fun sl => (store_scan cursor pattern count sl, sl)).

(** *** The service methods *)

(** [isHealthy()]: [this.isAvailable && this.redis] *)
Definition isHealthy (w : world) : bool := isAvailable w && redis w.

(** [if (!this.isHealthy()) return dflt;] in front of a method body. *)
Definition when_healthy {A} (dflt : A) (body : M world A) : M world A :=
  fun w => if isHealthy w then body w else (Ok dflt, w).

(** The [CacheUnavailableError] thrown by [_handleError]. *)
Definition cache_unavailable : exn :=
  mkExn "CacheUnavailableError" (Some "CACHE_UNAVAILABLE")
        "Cache service unavailable" (Some 503%Z).

Definition is_connection_error (e : exn) : bool :=
  match ex_code e with
  | Some c => String.eqb c "ECONNREFUSED" || String.eqb c "ENOTFOUND"
  | None => false
  end.

(** [_handleError(operation, error, key)] *)
Definition _handleError (error : exn) : M world jval :=
  if is_connection_error error
  then fun w => (Exn cache_unavailable, set_available false w)
  else ret JNull.

(** [get(key)] *)
Definition get (key : string) : M world jval :=
  when_healthy JNull
    (try_catch
       (result <- r_get key ;;
        match result with
        | Some txt =>
            if truthy (JStr txt) then
              match parse txt with
              | Some v => ret v
              | None => throw syntax_error
              end
            else ret JNull
        | None => ret JNull
        end)
       (fun error => _handleError error)).

(** What the client throws when handed [undefined] as the value. *)
Definition type_error : exn := mkExn "TypeError" None "Invalid argument type" None.

(** [set(key, value, ttl = null)]; [ttl] is [None] for [null]. *)
Definition set (key : string) (value : jval) (ttl : option Z) : M world bool :=
  when_healthy false
    (try_catch
       (cacheValue <- (match value with
                       | JStr s => ret s
                       | _ => match stringify value with
                              | Some s => ret s
                              | None => throw type_error
                              end
                       end) ;;
        cacheTtl <- (fun w => (Ok (match ttl with
                                   | Some t => if Z.eqb t 0 then default_ttl w else t
                                   | None => default_ttl w
                                   end), w)) ;;
        r_setEx key cacheTtl cacheValue ;;;
        ret true)
       (fun error => _handleError error ;;; ret false)).

(** [del(key)] *)
Definition del (key : string) : M world bool :=
  when_healthy false
    (try_catch
       (result <- r_del [key] ;; ret (0 <? result)%Z)
       (fun error => _handleError error ;;; ret false)).

(** [exists(key)] *)
Definition exists_ (key : string) : M world bool :=
  when_healthy false
    (try_catch
       (result <- r_exists key ;; ret (0 <? result)%Z)
       (fun error => _handleError error ;;; ret false)).

(** The object [invalidateCachePattern] resolves to:
    [{deleted, pattern, error, success}], absent fields as [None]. *)
Record summary := mkSummary {
  deleted : Z;
  s_pattern : option string;
  s_error : option string;
  success : option bool
}.

Definition batchSize : nat := 100.

(** The loop bound ran out: the do-while loop would still be running. *)
Definition loop_exhausted : exn := mkExn "LoopBound" None "scan loop bound exhausted" None.

(** The [do { ... } while (cursor !== '0')] loop of
    [invalidateCachePattern], with a bound on the number of rounds. *)
Fixpoint scan_loop (fuel : nat) (pattern : string) (cursor : nat) (deletedCount : Z)
  : M world Z :=
  match fuel with
  | O => throw loop_exhausted
  | S f =>
      scanResult <- r_scan cursor pattern batchSize ;;
      let cursor' := fst scanResult in
      let keys := snd scanResult in
      deletedCount' <- (if Nat.ltb 0 (length keys)
                        then (deleteResult <- r_del keys ;; ret (deletedCount + deleteResult)%Z)
                        else ret deletedCount) ;;
      if Nat.eqb cursor' 0 then ret deletedCount'
      else scan_loop f pattern cursor' deletedCount'
  end.

(** [invalidateCachePattern(pattern)]; the loop is given one round per
    slot of the table, more than a scan with [COUNT 100] can need. *)
Definition invalidateCachePattern (pattern : string) : M world summary :=
  fun w =>
    if negb (isHealthy w)
    then (Ok (mkSummary 0 None (Some "Cache service unavailable") None), w)
    else
      try_catch
        (deletedCount <- scan_loop (S (length (slots w))) pattern 0 0%Z ;;
         ret (mkSummary deletedCount (Some pattern) None (Some true)))
        (fun error =>
           _handleError error ;;;
           ret (mkSummary 0 (Some pattern) (Some (ex_message error)) (Some false)))
        w.

(** [invalidateUserTasksCache(userId)] *)
Definition invalidateUserTasksCache (userId : jval) : M world summary :=
  invalidateCachePattern ("user:" ++ js_String userId ++ ":tasks:*").

(** Insertion sort by code units, as [Array.prototype.sort()] orders
    strings. *)
Fixpoint insert_sorted (k : string) (ks : list string) : list string :=
  match ks with
  | [] => [k]
  | k' :: r => if String.leb k k' then k :: ks else k' :: insert_sorted k r
  end.

Definition sort_strings (ks : list string) : list string :=
  fold_right insert_sorted [] ks.

(** [_hashFilters(filters)] *)
Definition _hashFilters (filters : jval) : string :=
  match filters with
  | JObj _ | JArr _ =>
      let sortedKeys := sort_strings (map fst (own_props filters)) in
      let hashParts := map (fun key => key ++ ":" ++ js_String (get_prop key filters)) sortedKeys in
      match join "|" hashParts with
      | EmptyString => "default"
      | h => h
      end
  | _ => "default"
  end.

(** [keyPatterns.userTasks(userId, filters)] *)
Definition key_userTasks (userId filters : jval) : string :=
  "user:" ++ js_String userId ++ ":tasks:" ++ _hashFilters filters.

(** *** A full sweep of a pattern, page by page *)

(** What a sweep of [pattern] leaves in a slot. *)
Definition killp (pattern : string) (o : option entry) : option entry :=
  match o with
  | Some e => if glob pattern (e_key e) then None else o
  | None => None
  end.

(** The keys matching [pattern] among the [batchSize] slots from [c]. *)
Definition page_keys (pattern : string) (sl : list (option entry)) (c : nat) : list string :=
  filter (glob pattern) (present_keys (firstn batchSize (skipn c sl))).

(** The commands for the page at [c]: one SCAN, then one DEL of the
    page's matching keys if there are any. *)
Definition page_cmds (pattern : string) (sl : list (option entry)) (c : nat) : list command :=
  CScan c pattern batchSize ::
  match page_keys pattern sl c with
  | [] => []
  | ks => [CDel ks]
  end.

(** Number of SCAN pages over a table of [len] slots (at least one). *)
Definition npages (len : nat) : nat := S ((len - 1) / batchSize).

Definition page_starts (len : nat) : list nat :=
  map (Nat.mul batchSize) (seq 0 (npages len)).

(** *** Sequences of calls on one service instance *)

Inductive op : Type :=
| OGet (k : string)
| OSet (k : string) (v : jval) (ttl : option Z)
| ODel (k : string)
| OExists (k : string)
| OInvalidate (pattern : string).

Inductive reply : Type :=
| RVal (v : jval)
| RBool (b : bool)
| RSummary (s : summary).

Definition run_op (o : op) : M world reply :=
  match o with
  | OGet k => v <- get k ;; ret (RVal v)
  | OSet k v ttl => b <- set k v ttl ;; ret (RBool b)
  | ODel k => b <- del k ;; ret (RBool b)
  | OExists k => b <- exists_ k ;; ret (RBool b)
  | OInvalidate p => r <- invalidateCachePattern p ;; ret (RSummary r)
  end.

(** The calls run one after the other ([await] each). *)
Fixpoint run_ops (os : list op) : M world (list reply) :=
  match os with
  | [] => ret []
  | o :: r => x <- run_op o ;; xs <- run_ops r ;; ret (x :: xs)
  end.

(** What each call answers from its [if (!this.isHealthy())] guard. *)
Definition short_circuit_reply (o : op) : reply :=
  match o with
  | OGet _ => RVal JNull
  | OSet _ _ _ | ODel _ | OExists _ => RBool false
  | OInvalidate _ => RSummary (mkSummary 0 None (Some "Cache service unavailable") None)
  end.

(** How a run uses the injected faults: [run_clean w w1] when every backend
    call from [w] to [w1] succeeded, [run_hit c w w1] when the calls before
    the last succeeded and the last one failed with code [c]. *)
Definition run_clean (w w1 : world) : Prop :=
  exists n, faults w = (repeat None n ++ faults w1)%list.
Definition run_hit (c : string) (w w1 : world) : Prop :=
  exists n, faults w = (repeat None n ++ Some c :: faults w1)%list.

(** A computation that stops at its first failing backend call and
    rejects with that call's error. *)
Definition disciplined {A} (m : M world A) : Prop :=
  forall w r w1, m w = (r, w1) ->
    run_clean w w1 \/ exists c, run_hit c w w1 /\ r = Exn (backend_error c).

(** A public operation: it stops at its first failing backend call, and
    when that failure is a connection failure it rejects with
    [CacheUnavailableError] and leaves the service unavailable. *)
Definition op_disciplined {A} (m : M world A) : Prop :=
  forall w r w1, m w = (r, w1) ->
    run_clean w w1 \/
    exists c, run_hit c w w1 /\
      (is_connection_error (backend_error c) = true ->
       r = Exn cache_unavailable /\ isAvailable w1 = false).

(** *** Helpers of the proofs, and the states of the examples *)

Definition killset (ks : list string) (o : option entry) : option entry :=
  if existsb (fun k => slot_has k o) ks then None else o.

Definition set_body (key : string) (value : jval) (ttl : option Z) : M world bool :=
  cacheValue <- (match value with
                  | JStr s => ret s
                  | _ => match stringify value with
                         | Some s => ret s
                         | None => throw type_error
                         end
                  end) ;;
  cacheTtl <- (fun w => (Ok (match ttl with
                             | Some t => if Z.eqb t 0 then default_ttl w else t
                             | None => default_ttl w
                             end), w)) ;;
  r_setEx key cacheTtl cacheValue ;;;
  ret true.

(** The text [set] hands to [setEx]: a string as it is, anything else
    through [JSON.stringify]. *)
Definition stored_text (value : jval) : option string :=
  match value with
  | JStr s => Some s
  | _ => stringify value
  end.

Definition w_refused : world :=
  mkWorld true true 1800%Z [None] [Some "ECONNREFUSED"] [].

Definition w_sweep : world :=
  mkWorld true true 1800%Z
    [Some (mkEntry "user:1:tasks:a" 60 "x"); Some (mkEntry "user:2:stats" 60 "y");
     Some (mkEntry "user:1:tasks:b" 60 "z")] [] [].

(** One matching key behind a first page of 100 empty slots. *)
Definition w_two_pages : world :=
  mkWorld true true 1800%Z (repeat None 100 ++ [Some (mkEntry "user:1:tasks:a" 60 "x")]) [] [].

Definition w_refused_set : world :=
  mkWorld true true 1800%Z [] [Some "ECONNREFUSED"] [].

Definition w_fresh : world := mkWorld true true 1800%Z [] [] [].

(** The first [SCAN] of a sweep answers, the [DEL] after it is refused. *)
Definition w_del_refused : world :=
  mkWorld true true 1800%Z (slots w_sweep) [None; Some "ECONNREFUSED"] [].

(** *** Key patterns, TTLs and the per-user operations *)

(** [keyPatterns.userTasksAll], [userTask], [userStats],
    [userCategories] and [userTasksByCategory]. *)
Definition key_userTasksAll (userId : jval) : string :=
  "user:" ++ js_String userId ++ ":tasks:all".
Definition key_userTask (userId taskId : jval) : string :=
  "user:" ++ js_String userId ++ ":task:" ++ js_String taskId.
Definition key_userStats (userId : jval) : string :=
  "user:" ++ js_String userId ++ ":stats".
Definition key_userCategories (userId : jval) : string :=
  "user:" ++ js_String userId ++ ":categories".
Definition key_userTasksByCategory (userId categoryId : jval) : string :=
  "user:" ++ js_String userId ++ ":tasks:category:" ++ js_String categoryId.

(** [this.ttl.short], [this.ttl.medium] and [this.ttl.long]. *)
Definition ttl_short : Z := 300.
Definition ttl_medium : Z := 1800.
Definition ttl_long : Z := 7200.

(** [ttl || d] for a [ttl = null] parameter ([None] is [null]). *)
Definition ttl_or (ttl : option Z) (d : Z) : Z :=
  match ttl with
  | Some t => if Z.eqb t 0 then d else t
  | None => d
  end.

(** The default [filters = {}]. *)
Definition filters_default (filters : jval) : jval :=
  match filters with
  | JUndef => JObj []
  | _ => filters
  end.

(** [getUserTasks(userId, filters = {})] *)
Definition getUserTasks (userId filters : jval) : M world jval :=
  get (key_userTasks userId (filters_default filters)).

(** [setUserTasks(userId, filters = {}, data, ttl = null)] *)
Definition setUserTasks (userId filters data : jval) (ttl : option Z) : M world bool :=
  set (key_userTasks userId (filters_default filters)) data (Some (ttl_or ttl ttl_short)).

(** [getUserTask(userId, taskId)] *)
Definition getUserTask (userId taskId : jval) : M world jval :=
  get (key_userTask userId taskId).

(** [setUserTask(userId, taskId, data, ttl = null)] *)
Definition setUserTask (userId taskId data : jval) (ttl : option Z) : M world bool :=
  set (key_userTask userId taskId) data (Some (ttl_or ttl ttl_medium)).

(** [getUserStats(userId)] *)
Definition getUserStats (userId : jval) : M world jval :=
  get (key_userStats userId).

(** [setUserStats(userId, stats, ttl = null)] *)
Definition setUserStats (userId stats : jval) (ttl : option Z) : M world bool :=
  set (key_userStats userId) stats (Some (ttl_or ttl ttl_long)).

(** [invalidateUserCache(userId)] *)
Definition invalidateUserCache (userId : jval) : M world summary :=
  invalidateCachePattern ("user:" ++ js_String userId ++ ":*").

(** [invalidateUserTask(userId, taskId)] *)
Definition invalidateUserTask (userId taskId : jval) : M world bool :=
  del (key_userTask userId taskId).

(** The object [invalidateMultiplePatterns] resolves to. *)
Record multi_summary := mkMulti {
  m_patterns : list string;
  m_results : list summary;
  totalDeleted : Z
}.

(** The [for ... of] loop: one [invalidateCachePattern] after the other. *)
Fixpoint invalidate_each (patterns : list string) : M world (list summary) :=
  match patterns with
  | [] => ret []
  | pattern :: r =>
      result <- invalidateCachePattern pattern ;;
      results <- invalidate_each r ;;
      ret (result :: results)
  end.

(** [invalidateMultiplePatterns(patterns)]: an array ([inl]) or a single
    pattern ([inr]), which is wrapped into an array.  [result.deleted] is
    always a number, so [result.deleted || 0] is [result.deleted]. *)
Definition invalidateMultiplePatterns (patterns : list string + string) : M world multi_summary :=
  let patterns := match patterns with
                  | inl ps => ps
                  | inr p => [p]
                  end in
  results <- invalidate_each patterns ;;
  ret (mkMulti patterns results
         (fold_left (fun sum result => sum + deleted result) results 0)%Z).

(** The characters [stringmatchlen] does not take literally at the
    head of a pattern. *)
Definition is_wild (c : ascii) : bool :=
  Ascii.eqb c "*"%char || Ascii.eqb c "?"%char || Ascii.eqb c "["%char || Ascii.eqb c "\"%char.

(** A prefix with no glob wildcard: [p ++ "*"] matches exactly the keys
    starting with [p]. *)
Definition no_wild (p : string) : bool :=
  forall_chars (fun c => negb (is_wild c)) p.

End CacheSvc.

(* ------------------------------------------------------------------ *)
(** ** The error middleware (second half of [CacheService.ts]) *)

Module ErrorHandler.

(** [\s] on the 8-bit characters: tab to carriage return, the space
    and the no-break space. *)
Definition is_space (c : ascii) : bool :=
  in_range 9 13 c || Nat.eqb (nat_of_ascii c) 32 || Nat.eqb (nat_of_ascii c) 160.

Definition is_alpha (c : ascii) : bool := in_range 65 90 c || in_range 97 122 c.

Definition is_alnum (c : ascii) : bool := is_digit c || is_alpha c.

(** [field.replace(/[^a-zA-Z0-9_]/g, '')] *)
Fixpoint strip_field (s : string) : string :=
  match s with
  | EmptyString => EmptyString
  | String c r =>
      if is_alnum c || Ascii.eqb c "_"%char then String c (strip_field r) else strip_field r
  end.

(** Case folding of the [/i] flag.  On 8-bit characters only the ASCII
    letters have a case partner among the ASCII characters, so this is
    the folding that decides whether a character matches an ASCII
    pattern character. *)
Definition fold_case (c : ascii) : ascii :=
  if in_range 65 90 c then ascii_of_nat (nat_of_ascii c + 32) else c.

Fixpoint strip_prefix_ci (p s : string) : option string :=
  match p, s with
  | EmptyString, _ => Some s
  | String a p', String b s' =>
      if Ascii.eqb (fold_case a) (fold_case b) then strip_prefix_ci p' s' else None
  | String _ _, EmptyString => None
  end.

(** [fold_case] on every character: an ASCII word in lower case occurs
    in [lower s] exactly where a [/i] pattern for it finds it in [s]. *)
Fixpoint lower (s : string) : string :=
  match s with
  | EmptyString => EmptyString
  | String c r => String (fold_case c) (lower r)
  end.

(** The longest run at the start of [s] of characters satisfying [p]. *)
Fixpoint run (p : ascii -> bool) (s : string) : nat :=
  match s with
  | String c r => if p c then S (run p r) else 0
  | EmptyString => 0
  end.

Fixpoint sdrop (n : nat) (s : string) : string :=
  match n, s with
  | O, _ => s
  | S k, String _ r => sdrop k r
  | S _, EmptyString => EmptyString
  end.

(** A regular expression at one position: the length of the match the
    backtracking engine finds at the start of [s], [None] for none.
    Every quantifier below is greedy and followed by a class that the
    run cannot overrun, so the first match found is the longest run. *)
Definition matcher : Type := string -> option nat.

(** A literal pattern. *)
Definition m_lit (w : string) : matcher :=
  fun s => match strip_prefix w s with
           | Some _ => Some (String.length w)
           | None => None
           end.

(** [/\.s\.PGSQL\.\d+/] *)
Definition m_pgsql : matcher :=
  fun s => match strip_prefix ".s.PGSQL." s with
           | Some r => let n := run is_digit r in
                       if Nat.eqb n 0 then None else Some (9 + n)
           | None => None
           end.

(** [/\/etc\/[a-zA-Z]+/] *)
Definition m_etc : matcher :=
  fun s => match strip_prefix "/etc/" s with
           | Some r => let n := run is_alpha r in
                       if Nat.eqb n 0 then None else Some (5 + n)
           | None => None
           end.

(** [/\/root\/[^\s]*/] *)
Definition m_root : matcher :=
  fun s => match strip_prefix "/root/" s with
           | Some r => Some (6 + run (fun c => negb (is_space c)) r)
           | None => None
           end.

(** [/\/home\/[^\/\s]*\/[^\s]*/]: after the longest run of [[^\/\s]]
    only a [/] lets the match go on, and a shorter run is followed by a
    character of the run, which is no [/]. *)
Definition m_home : matcher :=
  fun s => match strip_prefix "/home/" s with
           | Some r =>
               let n := run (fun c => negb (Ascii.eqb c "/"%char || is_space c)) r in
               match sdrop n r with
               | String "/" r' => Some (6 + n + 1 + run (fun c => negb (is_space c)) r')
               | _ => None
               end
           | None => None
           end.

(** [/word[^a-zA-Z0-9]*[^\s]*/i] *)
Definition m_word (w : string) : matcher :=
  fun s => match strip_prefix_ci w s with
           | Some r =>
               let n := run (fun c => negb (is_alnum c)) r in
               Some (String.length w + n + run (fun c => negb (is_space c)) (sdrop n r))
           | None => None
           end.

Definition REDACTED : string := "[REDACTED]".

(** [s.replace(pattern, '[REDACTED]')] for a global [pattern]: scan from
    left to right, replace each match and go on after it.  [skip] counts
    the characters of the current match still to be passed over.  The
    patterns all start with a literal, so no match is empty. *)
Fixpoint replace_from (m : matcher) (s : string) (skip : nat) : string :=
  match s with
  | EmptyString => EmptyString
  | String c r =>
      match skip with
      | S k => replace_from m r k
      | O =>
          match m s with
          | Some (S k) => REDACTED ++ replace_from m r k
          | _ => String c (replace_from m r 0)
          end
      end
  end.

Definition replace_all (m : matcher) (s : string) : string := replace_from m s 0.

(** [sensitivePatterns] *)
Definition sensitivePatterns : list matcher :=
  [m_lit "/var/run/postgresql"; m_pgsql; m_etc; m_root; m_home;
   m_lit "/sensitive/path"; m_lit "socket";
   m_word "password"; m_word "secret"; m_word "token"; m_word "key"].

(** [s.split('\n')] *)
Fixpoint split_lines (s : string) : list string :=
  match s with
  | EmptyString => [EmptyString]
  | String c r =>
      if Nat.eqb (nat_of_ascii c) 10 then EmptyString :: split_lines r
      else match split_lines r with
           | l :: ls => String c l :: ls
           | [] => [String c EmptyString]
           end
  end.

(** [sanitizeErrorForClient(err, errorId)].  Besides [name], [code],
    [message] and [statusCode] (the fields of [exn]) it reads the keys
    of [err.errors] ([None]: no such property) and [err.stack];
    [isProduction] is [process.env.NODE_ENV === 'production'].  It
    answers the status code and the response body. *)
Definition sanitizeErrorForClient (err : exn) (errors : option (list string))
  (stack : option string) (errorId : string) (isProduction : bool) : Z * jval :=
  let code_is (c : string) :=
    match ex_code err with Some c' => String.eqb c' c | None => false end in
  let name_is (n : string) := String.eqb (ex_name err) n in
  let dflt := (500%Z, "An internal server error occurred", "INTERNAL_ERROR") in
  let '(statusCode, clientMessage, errorCode) :=
    if code_is "23505" then (409%Z, "A record with this information already exists", "DUPLICATE_RESOURCE")
    else if code_is "23503" then (404%Z, "Referenced resource not found", "RESOURCE_NOT_FOUND")
    else if code_is "23502" then (400%Z, "Required field is missing", "MISSING_REQUIRED_FIELD")
    else if code_is "08006" then (503%Z, "Service temporarily unavailable", "SERVICE_UNAVAILABLE")
    else if name_is "JsonWebTokenError" then (401%Z, "Invalid authentication token", "INVALID_TOKEN")
    else if name_is "TokenExpiredError" then (401%Z, "Authentication token expired", "TOKEN_EXPIRED")
    else if name_is "UnauthorizedError" then (401%Z, "Authentication required", "AUTHENTICATION_REQUIRED")
    else if name_is "ValidationError" then
      (400%Z,
       match errors with
       | Some ks => "Validation failed for fields: " ++ join ", " (map strip_field ks)
       | None => "Invalid input provided"
       end,
       "VALIDATION_ERROR")
    else if name_is "TooManyRequestsError" then (429%Z, "Too many requests, please try again later", "RATE_LIMIT_EXCEEDED")
    else if code_is "ENOENT" then (404%Z, "Requested resource not found", "RESOURCE_NOT_FOUND")
    else if code_is "EACCES" then (403%Z, "Access denied", "ACCESS_DENIED")
    else
      match ex_status err with
      | Some s =>
          if (400 <=? s)%Z && (s <? 500)%Z
          then (s,
                (if String.eqb (ex_message err) EmptyString
                 then "An internal server error occurred" else ex_message err),
                match ex_code err with
                | Some c => if String.eqb c EmptyString then "INTERNAL_ERROR" else c
                | None => "INTERNAL_ERROR"
                end)
          else dflt
      | None => dflt
      end in
  let error := JObj [("message", JStr clientMessage); ("code", JStr errorCode);
                     ("errorId", JStr errorId)] in
  if isProduction then (statusCode, JObj [("success", JBool false); ("error", error)])
  else
    let sanitizedStack0 := match stack with
                           | Some s => firstn 5 (split_lines s)
                           | None => []
                           end in
    let '(sanitizedMessage, sanitizedStack) :=
      fold_left (fun acc pattern =>
                   (replace_all pattern (fst acc), map (replace_all pattern) (snd acc)))
                sensitivePatterns (ex_message err, sanitizedStack0) in
    (statusCode,
     JObj [("success", JBool false); ("error", error);
           ("development", JObj [("originalMessage", JStr sanitizedMessage);
                                 ("stack", JArr (map JStr sanitizedStack))])]).

(** The error [notFoundHandler] passes on for [req.originalUrl]. *)
Definition notFoundHandler (originalUrl : string) : exn :=
  mkExn "Error" (Some "ROUTE_NOT_FOUND") ("Route " ++ originalUrl ++ " not found") (Some 404%Z).

End ErrorHandler.

(* ================================================================== *)
(** * The data access layer ([DataAccessLayer.js]) *)

Module Dal.

(** A row of [tasks], with the columns the repository reads and writes
    ([created_at] and [updated_at] are left out: the model has no clock). *)
Record task := mkTask {
  t_id : Z;
  t_user : Z;
  t_title : jval;
  t_description : jval;
  t_completed : bool;
  t_priority : jval;
  t_due_date : jval;
  t_category : option Z
}.

(** A row of [categories]: its [id] and [user_id]. *)
Record category := mkCategory { c_id : Z; c_user : Z }.

(** The statements the repository sends to PostgreSQL. *)
Inductive stmt : Type :=
| SSelectTasks | SCountTasks | SSelectTask | SInsertTask
| SUpdateTask | SDeleteTask | SSelectStats | SSelectCategory.

(** A call that reaches a store, in the order the calls are issued. *)
Inductive event : Type :=
| CacheGet (k : string)
| CacheSet (k : string) (v : string)
| CacheDel (k : string)
| Sql (s : stmt).

(** Redis (key to stored text), the two tables, the next [SERIAL] value
    of [tasks.id], and the calls made so far.  Both stores answer every
    call. *)
Record rworld := mkRWorld {
  cache : list (string * string);
  tasks : list task;
  categories : list category;
  next_id : Z;
  trace : list event
}.

Definition set_cache (c : list (string * string)) (w : rworld) : rworld :=
  mkRWorld c (tasks w) (categories w) (next_id w) (trace w).
Definition set_tasks (ts : list task) (w : rworld) : rworld :=
  mkRWorld (cache w) ts (categories w) (next_id w) (trace w).
Definition set_next_id (n : Z) (w : rworld) : rworld :=
  mkRWorld (cache w) (tasks w) (categories w) n (trace w).

Definition emit (e : event) : M rworld unit :=
  fun w => (Ok tt, mkRWorld (cache w) (tasks w) (categories w) (next_id w) (trace w ++ [e])%list).

Definition gets {A} (f : rworld -> A) : M rworld A := fun w => (Ok (f w), w).

Definition modify (f : rworld -> rworld) : M rworld unit := fun w => (Ok tt, f w).

(** Redis [GET], [SET] and [DEL] on the key table. *)
Fixpoint cache_find (k : string) (c : list (string * string)) : option string :=
  match c with
  | [] => None
  | (k', v) :: r => if String.eqb k' k then Some v else cache_find k r
  end.

Fixpoint cache_put (k v : string) (c : list (string * string)) : list (string * string) :=
  match c with
  | [] => [(k, v)]
  | (k', v') :: r => if String.eqb k' k then (k', v) :: r else (k', v') :: cache_put k v r
  end.

Definition cache_del (k : string) (c : list (string * string)) : list (string * string) :=
  filter (fun p => negb (String.eqb (fst p) k)) c.

(** [this.cacheTTL] *)
Definition cacheTTL_short : Z := 300.
Definition cacheTTL_medium : Z := 1800.
Definition cacheTTL_long : Z := 7200.

Definition is_nullish (v : jval) : bool :=
  match v with
  | JUndef | JNull => true
  | _ => false
  end.

(** [generateCacheKey(namespace, ...parts)] *)
Definition generateCacheKey (namespace : string) (parts : list jval) : string :=
  let sanitizedParts :=
    map (fun part => sanitize (js_String part))
        (filter (fun part => negb (is_nullish part)) parts) in
  namespace ++ ":" ++ join ":" sanitizedParts.

(** [getCached(key)]: a [JSON.parse] failure is caught and read as a
    miss. *)
Definition getCached (key : string) : M rworld jval :=
  emit (CacheGet key) ;;;
  cached <- gets (fun w => cache_find key (cache w)) ;;
  match cached with
  | Some txt =>
      if truthy (JStr txt) then
        match parse txt with
        | Some v => ret v
        | None => ret JNull
        end
      else ret JNull
  | None => ret JNull
  end.

(** The text [JSON.stringify] gives ([undefined] as the empty text). *)
Definition json_text (v : jval) : string :=
  match stringify v with
  | Some s => s
  | None => EmptyString
  end.

(** The value [getCached(key)] resolves to on the key table [c]. *)
Definition read_cached (key : string) (c : list (string * string)) : jval :=
  match cache_find key c with
  | Some txt =>
      if truthy (JStr txt) then
        match parse txt with
        | Some v => v
        | None => JNull
        end
      else JNull
  | None => JNull
  end.

(** [setCached(key, data, ttl)], through the [redis.set] wrapper of
    [config/database.ts].  The model has no clock: the TTL is not kept,
    and a write is taken as accepted by the backend (a [SETEX] with a
    TTL that is not positive is refused, which the wrapper turns into
    [null]).  [JSON.stringify] of [undefined] gives no text: the client
    refuses it before sending, the wrapper's [catch] answers [null], and
    [setCached] still resolves to [true]. *)
Definition setCached (key : string) (data : jval) (ttl : Z) : M rworld bool :=
  match stringify data with
  | Some txt =>
      emit (CacheSet key txt) ;;;
      modify (fun w => set_cache (cache_put key txt (cache w)) w) ;;;
      ret true
  | None => ret true
  end.

(** [deleteCached(key)] *)
Definition deleteCached (key : string) : M rworld bool :=
  emit (CacheDel key) ;;;
  modify (fun w => set_cache (cache_del key (cache w)) w) ;;;
  ret true.

(** [invalidateCache(patterns)]: one [deleteCached] per entry, issued in
    array order. *)
Fixpoint invalidateCache (patterns : list string) : M rworld unit :=
  match patterns with
  | [] => ret tt
  | pattern :: r => deleteCached pattern ;;; invalidateCache r
  end.

(** *** [executeTransaction(callback)] *)

(** What goes over the pooled connection. *)
Inductive txevent : Type :=
| TConnect
| TQuery (q : string)
| TRelease
| TBody (label : string).

(** How each [client.query] ends ([Some e]: it rejects with [e]; an
    empty list: every later query succeeds), and the connection's
    history. *)
Record txworld := mkTx {
  tx_outcomes : list (option exn);
  tx_log : list txevent
}.

Definition tx_emit (e : txevent) : M txworld unit :=
  fun w => (Ok tt, mkTx (tx_outcomes w) (tx_log w ++ [e])%list).

(** [pool.connect()] *)
Definition connect : M txworld unit := tx_emit TConnect.

(** [client.query(q)] *)
Definition client_query (q : string) : M txworld unit :=
  fun w =>
    let l := (tx_log w ++ [TQuery q])%list in
    match tx_outcomes w with
    | Some e :: r => (Exn e, mkTx r l)
    | os => (Ok tt, mkTx (tl os) l)
    end.

(** [client.release()] *)
Definition release : M txworld unit := tx_emit TRelease.

(** [try { m } finally { f }] *)
Definition try_finally {S A} (m : M S A) (f : M S unit) : M S A :=
  fun s =>
    let '(r, s1) := m s in
    match f s1 with
    | (Ok _, s2) => (r, s2)
    | (Exn e, s2) => (Exn e, s2)
    end.

(** [await this.pool.connect()]: the pool hands out a client, or
    rejects with [pool_error]. *)
Definition pool_connect (pool_error : option exn) : M txworld unit :=
  match pool_error with
  | Some e => throw e
  | None => connect
  end.

(** [executeTransaction(callback)] against a pool whose [connect()] ends
    as [pool_error] says. *)
Definition executeTransaction_on {A} (pool_error : option exn) (callback : M txworld A)
  : M txworld A :=
  pool_connect pool_error ;;;
  try_finally
    (try_catch
       (client_query "BEGIN" ;;;
        result <- callback ;;
        client_query "COMMIT" ;;;
        ret result)
       (fun error => client_query "ROLLBACK" ;;; throw error))
    release.

(** [executeTransaction(callback)] when the pool hands out a client. *)
Definition executeTransaction {A} (callback : M txworld A) : M txworld A :=
  executeTransaction_on None callback.

(** The next [client.query] succeeds. *)
Definition query_ok (os : list (option exn)) : bool :=
  match os with
  | Some _ :: _ => false
  | _ => true
  end.

(** How many times the connection was released. *)
Fixpoint count_release (l : list txevent) : nat :=
  match l with
  | [] => 0
  | TRelease :: r => S (count_release r)
  | _ :: r => count_release r
  end.


(** *** Pattern invalidation and bulk operations *)

(** [invalidateCachePattern(pattern)]: the key spelled [pattern] is
    deleted, nothing else. *)
Definition invalidateCachePattern (pattern : string) : M rworld unit :=
  try_catch (deleteCached pattern ;;; ret tt) (fun _ => ret tt).




Fixpoint delete_each (keys : list string) : M rworld (list bool) :=
  match keys with
  | [] => ret []
  | key :: r => b <- deleteCached key ;; bs <- delete_each r ;; ret (b :: bs)
  end.

(** [bulkDeleteCache(keys)] *)
Definition bulkDeleteCache (keys : list string) : M rworld bool :=
  try_catch (delete_each keys ;;; ret true) (fun _ => ret false).

(** *** [query(sql, params, options)] *)

Section Query.

(** [this.pool.query(sql, params)]: resolves to the [rows] and the
    [rowCount] of the result, or rejects. *)
Variable pool_query : string -> list jval -> M rworld (jval * jval).

(** [cache] is the truthiness of [options.cache] (default [false]); an
    absent [cacheKey] is the empty key, both being falsy; [cacheTTL] is
    [options.cacheTTL] with its default [this.cacheTTL.medium] already
    applied. *)
Definition query (sql : string) (params : list jval) (cache : bool) (cacheKey : string)
  (cacheTTL : Z) : M rworld jval :=
  early <- (if cache && truthy (JStr cacheKey)
            then cached <- getCached cacheKey ;;
                 ret (if truthy cached then Some cached else None)
            else ret None) ;;
  match early with
  | Some cached => ret (JObj [("rows", cached); ("fromCache", JBool true)])
  | None =>
      try_catch
        (result <- pool_query sql params ;;
         let '(rows, rowCount) := result in
         (if cache && truthy (JStr cacheKey) && truthy rows
          then setCached cacheKey rows cacheTTL ;;; ret tt
          else ret tt) ;;;
         ret (JObj [("rows", rows); ("rowCount", rowCount); ("fromCache", JBool false)]))
        (fun error => throw error)
  end.

End Query.

(** *** The repository registry *)

(** [this.repositories] (name to instance, in insertion order) and the
    instances whose [setDAL] has been called; an instance is named by a
    number. *)
Record registry := mkRegistry {
  repositories : list (string * Z);
  dal_set : list Z
}.

(** [Map.prototype.set]: a known key keeps its place. *)
Fixpoint map_set (k : string) (v : Z) (m : list (string * Z)) : list (string * Z) :=
  match m with
  | [] => [(k, v)]
  | (k', v') :: r => if String.eqb k' k then (k', v) :: r else (k', v') :: map_set k v r
  end.

Fixpoint map_get (k : string) (m : list (string * Z)) : option Z :=
  match m with
  | [] => None
  | (k', v) :: r => if String.eqb k' k then Some v else map_get k r
  end.

(** [registerRepository(name, repositoryInstance)]; [None] is a falsy
    instance. *)
Definition registerRepository (name : string) (repositoryInstance : option Z) : M registry Z :=
  match repositoryInstance with
  | None => throw (plain_error ("Repository instance is required for " ++ name))
  | Some inst =>
      fun r => (Ok inst, mkRegistry (map_set name inst (repositories r)) (dal_set r ++ [inst]))
  end.

(** [getRepository(name)] *)
Definition getRepository (name : string) : M registry Z :=
  fun r =>
    match map_get name (repositories r) with
    | Some inst => (Ok inst, r)
    | None =>
        (Exn (plain_error ("Repository '" ++ name ++ "' not found. Available repositories: "
                           ++ join ", " (map fst (repositories r)))), r)
    end.

(** *** Helpers of the proofs, and the states of the examples *)

(** The key table after one [DEL] per key of [keys], in order. *)
Definition del_all (keys : list string) (c : list (string * string)) : list (string * string) :=
  fold_left (fun c k => cache_del k c) keys c.


(** A pool answering every query with one row. *)
Definition pool_one (_ : string) (_ : list jval) : M rworld (jval * jval) :=
  ret (JArr [JObj [("id", JNum 1)]], JNum 1).

Definition w_hit : rworld := mkRWorld [("q", "[1]")] [] [] 1%Z [].

End Dal.

(* ================================================================== *)
(** * The repository base class ([BaseRepository.ts]) *)

Module BaseRepository.
Import Dal.

(** [ensureDAL()] of the instance [inst] of class [ctorName]. *)
Definition ensureDAL (ctorName : string) (inst : Z) : M registry unit :=
  fun r =>
    if existsb (Z.eqb inst) (dal_set r) then (Ok tt, r)
    else (Exn (plain_error ("DAL not available for " ++ ctorName
                            ++ ". Repository must be registered with DAL.")), r).

(** [Object.entries(v)]; [None] is the [TypeError] it throws on [null]
    and [undefined].  A string and an array list their indices. *)
Definition entries (v : jval) : option (list (string * jval)) :=
  match v with
  | JUndef | JNull => None
  | JObj fs => Some fs
  | JArr xs => Some (combine (map (fun i => z_to_string (Z.of_nat i)) (seq 0 (length xs))) xs)
  | JStr s =>
      Some (combine (map (fun i => z_to_string (Z.of_nat i)) (seq 0 (String.length s)))
                    (map (fun c => JStr (String c EmptyString)) (list_ascii_of_string s)))
  | JBool _ | JNum _ => Some []
  end.

(** [value !== null && value !== undefined] *)
Definition present (v : jval) : bool :=
  match v with
  | JUndef | JNull => false
  | _ => true
  end.

(** The loop of [buildWhereClause] from [paramCount] on. *)
Fixpoint where_parts (es : list (string * jval)) (paramCount : Z) : list string * list jval :=
  match es with
  | [] => ([], [])
  | (field, value) :: r =>
      if present value
      then let '(ws, ps) := where_parts r (paramCount + 1) in
           ((field ++ " = $" ++ z_to_string paramCount) :: ws, value :: ps)
      else where_parts r paramCount
  end.

(** [buildWhereClause(conditions)]: [whereClause] and [params]. *)
Definition buildWhereClause (conditions : jval) : string * list jval :=
  if negb (truthy conditions) then (EmptyString, []) else
  match entries conditions with
  | None | Some [] => (EmptyString, [])
  | Some es =>
      let '(whereParts, params) := where_parts es 1 in
      (if Nat.ltb 0 (length whereParts) then "WHERE " ++ join " AND " whereParts
       else EmptyString,
       params)
  end.

(** The loop of [buildUpdateClause] from [paramCount] on. *)
Fixpoint update_parts (es : list (string * jval)) (excludeFields : list string) (paramCount : Z)
  : list string * list jval * Z :=
  match es with
  | [] => ([], [], paramCount)
  | (field, value) :: r =>
      if negb (existsb (String.eqb field) excludeFields)
         && match value with JUndef => false | _ => true end
      then let '(us, ps, n) := update_parts r excludeFields (paramCount + 1) in
           ((field ++ " = $" ++ z_to_string paramCount) :: us, value :: ps, n)
      else update_parts r excludeFields paramCount
  end.

(** [buildUpdateClause(data, excludeFields = [])]: [updateClause],
    [params] and [nextParamCount]; [None] is the [TypeError] of
    [Object.entries] on [null] or [undefined]. *)
Definition buildUpdateClause (data : jval) (excludeFields : list string)
  : option (string * list jval * Z) :=
  match entries data with
  | None => None
  | Some es =>
      let '(updateFields, params, paramCount) := update_parts es excludeFields 1 in
      Some (join ", " updateFields, params, paramCount)
  end.

(** [data[field] === undefined || data[field] === null || data[field] === ''] *)
Definition missing_value (v : jval) : bool :=
  match v with
  | JUndef | JNull => true
  | JStr s => String.eqb s EmptyString
  | _ => false
  end.

(** [validateRequired(data, requiredFields)] on an object [data]. *)
Definition validateRequired (data : jval) (requiredFields : list string) : res unit :=
  let missing := filter (fun field => missing_value (get_prop field data)) requiredFields in
  if Nat.ltb 0 (length missing)
  then Exn (plain_error ("Missing required fields: " ++ join ", " missing))
  else Ok tt.

(** The clause parts the loops push for the fields [fs], numbered from
    [n] on. *)
Fixpoint numbered (fs : list string) (n : Z) : list string :=
  match fs with
  | [] => []
  | f :: r => (f ++ " = $" ++ z_to_string n) :: numbered r (n + 1)
  end.

End BaseRepository.


(* ================================================================== *)
(** * The task repository ([TaskRepository.js]) *)

Module TaskRepository.
Import Dal.

(** [x = d] in a destructuring pattern: [d] when [x] is [undefined]. *)
Definition default_to (v d : jval) : jval :=
  match v with
  | JUndef => d
  | _ => v
  end.

Fixpoint set_field (k : string) (x : jval) (fs : list (string * jval)) : list (string * jval) :=
  match fs with
  | [] => [(k, x)]
  | (k', y) :: r => if String.eqb k' k then (k', x) :: r else (k', y) :: set_field k x r
  end.

(** [{ ...v, k: x }]: the own properties of [v], then [k]. *)
Definition with_prop (k : string) (x : jval) (v : jval) : jval :=
  JObj (set_field k x (own_props v)).

Definition lower_char (c : ascii) : ascii :=
  if in_range 65 90 c then ascii_of_nat (nat_of_ascii c + 32) else c.

(** [s.toLowerCase()] on ASCII text. *)
Fixpoint to_lower (s : string) : string :=
  match s with
  | EmptyString => EmptyString
  | String c r => String (lower_char c) (to_lower r)
  end.

(** Optional sign, then digits, as [parseInt] and PostgreSQL's integer
    input read them: [Some (n, rest)]. *)
Definition signed_digits (s : string) : option (Z * string) :=
  let '(neg, s') := match s with
                    | String "-" r => (true, r)
                    | String "+" r => (false, r)
                    | _ => (false, s)
                    end in
  match parse_digits s' 0%Z false with
  | Some (n, rest) => Some (if neg then Z.opp n else n, rest)
  | None => None
  end.

(** [parseInt(v)]; [None] is [NaN]. *)
Definition parseInt (v : jval) : option Z :=
  match signed_digits (skip_ws (js_String v)) with
  | Some (n, _) => Some n
  | None => None
  end.

(** The errors PostgreSQL raises for a parameter it cannot read as an
    [integer] or a [boolean], and for an [integer] outside 32 bits. *)
Definition invalid_input : exn :=
  mkExn "error" (Some "22P02") "invalid input syntax for type integer" None.
Definition invalid_boolean : exn :=
  mkExn "error" (Some "22P02") "invalid input syntax for type boolean" None.
Definition out_of_range : exn :=
  mkExn "error" (Some "22003") "value is out of range for type integer" None.

(** The white space PostgreSQL's input functions skip ([isspace]). *)
Definition pg_space (c : ascii) : bool :=
  in_range 9 13 c || Ascii.eqb c " "%char.

Fixpoint ltrim (s : string) : string :=
  match s with
  | String c r => if pg_space c then ltrim r else s
  | EmptyString => EmptyString
  end.

Fixpoint rtrim (s : string) : string :=
  match s with
  | EmptyString => EmptyString
  | String c r =>
      let r' := rtrim r in
      if pg_space c && String.eqb r' EmptyString then EmptyString else String c r'
  end.

Definition trim (s : string) : string := rtrim (ltrim s).

(** The range of PostgreSQL's [integer] columns ([SERIAL] ids). *)
Definition int4_ok (n : Z) : bool :=
  ((-2147483648 <=? n) && (n <=? 2147483647))%Z.

(** A JavaScript number bound to an [integer] parameter: node-postgres
    sends [String(n)], which from [1e21] on is in exponent form
    ([1e+21], not an integer literal); a shorter number outside 32 bits
    is out of range. *)
Definition pg_int_param (n : Z) : res Z :=
  if int4_ok n then Ok n
  else if (Z.pow 10 21 <=? Z.abs n)%Z then Exn invalid_input
  else Exn out_of_range.

(** How PostgreSQL takes a query parameter for an [integer] column:
    [Ok None] is SQL [NULL] ([undefined] and [null] are sent as
    [NULL]), [Exn e] a value it refuses.  A string is read with
    surrounding white space, an optional sign and decimal digits. *)
Definition sql_int (v : jval) : res (option Z) :=
  match v with
  | JUndef | JNull => Ok None
  | JNum n =>
      match pg_int_param n with
      | Ok m => Ok (Some m)
      | Exn e => Exn e
      end
  | JStr s =>
      match signed_digits (trim s) with
      | Some (n, EmptyString) => if int4_ok n then Ok (Some n) else Exn out_of_range
      | _ => Exn invalid_input
      end
  | _ => Exn invalid_input
  end.

(** PostgreSQL's [boolin] on a text, after trimming, ignoring case:
    a non-empty prefix of [true], [yes], [false] or [no], [on], [of] or
    [off], [1] or [0]. *)
Definition pg_bool_text (s : string) : option bool :=
  let t := to_lower (trim s) in
  if existsb (String.eqb t) ["t"; "tr"; "tru"; "true"; "y"; "ye"; "yes"; "on"; "1"]
  then Some true
  else if existsb (String.eqb t) ["f"; "fa"; "fal"; "fals"; "false"; "n"; "no"; "of"; "off"; "0"]
  then Some false
  else None.

(** How PostgreSQL takes a query parameter for a [boolean] column:
    node-postgres sends a boolean as [true]/[false] and a number as
    [String(n)]; [None] is a value it refuses.  The model has no [NULL]
    completion state, so [null] is refused as well. *)
Definition sql_bool (v : jval) : option bool :=
  match v with
  | JBool b => Some b
  | JStr s => pg_bool_text s
  | JNum n => pg_bool_text (z_to_string n)
  | _ => None
  end.

(** The error PostgreSQL raises when a [category_id] names no row of
    [categories]: the foreign key of [tasks.category_id] ([ON DELETE SET
    NULL], as the category routes note). *)
Definition fk_violation : exn :=
  mkExn "error" (Some "23503")
    "insert or update on table tasks violates foreign key constraint" None.

(** Destructuring [null]. *)
Definition destructure_error : exn :=
  mkExn "TypeError" None "Cannot destructure null" None.

(** [order.toLowerCase] on a value that is not a string. *)
Definition not_a_function : exn :=
  mkExn "TypeError" None "order.toLowerCase is not a function" None.

Definition category_error : exn :=
  plain_error "Category not found or does not belong to user".

Definition allowedSortFields : list string := ["created_at"; "due_date"; "priority"; "title"].
Definition allowedOrderDirections : list string := ["asc"; "desc"].

(** [xs.includes(v)] for an array of strings. *)
Definition includes (xs : list string) (v : jval) : bool :=
  match v with
  | JStr s => existsb (String.eqb s) xs
  | _ => false
  end.

(** The [RETURNING] columns of [INSERT] and [UPDATE]. *)
Definition task_cols (t : task) : jval :=
  JObj [("id", JNum (t_id t)); ("title", t_title t); ("description", t_description t);
        ("completed", JBool (t_completed t)); ("priority", t_priority t);
        ("due_date", t_due_date t)].

(** A row of the [SELECT]s of [getUserTasks] and [getTaskById]:
    [category_id] is [c.id] of the [LEFT JOIN]. *)
Definition select_row (cats : list category) (t : task) : jval :=
  match task_cols t with
  | JObj fs =>
      JObj (app fs [("category_id",
                    match t_category t with
                    | Some c => if existsb (fun cat => Z.eqb (c_id cat) c) cats
                                then JNum c else JNull
                    | None => JNull
                    end)])
  | v => v
  end.

(** [JSON.stringify(filters)] as a key part. *)
Definition json_part (v : jval) : jval :=
  match stringify v with
  | Some s => JStr s
  | None => JUndef
  end.

(** [t.user_id = $1 AND t.completed = $2 AND t.priority = $3 AND
    t.category_id = $4], the conditions that are present. *)
Definition where_list (userId : Z) (completed priority : jval) (category : option Z)
  (t : task) : bool :=
  Z.eqb (t_user t) userId
  && match completed with
     | JUndef => true
     | _ => Bool.eqb (t_completed t)
              (match completed with
               | JStr s => String.eqb s "true"
               | JBool b => b
               | _ => false
               end)
     end
  && (if truthy priority then String.eqb (js_String (t_priority t)) (js_String priority)
      else true)
  && match category with
     | Some c => match t_category t with Some c' => Z.eqb c' c | None => false end
     | None => true
     end.

(** [validateCategoryOwnership(categoryId, userId)] *)
Definition validateCategoryOwnership (categoryId : jval) (userId : Z) : M rworld bool :=
  emit (Sql SSelectCategory) ;;;
  match sql_int categoryId with
  | Exn e => throw e
  | Ok None => ret false
  | Ok (Some c) =>
      gets (fun w => existsb (fun cat => Z.eqb (c_id cat) c && Z.eqb (c_user cat) userId)
                             (categories w))
  end.

(** [invalidateUserTasksCache(userId)] *)
Definition invalidateUserTasksCache (userId : Z) : M rworld unit :=
  invalidateCache [generateCacheKey "user_tasks" [JNum userId];
                   generateCacheKey "user_task_stats" [JNum userId]].

(** The two checks of [getUserTasks] on [sort] and [order]
    ([false] for an [order] without [toLowerCase]). *)
Definition sort_ok (sort : jval) : bool := includes allowedSortFields sort.

Definition order_ok (order : jval) : bool :=
  match order with
  | JStr o => existsb (String.eqb (to_lower o)) allowedOrderDirections
  | _ => false
  end.

(** The response of [getUserTasks] for a user with no rows, with the
    default [limit] and [offset]. *)
Definition empty_page : jval :=
  JObj [("tasks", JArr []);
        ("pagination", JObj [("total", JNum 0); ("limit", JNum 50);
                             ("offset", JNum 0); ("hasMore", JBool false)])].

(** The cache key of [getUserTasks(userId, filters)]. *)
Definition list_key (userId : Z) (filters : jval) : string :=
  generateCacheKey "user_tasks" [JNum userId; json_part (default_to filters (JObj []))].

(** The two queries of [getUserTasks] and the response built from them
    (the [ORDER BY] is not modelled: rows come in table order). *)
Definition list_query (userId : Z) (completed priority category_id limit offset : jval)
  : M rworld jval :=
  emit (Sql SSelectTasks) ;;;
  emit (Sql SCountTasks) ;;;
  let category := if truthy category_id then Some (parseInt category_id) else None in
  match category, parseInt limit, parseInt offset with
  | Some None, _, _ | _, None, _ | _, _, None => throw invalid_input
  | _, Some l, Some o =>
      w <- gets (fun w => w) ;;
      let rows := filter (where_list userId completed priority
                            (match category with Some c => c | None => None end))
                         (tasks w) in
      let total := Z.of_nat (length rows) in
      let page := firstn (Z.to_nat l) (skipn (Z.to_nat o) rows) in
      ret (JObj [("tasks", JArr (map (select_row (categories w)) page));
                 ("pagination", JObj [("total", JNum total); ("limit", JNum l);
                                      ("offset", JNum o);
                                      ("hasMore", JBool (o + l <? total)%Z)])])
  end.

(** [getUserTasks(userId, filters = {})] *)
Definition getUserTasks (userId : Z) (filters : jval) : M rworld jval :=
  let filters := default_to filters (JObj []) in
  match filters with
  | JNull => throw destructure_error
  | _ =>
  let completed := get_prop "completed" filters in
  let priority := get_prop "priority" filters in
  let category_id := get_prop "category_id" filters in
  let sort := default_to (get_prop "sort" filters) (JStr "created_at") in
  let order := default_to (get_prop "order" filters) (JStr "desc") in
  let limit := default_to (get_prop "limit" filters) (JNum 50) in
  let offset := default_to (get_prop "offset" filters) (JNum 0) in
  let cacheKey := generateCacheKey "user_tasks" [JNum userId; json_part filters] in
  cached <- getCached cacheKey ;;
  if truthy cached then ret (with_prop "fromCache" (JBool true) cached) else
  if negb (includes allowedSortFields sort)
  then throw (plain_error ("Invalid sort field: " ++ js_String sort ++ ". Allowed: "
                           ++ join ", " allowedSortFields))
  else
  match order with
  | JStr o =>
      if negb (existsb (String.eqb (to_lower o)) allowedOrderDirections)
      then throw (plain_error ("Invalid order direction: " ++ o ++ ". Allowed: "
                               ++ join ", " allowedOrderDirections))
      else
        response <- list_query userId completed priority category_id limit offset ;;
        setCached cacheKey response cacheTTL_short ;;;
        ret (with_prop "fromCache" (JBool false) response)
  | _ => throw not_a_function
  end
  end.

(** [getTaskById(taskId, userId)].  [taskId] is the number the route
    parsed from the URL, which PostgreSQL may refuse; [userId] is the id
    of the authenticated user, a [users] row id it always takes. *)
Definition getTaskById (taskId userId : Z) : M rworld jval :=
  let cacheKey := generateCacheKey "task" [JNum taskId; JNum userId] in
  cached <- getCached cacheKey ;;
  if truthy cached then ret (with_prop "fromCache" (JBool true) cached) else
  emit (Sql SSelectTask) ;;;
  match pg_int_param taskId with
  | Exn e => throw e
  | Ok _ =>
  w <- gets (fun w => w) ;;
  match filter (fun t => Z.eqb (t_id t) taskId && Z.eqb (t_user t) userId) (tasks w) with
  | [] => ret JNull
  | t :: _ =>
      let task := select_row (categories w) t in
      setCached cacheKey task cacheTTL_medium ;;;
      ret (with_prop "fromCache" (JBool false) task)
  end
  end.

(** A parameter as stored: [undefined] is sent as [NULL]. *)
Definition sql_val (v : jval) : jval :=
  match v with
  | JUndef => JNull
  | _ => v
  end.

(** The [INSERT ... RETURNING] of [createTask].  The foreign key of
    [category_id] refuses an id with no [categories] row (the category
    routes rely on its [ON DELETE SET NULL]).  The schema is not in the
    repository: no other constraint of the table is modelled, and
    [completed], not in the column list, is taken to default to [false]
    (the routes and the stats treat a new task as pending). *)
Definition insert_task (userId : Z) (title description priority due_date : jval)
  (category : option Z) : M rworld task :=
  fun w =>
    let t := mkTask (next_id w) userId (sql_val title) (sql_val description) false
                    (sql_val priority) (sql_val due_date) category in
    let fk_ok := match category with
                 | Some c => existsb (fun cat => Z.eqb (c_id cat) c) (categories w)
                 | None => true
                 end in
    if fk_ok
    then (Ok t, set_next_id (next_id w + 1) (set_tasks (tasks w ++ [t])%list w))
    else (Exn fk_violation, w).

(** [createTask(userId, taskData)] *)
Definition createTask (userId : Z) (taskData : jval) : M rworld jval :=
  let title := get_prop "title" taskData in
  let description := get_prop "description" taskData in
  let priority := default_to (get_prop "priority" taskData) (JStr "medium") in
  let due_date := get_prop "due_date" taskData in
  let category_id := get_prop "category_id" taskData in
  (if truthy category_id
   then categoryExists <- validateCategoryOwnership category_id userId ;;
        if categoryExists then ret tt else throw category_error
   else ret tt) ;;;
  emit (Sql SInsertTask) ;;;
  match sql_int category_id with
  | Exn e => throw e
  | Ok category =>
      newTask <- insert_task userId title description priority due_date category ;;
      invalidateUserTasksCache userId ;;;
      ret (task_cols newTask)
  end.

Definition is_undef (v : jval) : bool :=
  match v with
  | JUndef => true
  | _ => false
  end.

(** The [SET] list of [updateTask]: each field that is not [undefined]. *)
Definition apply_update (title description : jval) (completed : option bool)
  (priority due_date : jval) (category : option (option Z)) (t : task) : task :=
  mkTask (t_id t) (t_user t)
    (if is_undef title then t_title t else title)
    (if is_undef description then t_description t else description)
    (match completed with Some b => b | None => t_completed t end)
    (if is_undef priority then t_priority t else priority)
    (if is_undef due_date then t_due_date t else due_date)
    (match category with Some c => c | None => t_category t end).

(** [updateTask(taskId, userId, updateData)].  The parameters of the
    [UPDATE] are the fields set, then [taskId] and [userId]; PostgreSQL
    converts them in that order and refuses the first bad one (the text
    columns take any value; [due_date] is a [Date] from the route). *)
Definition updateTask (taskId userId : Z) (updateData : jval) : M rworld jval :=
  let title := get_prop "title" updateData in
  let description := get_prop "description" updateData in
  let completed := get_prop "completed" updateData in
  let priority := get_prop "priority" updateData in
  let due_date := get_prop "due_date" updateData in
  let category_id := get_prop "category_id" updateData in
  existingTask <- getTaskById taskId userId ;;
  if negb (truthy existingTask) then ret JNull else
  (if negb (is_nullish category_id)
   then categoryExists <- validateCategoryOwnership category_id userId ;;
        if categoryExists then ret tt else throw category_error
   else ret tt) ;;;
  if forallb is_undef [title; description; completed; priority; due_date; category_id]
  then throw (plain_error "No fields to update")
  else
  emit (Sql SUpdateTask) ;;;
  let completed' := if is_undef completed then Ok None
                    else match sql_bool completed with
                         | Some b => Ok (Some b)
                         | None => Exn invalid_boolean
                         end in
  let category' := if is_undef category_id then Ok None
                   else match sql_int category_id with
                        | Ok c => Ok (Some c)
                        | Exn e => Exn e
                        end in
  match completed', category', pg_int_param taskId with
  | Exn e, _, _ => throw e
  | Ok _, Exn e, _ => throw e
  | Ok _, Ok _, Exn e => throw e
  | Ok cb, Ok cc, Ok _ =>
      w <- gets (fun w => w) ;;
      let hit := fun t => Z.eqb (t_id t) taskId && Z.eqb (t_user t) userId in
      let upd := apply_update title description cb priority due_date cc in
      match filter hit (tasks w) with
      | [] => ret JNull
      | t :: _ =>
          modify (set_tasks (map (fun t => if hit t then upd t else t) (tasks w))) ;;;
          invalidateUserTasksCache userId ;;;
          deleteCached (generateCacheKey "task" [JNum taskId; JNum userId]) ;;;
          ret (task_cols (upd t))
      end
  end.

(** [deleteTask(taskId, userId)]; [taskId] and [userId] as for
    [getTaskById]. *)
Definition deleteTask (taskId userId : Z) : M rworld bool :=
  emit (Sql SDeleteTask) ;;;
  match pg_int_param taskId with
  | Exn e => throw e
  | Ok _ =>
  w <- gets (fun w => w) ;;
  let hit := fun t => Z.eqb (t_id t) taskId && Z.eqb (t_user t) userId in
  match filter hit (tasks w) with
  | [] => ret false
  | _ =>
      modify (set_tasks (filter (fun t => negb (hit t)) (tasks w))) ;;;
      invalidateUserTasksCache userId ;;;
      deleteCached (generateCacheKey "task" [JNum taskId; JNum userId]) ;;;
      ret true
  end
  end.

(** [getTaskStats(userId)]; [overdue] needs a clock and is left out. *)
Definition getTaskStats (userId : Z) : M rworld jval :=
  let cacheKey := generateCacheKey "user_task_stats" [JNum userId] in
  cached <- getCached cacheKey ;;
  if truthy cached then ret (with_prop "fromCache" (JBool true) cached) else
  emit (Sql SSelectStats) ;;;
  w <- gets (fun w => w) ;;
  let mine := filter (fun t => Z.eqb (t_user t) userId) (tasks w) in
  let count := fun (p : task -> bool) => JNum (Z.of_nat (length (filter p mine))) in
  let stats := JObj [("total", count (fun _ => true));
                     ("completed", count t_completed);
                     ("pending", count (fun t => negb (t_completed t)));
                     ("urgent", count (fun t => String.eqb (js_String (t_priority t)) "urgent"));
                     ("high_priority", count (fun t => String.eqb (js_String (t_priority t)) "high"))] in
  setCached cacheKey stats cacheTTL_short ;;;
  ret (with_prop "fromCache" (JBool false) stats).

(** [m] leaves the cache entry of [k] as it finds it, on every path. *)
Definition keeps {A} (k : string) (m : M rworld A) : Prop :=
  forall w, cache_find k (cache (snd (m w))) = cache_find k (cache w).

(** *** States of the examples *)

Definition w_empty : rworld := mkRWorld [] [] [] 1%Z [].

(** A cache holding a list response under the key of
    [{sort: 'bogus'}]. *)
Definition w_cached_bogus : rworld :=
  mkRWorld [(list_key 1 (JObj [("sort", JStr "bogus")]), json_text (JObj [("tasks", JArr [])]))]
    [] [] 1%Z [].

Definition w_cat : rworld := mkRWorld [] [] [mkCategory 7 2] 1%Z [].

Definition body_error : exn := plain_error "body failed".

Definition lost_connection : exn :=
  mkExn "error" (Some "57P01") "terminating connection due to administrator command" None.

End TaskRepository.

(* ================================================================== *)
(** * Proofs *)

Module CacheSvcFacts.
Import CacheSvc.
Local Open Scope list_scope.

Lemma parse_stringify_obj :
  let v := JObj [("a", JArr [JNum 1; JBool true; JNull; JNum (-42)]);
                 ("b", JStr (String dq (String bsl "x")))] in
  option_map parse (stringify v) = Some (Some v).
Proof. vm_compute. reflexivity. Qed.

(** ** Store lemmas *)

Lemma present_keys_app (a b : list (option entry)) :
  present_keys (a ++ b) = present_keys a ++ present_keys b.
Proof.
  induction a as [|[e|] a IH]; simpl; rewrite ?IH; reflexivity.
Qed.

Lemma in_present_keys (k : string) (sl : list (option entry)) :
  In k (present_keys sl) <-> exists e, In (Some e) sl /\ e_key e = k.
Proof.
  induction sl as [|[e|] sl IH]; simpl.
  - split; [contradiction | intros (e & [] & _)].
  - rewrite IH. split.
    + intros [<- | (e' & Hin & Hk)]; eauto.
    + intros (e' & [Heq | Hin] & Hk); [inversion Heq; subst; auto | eauto].
  - rewrite IH. split.
    + intros (e' & Hin & Hk); eauto.
    + intros (e' & [Heq | Hin] & Hk); [discriminate | eauto].
Qed.

Lemma existsb_slot_has (k : string) (sl : list (option entry)) :
  existsb (slot_has k) sl = true <-> In k (present_keys sl).
Proof.
  induction sl as [|[e|] sl IH]; simpl.
  - split; [discriminate | contradiction].
  - rewrite orb_true_iff, IH, String.eqb_eq. split; intros [H|H]; auto.
  - exact IH.
Qed.

Lemma present_keys_remove (k k' : string) (sl : list (option entry)) :
  In k' (present_keys sl) -> k' <> k -> In k' (present_keys (store_remove k sl)).
Proof.
  unfold store_remove.
  induction sl as [|[e|] sl IH]; simpl; intros Hin Hne; auto.
  destruct (String.eqb (e_key e) k) eqn:E; simpl.
  - apply String.eqb_eq in E. destruct Hin as [<- | Hin]; [congruence | auto].
  - destruct Hin as [<- | Hin]; auto.
Qed.

(** [DEL] of distinct keys that are all present removes exactly them
    and counts them. *)
Lemma store_del_spec (ks : list string) :
  NoDup ks ->
  forall sl, (forall k, In k ks -> In k (present_keys sl)) ->
  store_del ks sl = (Z.of_nat (length ks), map (killset ks) sl).
Proof.
  induction 1 as [|k r Hnotin Hnd IH]; intros sl Hsub; simpl.
  - f_equal. unfold killset; simpl. rewrite map_id. reflexivity.
  - assert (Hk : existsb (slot_has k) sl = true)
      by (apply existsb_slot_has, Hsub; left; reflexivity).
    rewrite Hk.
    rewrite IH.
    + f_equal.
      * simpl length. lia.
      * unfold store_remove. rewrite map_map. apply map_ext. intros o.
        unfold killset. simpl. destruct (slot_has k o); simpl.
        -- destruct (existsb _ r); reflexivity.
        -- reflexivity.
    + intros k' Hin'. apply present_keys_remove.
      * apply Hsub. right. exact Hin'.
      * intros ->. contradiction.
Qed.

Lemma nodup_disjoint {A} (l1 l2 : list A) (a : A) :
  NoDup (l1 ++ l2) -> In a l1 -> In a l2 -> False.
Proof.
  induction l1 as [|x l1 IH]; simpl; intros Hnd Hin1 Hin2; [contradiction|].
  inversion Hnd as [|? ? Hx Hnd']; subst.
  destruct Hin1 as [<- | Hin1].
  - apply Hx, in_or_app. right. exact Hin2.
  - eauto.
Qed.

Lemma firstn_add {A} (c m : nat) (l : list A) :
  firstn (c + m) l = firstn c l ++ firstn m (skipn c l).
Proof.
  revert l. induction c as [|c IH]; intros [|x l]; simpl; auto.
  - destruct m; reflexivity.
  - f_equal. apply IH.
Qed.

Lemma length_map_killp_firstn (pattern : string) (c : nat) (base : list (option entry)) :
  c <= length base -> length (map (killp pattern) (firstn c base)) = c.
Proof.
  intros H. rewrite length_map, length_firstn. lia.
Qed.

Lemma existsb_key (e : entry) (ks : list string) :
  existsb (fun k => slot_has k (Some e)) ks = true <-> In (e_key e) ks.
Proof.
  rewrite existsb_exists. simpl. split.
  - intros (k & Hin & Heq). apply String.eqb_eq in Heq. subst. exact Hin.
  - intros Hin. exists (e_key e). split; [exact Hin | apply String.eqb_refl].
Qed.

Lemma killset_none (ks : list string) : killset ks None = None.
Proof. unfold killset. destruct (existsb _ ks); reflexivity. Qed.

(** One page of the sweep: the SCAN of the page at [c] sees the same
    slots as the initial table, and deleting its matching keys extends
    the swept prefix by one page. *)
Lemma page_step (pattern : string) (base : list (option entry)) (c : nat) :
  NoDup (present_keys base) -> c <= length base ->
  let sl := map (killp pattern) (firstn c base) ++ skipn c base in
  let ks := page_keys pattern sl c in
  ks = page_keys pattern base c /\
  map (killset ks) sl
    = map (killp pattern) (firstn (c + batchSize) base) ++ skipn (c + batchSize) base /\
  NoDup ks /\ (forall k, In k ks -> In k (present_keys sl)).
Proof.
  intros Hnd Hc sl ks.
  assert (Hskip : skipn c sl = skipn c base).
  { unfold sl. rewrite skipn_app, length_map_killp_firstn by exact Hc.
    rewrite skipn_all2 by (rewrite length_map, length_firstn; lia).
    rewrite Nat.sub_diag. reflexivity. }
  assert (Hks : ks = page_keys pattern base c).
  { unfold ks, page_keys. rewrite Hskip. reflexivity. }
  set (A := firstn c base). set (Pg := firstn batchSize (skipn c base)).
  set (B := skipn batchSize (skipn c base)).
  assert (Hbase : base = A ++ Pg ++ B).
  { unfold A, Pg, B. rewrite !firstn_skipn. reflexivity. }
  assert (Hnd' : NoDup (present_keys A ++ present_keys Pg ++ present_keys B)).
  { rewrite <- !present_keys_app, <- Hbase. exact Hnd. }
  assert (HksPg : ks = filter (glob pattern) (present_keys Pg)).
  { rewrite Hks. reflexivity. }
  assert (Hmatch : forall k, In k ks -> glob pattern k = true /\ In k (present_keys Pg)).
  { intros k Hk. rewrite HksPg in Hk. apply filter_In in Hk. tauto. }
  split; [exact Hks|]. split; [|split].
  - unfold sl. rewrite firstn_add. fold A Pg.
    assert (HB : skipn (c + batchSize) base = B).
    { unfold B. rewrite skipn_skipn. f_equal. lia. }
    rewrite HB.
    assert (Hsk : skipn c base = Pg ++ B) by (unfold Pg, B; rewrite firstn_skipn; reflexivity).
    rewrite Hsk, !map_app, <- app_assoc. f_equal; [|f_equal].
    + rewrite map_map. apply map_ext. intros [e|]; simpl; [|apply killset_none].
      destruct (glob pattern (e_key e)) eqn:G; [apply killset_none|].
      unfold killset. destruct (existsb _ ks) eqn:X; [|reflexivity].
      apply existsb_key, Hmatch in X. destruct X as [X _]. congruence.
    + apply map_ext_in. intros [e|] Hin; simpl; [|apply killset_none].
      unfold killset.
      assert (Hk : In (e_key e) (present_keys Pg))
        by (apply in_present_keys; eauto).
      destruct (glob pattern (e_key e)) eqn:G.
      * assert (X : existsb (fun k => slot_has k (Some e)) ks = true).
        { apply existsb_key. rewrite HksPg. apply filter_In. auto. }
        rewrite X. reflexivity.
      * destruct (existsb _ ks) eqn:X; [|reflexivity].
        apply existsb_key, Hmatch in X. destruct X as [X _]. congruence.
    + rewrite <- (map_id B) at 2. apply map_ext_in. intros [e|] Hin; [|apply killset_none].
      unfold killset. destruct (existsb _ ks) eqn:X; [|reflexivity].
      exfalso. apply existsb_key, Hmatch in X. destruct X as [_ X].
      assert (HkB : In (e_key e) (present_keys B)) by (apply in_present_keys; eauto).
      apply NoDup_app_remove_l in Hnd'.
      exact (nodup_disjoint _ _ _ Hnd' X HkB).
  - rewrite HksPg. apply NoDup_filter.
    apply NoDup_app_remove_l in Hnd'. apply NoDup_app_remove_r in Hnd'. exact Hnd'.
  - intros k Hk. apply Hmatch in Hk. destruct Hk as [_ Hk].
    unfold sl. rewrite present_keys_app. apply in_or_app. right.
    assert (Hsk : skipn c base = Pg ++ B) by (unfold Pg, B; rewrite firstn_skipn; reflexivity).
    rewrite Hsk, present_keys_app. apply in_or_app. left. exact Hk.
Qed.

Lemma npages_bounds (len : nat) :
  batchSize * (npages len - 1) <= len - 1 < batchSize * npages len.
Proof.
  unfold npages, batchSize.
  pose proof (Nat.div_mod_eq (len - 1) 100).
  pose proof (Nat.mod_upper_bound (len - 1) 100 ltac:(lia)).
  lia.
Qed.

Lemma r_scan_ok (c : nat) (p : string) (n : nat) (w : world) :
  faults w = [] ->
  r_scan c p n w = (Ok (store_scan c p n (slots w)), add_log (CScan c p n) w).
Proof. destruct w; simpl; intros ->; reflexivity. Qed.

Lemma r_del_ok (ks : list string) (w : world) :
  faults w = [] ->
  r_del ks w = (Ok (fst (store_del ks (slots w))),
                set_slots (snd (store_del ks (slots w))) (add_log (CDel ks) w)).
Proof.
  destruct w; simpl; intros ->. unfold r_del, backend. simpl.
  destruct (store_del ks slots0); reflexivity.
Qed.

Lemma killset_nil (sl : list (option entry)) : map (killset []) sl = sl.
Proof. rewrite <- (map_id sl) at 2. apply map_ext. reflexivity. Qed.

(** The scan loop from page [i] on, with [n] pages left to visit. *)
Lemma scan_loop_pages (pattern : string) (base : list (option entry)) :
  NoDup (present_keys base) ->
  forall n i d w fuel,
  slots w = map (killp pattern) (firstn (batchSize * i) base) ++ skipn (batchSize * i) base ->
  faults w = [] ->
  (i = 0 \/ batchSize * i < length base) ->
  i + n = npages (length base) ->
  n <= fuel ->
  scan_loop fuel pattern (batchSize * i) d w =
  (Ok (d + Z.of_nat (length (filter (glob pattern)
                               (present_keys (skipn (batchSize * i) base)))))%Z,
   mkWorld (isAvailable w) (redis w) (default_ttl w) (map (killp pattern) base) []
     (log w ++ concat (map (page_cmds pattern base) (map (Nat.mul batchSize) (seq i n))))).
Proof.
  intros Hnd n. induction n as [|m IH]; intros i d w fuel Hsl Hf Hi Hn Hfuel.
  - exfalso. pose proof (npages_bounds (length base)). unfold batchSize in *. lia.
  - destruct fuel as [|f]; [lia|].
    set (c := batchSize * i) in *.
    assert (Hc : c <= length base) by (unfold c, batchSize in *; lia).
    destruct (page_step pattern base c Hnd Hc) as (Hks & Hkill & Hndks & Hsub).
    rewrite <- Hsl in Hks, Hkill, Hsub, Hndks.
    set (ks := page_keys pattern (slots w) c) in *.
    pose proof (npages_bounds (length base)) as Hb.
    assert (Hlen : length (slots w) = length base).
    { rewrite Hsl, length_app, length_map, length_firstn, length_skipn. lia. }
    assert (Hcount : length (filter (glob pattern) (present_keys (skipn c base)))
                     = length ks + length (filter (glob pattern)
                                              (present_keys (skipn (c + batchSize) base)))).
    { rewrite Hks. unfold page_keys.
      rewrite <- (firstn_skipn batchSize (skipn c base)) at 1.
      rewrite present_keys_app, filter_app, length_app, skipn_skipn.
      replace (batchSize + c) with (c + batchSize) by lia. reflexivity. }
    cbn [scan_loop]. unfold bind at 1. rewrite (r_scan_ok _ _ _ _ Hf).
    assert (Hscan : store_scan c pattern batchSize (slots w)
                    = (if Nat.leb (length (slots w)) (c + batchSize) then 0 else c + batchSize, ks))
      by reflexivity.
    rewrite Hscan. cbn [fst snd]. clearbody ks.
    (* the page's delete, if any, leaves [map (killset ks) (slots w)] *)
    set (w1 := add_log (CScan c pattern batchSize) w).
    assert (Hw1 : slots w1 = slots w) by (destruct w; reflexivity).
    assert (Hf1 : faults w1 = []) by (destruct w; simpl in *; exact Hf).
    assert (Hstep : (if Nat.ltb 0 (length ks)
                     then (deleteResult <- r_del ks ;; ret (d + deleteResult)%Z)
                     else ret d) w1
                    = (Ok (d + Z.of_nat (length ks))%Z,
                       set_slots (map (killset ks) (slots w))
                         (if Nat.ltb 0 (length ks) then add_log (CDel ks) w1 else w1))).
    { destruct (Nat.ltb 0 (length ks)) eqn:L.
      - unfold bind. rewrite (r_del_ok _ _ Hf1), Hw1, store_del_spec by assumption.
        reflexivity.
      - assert (Hnil : ks = []) by (destruct ks; [reflexivity | simpl in L; discriminate]).
        rewrite Hnil, killset_nil, Z.add_0_r. unfold ret.
        rewrite <- Hw1. destruct w1; reflexivity. }
    unfold bind at 1. rewrite Hstep. clear Hstep.
    destruct m as [|m'].
    + (* last page: the cursor comes back as 0 *)
      assert (Hlast : Nat.leb (length (slots w)) (c + batchSize) = true).
      { apply Nat.leb_le. unfold c, batchSize in *. lia. }
      rewrite Hlast. change (Nat.eqb 0 0) with true. cbv beta iota.
      unfold ret. f_equal.
      * f_equal. rewrite Hcount. rewrite (@skipn_all2 _ (c + batchSize)) by (unfold c, batchSize in *; lia).
        cbn [present_keys filter length]. rewrite Nat.add_0_r. reflexivity.
      * rewrite Hkill. rewrite (@skipn_all2 _ (c + batchSize)) by (unfold c, batchSize in *; lia).
        rewrite (@firstn_all2 _ (c + batchSize)) by (unfold c, batchSize in *; lia).
        rewrite app_nil_r. cbn [seq map concat]. unfold page_cmds. fold c. rewrite <- Hks.
        unfold w1. destruct w as [av rd tt sl fs lg]; cbn in Hf; subst fs.
        destruct ks; cbn [Nat.ltb Nat.leb length]; unfold set_slots, add_log;
          cbn [isAvailable redis default_ttl slots faults log];
          rewrite ?app_nil_r, <- ?app_assoc; reflexivity.
    + (* more pages: the cursor moves on by [batchSize] *)
      assert (Hmore : Nat.leb (length (slots w)) (c + batchSize) = false).
      { apply Nat.leb_gt. unfold c, batchSize in *. lia. }
      rewrite Hmore.
      assert (Hne : Nat.eqb (c + batchSize) 0 = false) by (apply Nat.eqb_neq; unfold batchSize; lia).
      rewrite Hne. cbv beta iota.
      replace (c + batchSize) with (batchSize * S i) by (unfold c; lia).
      rewrite IH with (fuel := f); clear IH.
      * f_equal.
        -- f_equal. rewrite Hcount.
           replace (c + batchSize) with (batchSize * S i) by (unfold c; lia).
           rewrite Nat2Z.inj_add, Z.add_assoc. reflexivity.
        -- unfold w1. destruct w as [av rd tt sl fs lg]; cbn in Hf; subst fs.
           cbn [seq map concat]. unfold page_cmds. fold c. rewrite <- Hks.
           destruct ks; cbn [Nat.ltb Nat.leb length]; unfold set_slots, add_log;
             cbn [isAvailable redis default_ttl slots faults log];
             rewrite <- !app_assoc; reflexivity.
      * unfold set_slots. cbn [slots]. rewrite Hkill.
        replace (c + batchSize) with (batchSize * S i) by (unfold c; lia). reflexivity.
      * unfold set_slots. cbn [faults].
        destruct (Nat.ltb 0 (length ks)); [unfold add_log; cbn [faults] |]; exact Hf1.
      * right. unfold c, batchSize in *. lia.
      * lia.
      * lia.
Qed.

(** ** C4: pattern invalidation *)

(** C4 (as amended).  On a healthy service whose backend answers every
    call, [invalidateCachePattern(pattern)] scans the table page by page
    from cursor ['0'] until the cursor comes back to ['0'], sends one
    SCAN per page and one batched DEL per page that returned matching
    keys (none for a page without any), removes exactly the keys that
    match (every other entry stays as it was, value and TTL included,
    however many pages the matches span) and resolves to
    [{deleted: N, pattern, success: true}] with [N] the number of
    matching keys. *)
Theorem invalidateCachePattern_sweep (pattern : string) (w : world) :
  isHealthy w = true ->
  faults w = [] ->
  NoDup (present_keys (slots w)) ->
  invalidateCachePattern pattern w =
  (Ok (mkSummary (Z.of_nat (length (filter (glob pattern) (present_keys (slots w)))))
                 (Some pattern) None (Some true)),
   mkWorld (isAvailable w) (redis w) (default_ttl w)
     (map (killp pattern) (slots w)) []
     (log w ++ concat (map (page_cmds pattern (slots w)) (page_starts (length (slots w)))))).
Proof.
  intros Hh Hf Hnd. unfold invalidateCachePattern. rewrite Hh. cbv beta iota. cbn [negb].
  unfold try_catch, bind at 1.
  change (scan_loop ?f pattern 0 0%Z w) with (scan_loop f pattern (batchSize * 0) 0%Z w).
  rewrite (scan_loop_pages pattern (slots w) Hnd (npages (length (slots w))) 0 0%Z w).
  - unfold ret. rewrite Z.add_0_l. reflexivity.
  - reflexivity.
  - exact Hf.
  - left. reflexivity.
  - reflexivity.
  - pose proof (npages_bounds (length (slots w))). unfold npages, batchSize in *. lia.
Qed.

(** ** C3: the service-wide outage state *)

Lemma run_op_unavailable (o : op) (w : world) :
  isAvailable w = false -> run_op o w = (Ok (short_circuit_reply o), w).
Proof.
  intros H.
  destruct o; unfold run_op, get, set, del, exists_, invalidateCachePattern,
    when_healthy, isHealthy, bind, ret; rewrite H; reflexivity.
Qed.

Lemma run_ops_unavailable (os : list op) (w : world) :
  isAvailable w = false -> run_ops os w = (Ok (map short_circuit_reply os), w).
Proof.
  intros H. induction os as [|o os IH]; [reflexivity|].
  cbn [run_ops]. unfold bind at 1. rewrite run_op_unavailable by exact H.
  unfold bind at 1. rewrite IH. reflexivity.
Qed.

Lemma disc_ret {A} (a : A) : disciplined (ret a).
Proof. intros w r w1 H. inversion H; subst. left. exists 0. reflexivity. Qed.

Lemma disc_throw {A} (e : exn) : disciplined (@throw world A e).
Proof. intros w r w1 H. inversion H; subst. left. exists 0. reflexivity. Qed.

Lemma disc_read {A} (f : world -> A) : disciplined (fun w => (Ok (f w), w)).
Proof. intros w r w1 H. inversion H; subst. left. exists 0. reflexivity. Qed.

Lemma disc_backend {A} (c : command) (eff : list (option entry) -> A * list (option entry)) :
  disciplined (backend c eff).
Proof.
  intros w r w1. unfold backend.
  destruct (faults w) as [|[code|] rest] eqn:Hf.
  - destruct (eff (slots w)) as [a sl']. intros H; inversion H; subst.
    left. exists 0. rewrite Hf. reflexivity.
  - intros H; inversion H; subst. right. exists code. split; [|reflexivity].
    exists 0. rewrite Hf. reflexivity.
  - destruct (eff (slots w)) as [a sl']. intros H; inversion H; subst.
    left. exists 1. rewrite Hf. reflexivity.
Qed.

Lemma disc_bind {A B} (m : M world A) (k : A -> M world B) :
  disciplined m -> (forall a, disciplined (k a)) -> disciplined (bind m k).
Proof.
  intros Hm Hk w r w1. unfold bind.
  destruct (m w) as [[a|e] w0] eqn:H0.
  - intros H1. destruct (Hm w _ w0 H0) as [[n Hn] | [c [_ Hc]]]; [|discriminate].
    destruct (Hk a w0 r w1 H1) as [[n' Hn'] | [c [[n' Hn'] Hr]]].
    + left. exists (n + n'). rewrite Hn, Hn', repeat_app, app_assoc. reflexivity.
    + right. exists c. split; [|exact Hr].
      exists (n + n'). rewrite Hn, Hn', repeat_app, app_assoc. reflexivity.
  - intros H1. inversion H1; subst.
    destruct (Hm w _ w1 H0) as [Hc | [c [Hc He]]]; [left; exact Hc|].
    right. exists c. split; [exact Hc|]. congruence.
Qed.

Lemma clean_set_available (w w1 : world) (b : bool) :
  run_clean w w1 -> run_clean w (set_available b w1).
Proof. intros [n Hn]. exists n. exact Hn. Qed.

Lemma hit_set_available (c : string) (w w1 : world) (b : bool) :
  run_hit c w w1 -> run_hit c w (set_available b w1).
Proof. intros [n Hn]. exists n. exact Hn. Qed.

(** A handler of the shape [_handleError(error); return x]. *)
Lemma handle_then_ret {A} (e : exn) (x : A) (w : world) :
  (_handleError e ;;; ret x) w =
  if is_connection_error e then (Exn cache_unavailable, set_available false w) else (Ok x, w).
Proof. unfold _handleError, bind, ret. destruct (is_connection_error e); reflexivity. Qed.

Lemma handle_direct (e : exn) (w : world) :
  _handleError e w =
  if is_connection_error e then (Exn cache_unavailable, set_available false w) else (Ok JNull, w).
Proof. unfold _handleError, ret. destruct (is_connection_error e); reflexivity. Qed.

Lemma op_disc_try {A} (body : M world A) (h : exn -> M world A) :
  disciplined body ->
  (forall e w, h e w =
     if is_connection_error e then (Exn cache_unavailable, set_available false w)
     else (fst (h e w), w)) ->
  op_disciplined (try_catch body h).
Proof.
  intros Hb Hh w r w1. unfold try_catch.
  destruct (body w) as [[a|e] w0] eqn:H0.
  - intros H1; inversion H1; subst.
    destruct (Hb w _ w1 H0) as [Hc | [c [_ He]]]; [left; exact Hc | discriminate].
  - intros H1. rewrite Hh in H1. destruct (Hb w _ w0 H0) as [Hc | [c [Hc He]]].
    + destruct (is_connection_error e); inversion H1; subst; left;
        [apply clean_set_available|]; exact Hc.
    + injection He as He. subst e. right. exists c.
      destruct (is_connection_error (backend_error c)) eqn:Hce; inversion H1; subst.
      * split; [apply hit_set_available; exact Hc|]. intros _. split; reflexivity.
      * split; [exact Hc|]. discriminate.
Qed.

Lemma op_disc_guard {A} (d : A) (m : M world A) :
  op_disciplined m -> op_disciplined (when_healthy d m).
Proof.
  intros Hm w r w1. unfold when_healthy. destruct (isHealthy w).
  - apply Hm.
  - intros H; inversion H; subst. left. exists 0. reflexivity.
Qed.

Lemma op_disc_map {A B} (m : M world A) (f : A -> B) :
  op_disciplined m -> op_disciplined (x <- m ;; ret (f x)).
Proof.
  intros Hm w r w1. unfold bind, ret.
  destruct (m w) as [[a|e] w0] eqn:H0; intros H; inversion H; subst;
    destruct (Hm w _ w1 H0) as [Hc | [c [Hc Hr]]]; auto;
    right; exists c; split; auto; intros Hce; destruct (Hr Hce) as [Hx Ha];
    [discriminate | split; congruence].
Qed.

Ltac disc :=
  repeat first
    [ apply disc_bind; intros
    | apply disc_ret | apply disc_throw | apply disc_read | apply disc_backend
    | match goal with
      | |- disciplined (match ?x with _ => _ end) => destruct x
      | |- disciplined (if ?x then _ else _) => destruct x
      end ].

Lemma scan_loop_disc (fuel : nat) (pattern : string) (cursor : nat) (dc : Z) :
  disciplined (scan_loop fuel pattern cursor dc).
Proof.
  revert cursor dc. induction fuel as [|f IH]; intros cursor dc; cbn [scan_loop].
  - apply disc_throw.
  - unfold r_scan, r_del. disc; apply IH.
Qed.

Lemma run_op_disc (o : op) : op_disciplined (run_op o).
Proof.
  destruct o as [k | k v ttl | k | k | p]; unfold run_op; apply op_disc_map.
  - apply op_disc_guard, op_disc_try.
    + unfold r_get. disc.
    + intros e w. rewrite handle_direct. destruct (is_connection_error e); reflexivity.
  - apply op_disc_guard, op_disc_try.
    + unfold r_setEx. disc.
    + intros e w. rewrite handle_then_ret. destruct (is_connection_error e); reflexivity.
  - apply op_disc_guard, op_disc_try.
    + unfold r_del. disc.
    + intros e w. rewrite handle_then_ret. destruct (is_connection_error e); reflexivity.
  - apply op_disc_guard, op_disc_try.
    + unfold r_exists. disc.
    + intros e w. rewrite handle_then_ret. destruct (is_connection_error e); reflexivity.
  - intros w r w1. unfold invalidateCachePattern.
    destruct (negb (isHealthy w)).
    + intros H; inversion H; subst. left. exists 0. reflexivity.
    + apply op_disc_try.
      * apply disc_bind; [apply scan_loop_disc | intros; apply disc_ret].
      * intros e w'. rewrite handle_then_ret. destruct (is_connection_error e); reflexivity.
Qed.

Lemma in_repeat_none (c : string) (n : nat) : ~ In (Some c) (repeat None n).
Proof. intros H. apply repeat_spec in H. discriminate. Qed.

(** C3. When a backend call of a healthy service fails with a
    connection failure ([ECONNREFUSED] or [ENOTFOUND]), whichever call of
    the operation it is (the one [GET] of a [get], or a later [SCAN] or
    [DEL] of a sweep), the operation rejects with
    [CacheUnavailableError] and clears [isAvailable]; from then on every
    [get], [set], [del], [exists] and [invalidateCachePattern] answers
    from its health guard, sends nothing to the backend (the world,
    command log included, is left as it is) and [isAvailable] stays
    [false]: no later call turns the service healthy again.  [used] is
    the list of fault slots the operation consumed. *)
Theorem connection_failure_is_sticky (o : op) (os : list op) (w : world) (r : res reply)
  (w1 : world) (used : list (option string)) (c : string) :
  isHealthy w = true ->
  run_op o w = (r, w1) ->
  faults w = used ++ faults w1 ->
  In (Some c) used ->
  is_connection_error (backend_error c) = true ->
  r = Exn cache_unavailable /\
  isAvailable w1 = false /\
  run_ops os w1 = (Ok (map short_circuit_reply os), w1).
Proof.
  intros _ Hr Hu Hin Hc.
  destruct (run_op_disc o w r w1 Hr) as [[n Hn] | [c' [[n Hn] Hx]]].
  - rewrite Hn in Hu. apply app_inv_tail in Hu. subst used.
    exfalso. exact (in_repeat_none c n Hin).
  - rewrite Hn, (app_assoc _ [Some c'] _ : repeat None n ++ Some c' :: faults w1 = (repeat None n ++ [Some c']) ++ faults w1) in Hu.
    apply app_inv_tail in Hu. subst used.
    apply in_app_or in Hin as [Hin | [Hin | []]].
    + exfalso. exact (in_repeat_none c n Hin).
    + injection Hin as ->. destruct (Hx Hc) as [He Ha].
      split; [exact He|]. split; [exact Ha|]. apply run_ops_unavailable. exact Ha.
Qed.

Lemma connection_failure_is_sticky_witness :
  let w1 := mkWorld false true 1800%Z (slots w_sweep) []
              [CScan 0 "user:1:tasks:*" 100; CDel ["user:1:tasks:a"; "user:1:tasks:b"]] in
  let os := [OSet "user:1:tasks:a" (JNum 1) None; OGet "user:1:tasks:a"; OInvalidate "user:*"] in
  isHealthy w_del_refused = true /\
  run_op (OInvalidate "user:1:tasks:*") w_del_refused = (Exn cache_unavailable, w1) /\
  faults w_del_refused = [None; Some "ECONNREFUSED"] ++ faults w1 /\
  In (Some "ECONNREFUSED") [None; Some "ECONNREFUSED"] /\
  is_connection_error (backend_error "ECONNREFUSED") = true /\
  (@Exn reply cache_unavailable = Exn cache_unavailable /\
   isAvailable w1 = false /\
   run_ops os w1 = (Ok (map short_circuit_reply os), w1)).
Proof.
  intros w1 os.
  assert (Hr : run_op (OInvalidate "user:1:tasks:*") w_del_refused = (Exn cache_unavailable, w1)).
  { vm_compute. reflexivity. }
  assert (Hin : In (Some "ECONNREFUSED") [None; Some "ECONNREFUSED"]).
  { right. left. reflexivity. }
  split; [reflexivity|]. split; [exact Hr|]. split; [reflexivity|].
  split; [exact Hin|]. split; [reflexivity|].
  exact (connection_failure_is_sticky (OInvalidate "user:1:tasks:*") os w_del_refused
           (Exn cache_unavailable) w1 [None; Some "ECONNREFUSED"] "ECONNREFUSED"
           eq_refl Hr eq_refl Hin eq_refl).
Defined.

(** C3, counterexample: after one refused connection the backend is
    back (no further faults), yet a [set] followed by a [get] of the same
    key both answer from the health guard (false, then null), neither is
    sent to the backend, and the service is still unavailable. *)
Lemma connection_failure_no_recovery :
  let '(r0, w1) := run_op (OGet "k") w_refused in
  r0 = Exn cache_unavailable /\
  faults w1 = [] /\
  run_ops [OSet "k" (JNum 1) None; OGet "k"] w1 = (Ok [RBool false; RVal JNull], w1) /\
  isAvailable w1 = false /\
  log w1 = [CGet "k"].
Proof.
  vm_compute. repeat split; reflexivity.
Qed.

(** ** C4: pattern invalidation *)

Lemma invalidateCachePattern_sweep_witness :
  isHealthy w_sweep = true /\
  faults w_sweep = [] /\
  NoDup (present_keys (slots w_sweep)) /\
  invalidateCachePattern "user:1:tasks:*" w_sweep =
  (Ok (mkSummary (Z.of_nat (length (filter (glob "user:1:tasks:*") (present_keys (slots w_sweep)))))
                 (Some "user:1:tasks:*") None (Some true)),
   mkWorld (isAvailable w_sweep) (redis w_sweep) (default_ttl w_sweep)
     (map (killp "user:1:tasks:*") (slots w_sweep)) []
     (log w_sweep ++ concat (map (page_cmds "user:1:tasks:*" (slots w_sweep))
                                  (page_starts (length (slots w_sweep)))))).
Proof.
  assert (Hnd : NoDup (present_keys (slots w_sweep))).
  { vm_compute. repeat constructor; cbn; intuition discriminate. }
  split; [reflexivity|]. split; [reflexivity|]. split; [exact Hnd|].
  exact (invalidateCachePattern_sweep "user:1:tasks:*" w_sweep eq_refl eq_refl Hnd).
Defined.

(** C4, counterexample: the sweep takes two SCAN pages but sends a
    single DEL, for the page that has a match; the first page, with no
    match, gets no DEL. *)
Lemma invalidateCachePattern_skips_empty_pages :
  invalidateCachePattern "user:1:tasks:*" w_two_pages =
  (Ok (mkSummary 1 (Some "user:1:tasks:*") None (Some true)),
   mkWorld true true 1800%Z (repeat None 101) []
     [CScan 0 "user:1:tasks:*" 100; CScan 100 "user:1:tasks:*" 100;
      CDel ["user:1:tasks:a"]]).
Proof.
  vm_compute. reflexivity.
Qed.

(** ** C5: [set] *)

Lemma set_unfold (key : string) (value : jval) (ttl : option Z) :
  set key value ttl =
  when_healthy false (try_catch (set_body key value ttl) (fun error => _handleError error ;;; ret false)).
Proof. reflexivity. Qed.

Lemma set_body_exn (key : string) (value : jval) (ttl : option Z) (w : world) (e : exn) (w0 : world) :
  set_body key value ttl w = (Exn e, w0) ->
  e = type_error \/ exists c rest, faults w = Some c :: rest /\ e = backend_error c.
Proof.
  destruct w as [av rd dt sl fs lg]. unfold set_body.
  assert (Hsv : forall s, (r_setEx key (match ttl with
                             | Some t => if Z.eqb t 0 then dt else t
                             | None => dt
                             end) s ;;; ret true) (mkWorld av rd dt sl fs lg) = (Exn e, w0) ->
          exists c rest, fs = Some c :: rest /\ e = backend_error c).
  { intros s. unfold r_setEx, backend, bind, ret. cbn [faults slots].
    destruct fs as [|[c|] rest]; cbn; intros H; try discriminate.
    inversion H; eauto. }
  destruct value as [| |b|n|str|xs|kvs]; unfold bind at 1, throw, ret at 1;
    try (left; cbn in *; congruence);
    cbn [stringify]; try destruct b; intros H; right; apply (Hsv _ H).
Qed.


Lemma handler_false_exn (e : exn) (w : world) (e' : exn) (w' : world) :
  (_handleError e ;;; ret false) w = (Exn e', w') ->
  is_connection_error e = true /\ e' = cache_unavailable /\ w' = set_available false w.
Proof.
  unfold _handleError, bind, ret.
  destruct (is_connection_error e); intros H; inversion H; auto.
Qed.

Lemma handler_false_ok (e : exn) (w : world) :
  is_connection_error e = false -> (_handleError e ;;; ret false) w = (Ok false, w).
Proof.
  intros H. unfold _handleError, bind, ret. rewrite H. reflexivity.
Qed.


(** C5. [set(key, value, ttl)] on an unhealthy service resolves to
    [false] and touches nothing; a backend failure that is not a
    connection failure is caught and resolves to [false]; [undefined],
    which the client refuses before sending, resolves to [false] and
    leaves the world as it is; but when the backend call fails with
    [ECONNREFUSED] or [ENOTFOUND], [set] rejects with
    [CacheUnavailableError] and leaves the service unavailable, and that
    is the only way it rejects. *)
Theorem set_error_handling (key : string) (value : jval) (ttl : option Z) (w : world) :
  (isHealthy w = false -> set key value ttl w = (Ok false, w)) /\
  (forall c rest, isHealthy w = true -> faults w = Some c :: rest ->
     is_connection_error (backend_error c) = false ->
     fst (set key value ttl w) = Ok false) /\
  (isHealthy w = true -> value = JUndef -> set key value ttl w = (Ok false, w)) /\
  (forall c rest, isHealthy w = true -> faults w = Some c :: rest ->
     is_connection_error (backend_error c) = true -> value <> JUndef ->
     exists w', set key value ttl w = (Exn cache_unavailable, w') /\ isAvailable w' = false) /\
  (forall e w', set key value ttl w = (Exn e, w') ->
     e = cache_unavailable /\ isAvailable w' = false /\
     exists c rest, faults w = Some c :: rest /\ is_connection_error (backend_error c) = true).
Proof.
  rewrite set_unfold. unfold when_healthy, try_catch.
  split; [intros H; rewrite H; reflexivity|].
  split.
  - intros c rest Hh Hf Hc. rewrite Hh.
    destruct (set_body key value ttl w) as [[b|e0] w0] eqn:Hb; [|].
    + exfalso. revert Hb. destruct w as [av rd dt sl fs lg]. cbn in Hf. subst fs.
      unfold set_body, r_setEx, backend, bind, ret, throw. cbn [faults slots].
      destruct value as [| |[|]|n|str|xs|kvs]; cbn; discriminate.
    + destruct (set_body_exn key value ttl w e0 w0 Hb) as [He | [c' [rest' [Hf' He]]]].
      * rewrite handler_false_ok by (subst e0; reflexivity). reflexivity.
      * rewrite Hf in Hf'. inversion Hf'. subst.
        rewrite handler_false_ok by exact Hc. reflexivity.
  - split.
    { intros Hh Hv. subst value. rewrite Hh. reflexivity. }
    split.
    { intros c rest Hh Hf Hc Hv. rewrite Hh.
      destruct w as [av rd dt sl fs lg]. cbn in Hf. subst fs.
      unfold set_body, r_setEx, backend, bind, ret, throw.
      destruct value as [| |[|]|n|str|xs|kvs]; [exfalso; apply Hv; reflexivity| ..];
        cbn [faults slots stringify]; unfold _handleError; rewrite Hc;
        eexists; split; reflexivity. }
    intros e w'. destruct (isHealthy w); [|discriminate].
    destruct (set_body key value ttl w) as [[b|e0] w0] eqn:Hb; [discriminate|].
    intros H. destruct (handler_false_exn e0 w0 e w' H) as [Hc [He Hw]].
    subst e w'. split; [reflexivity|]. split; [reflexivity|].
    destruct (set_body_exn key value ttl w e0 w0 Hb) as [He | [c [rest [Hf He]]]].
    + subst e0. discriminate Hc.
    + subst e0. exists c, rest. split; assumption.
Qed.

Lemma set_error_handling_witness :
  isHealthy w_refused_set = true /\
  faults w_refused_set = [Some "ECONNREFUSED"] /\
  is_connection_error (backend_error "ECONNREFUSED") = true /\
  JNum 5 <> JUndef /\
  exists w', set "user:1:stats" (JNum 5) None w_refused_set = (Exn cache_unavailable, w') /\
             isAvailable w' = false.
Proof.
  assert (Hv : JNum 5 <> JUndef) by discriminate.
  split; [reflexivity|]. split; [reflexivity|]. split; [reflexivity|].
  split; [exact Hv|].
  exact (proj1 (proj2 (proj2 (proj2 (set_error_handling "user:1:stats" (JNum 5) None w_refused_set))))
           "ECONNREFUSED" [] eq_refl eq_refl eq_refl Hv).
Defined.

(** C5, counterexample: with the connection refused, [set] rejects with
    [CacheUnavailableError] instead of resolving to [false]. *)
Lemma set_rejects_on_refused :
  fst (set "user:1:stats" (JNum 5) None w_refused_set) = Exn cache_unavailable.
Proof. vm_compute. reflexivity. Qed.

(** ** C8: [set] then [get] *)

Lemma lookup_store_put_replace (e : entry) (sl : list (option entry)) :
  existsb (slot_has (e_key e)) sl = true ->
  lookup (e_key e) (map (fun o => if slot_has (e_key e) o then Some e else o) sl) = Some (e_val e).
Proof.
  induction sl as [|[e'|] sl IH]; cbn; [discriminate| |exact IH].
  destruct (String.eqb (e_key e') (e_key e)) eqn:He; cbn.
  - rewrite String.eqb_refl. reflexivity.
  - try rewrite He. exact IH.
Qed.

Lemma lookup_put_free (e : entry) (sl : list (option entry)) :
  existsb (slot_has (e_key e)) sl = false ->
  lookup (e_key e) (put_free e sl) = Some (e_val e).
Proof.
  induction sl as [|[e'|] sl IH]; cbn.
  - rewrite String.eqb_refl. reflexivity.
  - destruct (String.eqb (e_key e') (e_key e)) eqn:He; cbn; [discriminate|].
    try rewrite He. exact IH.
  - intros _. rewrite String.eqb_refl. reflexivity.
Qed.

Lemma lookup_store_put (e : entry) (sl : list (option entry)) :
  lookup (e_key e) (store_put e sl) = Some (e_val e).
Proof.
  unfold store_put. destruct (existsb (slot_has (e_key e)) sl) eqn:H.
  - apply lookup_store_put_replace. exact H.
  - apply lookup_put_free. exact H.
Qed.

(** C8. On a healthy service whose backend answers every call, [set]
    of a value followed by [get] of the same key resolves to what
    [JSON.parse] makes of the stored text (or to [null] when the text is
    empty or does not parse): the value itself when it is not a string,
    since the text is then its [JSON.stringify], but the string is stored
    raw, not encoded. *)
Theorem set_then_get (k : string) (v : jval) (ttl : option Z) (w : world) (s : string) :
  isHealthy w = true -> faults w = [] -> stored_text v = Some s ->
  exists w1 w2,
    set k v ttl w = (Ok true, w1) /\
    get k w1 = (Ok (if truthy (JStr s)
                    then match parse s with Some x => x | None => JNull end
                    else JNull), w2).
Proof.
  intros Hh Hf Hs. destruct w as [av rd dt sl fs lg]. cbn in Hf. subst fs.
  set (t := match ttl with Some t => if Z.eqb t 0 then dt else t | None => dt end).
  set (w1 := mkWorld av rd dt (store_put (mkEntry k t s) sl) [] (lg ++ [CSetEx k t s])).
  assert (Hset : set k v ttl (mkWorld av rd dt sl [] lg) = (Ok true, w1)).
  { rewrite set_unfold. unfold when_healthy. rewrite Hh. unfold try_catch.
    replace (set_body k v ttl (mkWorld av rd dt sl [] lg)) with
      (@Ok bool true, w1); [reflexivity|].
    unfold set_body, stored_text in *.
    destruct v as [| |b|n|str|xs|kvs]; cbn in Hs; try discriminate;
      try (destruct b); try (injection Hs as <-); reflexivity. }
  exists w1. eexists. split; [exact Hset|].
  unfold get, when_healthy. replace (isHealthy w1) with true by (symmetry; exact Hh).
  unfold try_catch, bind at 1, r_get, backend. unfold w1. cbn [faults slots].
  change (lookup k (store_put (mkEntry k t s) sl))
    with (lookup (e_key (mkEntry k t s)) (store_put (mkEntry k t s) sl)).
  rewrite lookup_store_put. cbn [e_val].
  destruct (truthy (JStr s)); [|reflexivity].
  destruct (parse s); [reflexivity|].
  unfold throw, _handleError, bind, ret. cbn. reflexivity.
Qed.

Lemma set_then_get_witness :
  isHealthy w_fresh = true /\ faults w_fresh = [] /\
  stored_text (JArr [JNum 1; JNum 2]) = Some "[1,2]" /\
  exists w1 w2,
    set "k" (JArr [JNum 1; JNum 2]) None w_fresh = (Ok true, w1) /\
    get "k" w1 = (Ok (if truthy (JStr "[1,2]")
                      then match parse "[1,2]" with Some x => x | None => JNull end
                      else JNull), w2).
Proof.
  split; [reflexivity|]. split; [reflexivity|]. split; [reflexivity|].
  apply (set_then_get "k" (JArr [JNum 1; JNum 2]) None w_fresh "[1,2]");
    reflexivity.
Defined.

(** C8, counterexample: [set('k', 'hello')] then [get('k')] resolves to
    [null] (the raw text is no JSON, the [SyntaxError] is swallowed),
    and [set('k', '123')] then [get('k')] resolves to the number 123. *)
Lemma set_then_get_string :
  fst (bind (set "k" (JStr "hello") None) (fun _ => get "k") w_fresh) = Ok JNull /\
  fst (bind (set "k" (JStr "123") None) (fun _ => get "k") w_fresh) = Ok (JNum 123).
Proof. vm_compute. split; reflexivity. Qed.

End CacheSvcFacts.

Module RepoFacts.
Import Dal TaskRepository.
Local Open Scope list_scope.

Lemma getCached_read (key : string) (w : rworld) :
  getCached key w =
  (Ok (read_cached key (cache w)),
   mkRWorld (cache w) (tasks w) (categories w) (next_id w) (trace w ++ [CacheGet key])).
Proof.
  unfold getCached, read_cached, emit, gets, bind, ret. cbn [cache].
  destruct (cache_find key (cache w)) as [txt|]; [|reflexivity].
  destruct (truthy (JStr txt)); [|reflexivity].
  destruct (parse txt); reflexivity.
Qed.

(** ** C10: [deleteTask] *)

(** C10. [deleteTask(taskId, userId)] sends its [DELETE].  A [taskId]
    PostgreSQL refuses as an [integer] parameter makes it reject with
    that error, the cache and the tables unchanged.  For a [taskId] it
    accepts, when no row of [tasks] has that [id] and [user_id], it
    resolves to [false] with the cache and the tables unchanged and
    nothing else sent; only when a row was deleted does it delete the
    list, stats and task keys, in that order, and resolve to [true]. *)
Theorem deleteTask_invalidates_only_after_delete (taskId userId : Z) (w : rworld) :
  let hit := fun t => Z.eqb (t_id t) taskId && Z.eqb (t_user t) userId in
  let lk := generateCacheKey "user_tasks" [JNum userId] in
  let sk := generateCacheKey "user_task_stats" [JNum userId] in
  let tk := generateCacheKey "task" [JNum taskId; JNum userId] in
  deleteTask taskId userId w =
  match pg_int_param taskId with
  | Exn e =>
      (Exn e,
       mkRWorld (cache w) (tasks w) (categories w) (next_id w) (trace w ++ [Sql SDeleteTask]))
  | Ok _ =>
  match filter hit (tasks w) with
  | [] =>
      (Ok false,
       mkRWorld (cache w) (tasks w) (categories w) (next_id w) (trace w ++ [Sql SDeleteTask]))
  | _ :: _ =>
      (Ok true,
       mkRWorld (cache_del tk (cache_del sk (cache_del lk (cache w))))
         (filter (fun t => negb (hit t)) (tasks w)) (categories w) (next_id w)
         (trace w ++ [Sql SDeleteTask; CacheDel lk; CacheDel sk; CacheDel tk]))
  end
  end.
Proof.
  cbv zeta. unfold deleteTask, invalidateUserTasksCache, invalidateCache, deleteCached,
    emit, gets, modify, set_cache, set_tasks, bind, ret, throw.
  cbn [cache tasks categories next_id trace].
  destruct (pg_int_param taskId); [|reflexivity].
  cbn [cache tasks categories next_id trace].
  destruct (filter _ (tasks w)); [reflexivity|].
  cbn [cache tasks categories next_id trace].
  rewrite <- !app_assoc. reflexivity.
Qed.

(** C10, counterexample: with no task at all, [deleteTask] of an id
    beyond PostgreSQL's [integer] range rejects instead of resolving to
    [false]: [3000000000] is sent as ['3000000000'] (out of range,
    [22003]) and [1e21] as ['1e+21'] (not an integer literal, [22P02]).
    The route only checks [parseInt(req.params.id) >= 1]. *)
Lemma deleteTask_out_of_range_rejects :
  deleteTask 3000000000 1 w_empty = (Exn out_of_range, mkRWorld [] [] [] 1%Z [Sql SDeleteTask]) /\
  deleteTask (10 ^ 21) 1 w_empty = (Exn invalid_input, mkRWorld [] [] [] 1%Z [Sql SDeleteTask]).
Proof. split; vm_compute; reflexivity. Qed.

(** ** C9: [sort] and [order] checks *)

(** C9. When the [sort] of the filters is outside [created_at],
    [due_date], [priority], [title], or the lower-cased [order] is outside
    [asc], [desc] (or [order] is not a string), [getUserTasks] first
    reads the cache entry of its key, and that read is the only call to a
    store: no statement reaches PostgreSQL and nothing is written.  A
    truthy cached value is returned, marked [fromCache: true], with no
    error; only on a miss does the call reject. *)
Theorem getUserTasks_invalid_sort_order (userId : Z) (fs : list (string * jval)) (w : rworld) :
  let filters := JObj fs in
  let sort := default_to (get_prop "sort" filters) (JStr "created_at") in
  let order := default_to (get_prop "order" filters) (JStr "desc") in
  let key := list_key userId filters in
  let cached := read_cached key (cache w) in
  sort_ok sort && order_ok order = false ->
  exists r,
    getUserTasks userId filters w =
      (r, mkRWorld (cache w) (tasks w) (categories w) (next_id w) (trace w ++ [CacheGet key])) /\
    (truthy cached = true -> r = Ok (with_prop "fromCache" (JBool true) cached)) /\
    (truthy cached = false -> exists e, r = Exn e).
Proof.
  intros filters sort order key cached H.
  subst filters sort order key cached. unfold list_key.
  cbv delta [getUserTasks] beta zeta iota.
  cbn [default_to].
  unfold bind at 1. rewrite getCached_read. cbv beta iota.
  destruct (truthy (read_cached _ (cache w))) eqn:Ht.
  - eexists. split; [reflexivity|]. split; [intros _; reflexivity|discriminate].
  - unfold sort_ok in H.
    destruct (includes allowedSortFields _) eqn:Hs; cbn [negb andb] in H |- *.
    + destruct (default_to (get_prop "order" (JObj fs)) (JStr "desc")) as [| | | |o| |] eqn:Ho;
        unfold throw;
        try (eexists; split; [reflexivity|]; split; [discriminate|eexists; reflexivity]).
      cbn [order_ok] in H. rewrite H. cbn [negb].
      eexists; split; [reflexivity|]; split; [discriminate|eexists; reflexivity].
    + unfold throw. eexists; split; [reflexivity|]; split; [discriminate|eexists; reflexivity].
Qed.

Lemma getUserTasks_invalid_sort_order_witness :
  sort_ok (default_to (get_prop "sort" (JObj [("sort", JStr "bogus")])) (JStr "created_at"))
    && order_ok (default_to (get_prop "order" (JObj [("sort", JStr "bogus")])) (JStr "desc"))
    = false /\
  exists r,
    getUserTasks 1 (JObj [("sort", JStr "bogus")]) w_empty =
      (r, mkRWorld (cache w_empty) (tasks w_empty) (categories w_empty) (next_id w_empty)
            (trace w_empty ++ [CacheGet (list_key 1 (JObj [("sort", JStr "bogus")]))])) /\
    (truthy (read_cached (list_key 1 (JObj [("sort", JStr "bogus")])) (cache w_empty)) = true ->
       r = Ok (with_prop "fromCache" (JBool true)
                 (read_cached (list_key 1 (JObj [("sort", JStr "bogus")])) (cache w_empty)))) /\
    (truthy (read_cached (list_key 1 (JObj [("sort", JStr "bogus")])) (cache w_empty)) = false ->
       exists e, r = Exn e).
Proof.
  split; [vm_compute; reflexivity|].
  apply (getUserTasks_invalid_sort_order 1 [("sort", JStr "bogus")] w_empty).
  vm_compute. reflexivity.
Defined.

(** C9, counterexample: [order: 'ASC'] is outside [asc], [desc], yet the
    call queries PostgreSQL and resolves; and with [sort: 'bogus'] and a
    cached entry the call resolves to the cached value. *)
Lemma getUserTasks_sort_order_not_rejected :
  getUserTasks 1 (JObj [("order", JStr "ASC")]) w_empty =
    (Ok (JObj [("tasks", JArr []);
               ("pagination", JObj [("total", JNum 0); ("limit", JNum 50);
                                    ("offset", JNum 0); ("hasMore", JBool false)]);
               ("fromCache", JBool false)]),
     mkRWorld [(list_key 1 (JObj [("order", JStr "ASC")]), json_text empty_page)]
       [] [] 1%Z
       [CacheGet (list_key 1 (JObj [("order", JStr "ASC")])); Sql SSelectTasks; Sql SCountTasks;
        CacheSet (list_key 1 (JObj [("order", JStr "ASC")])) (json_text empty_page)]) /\
  fst (getUserTasks 1 (JObj [("sort", JStr "bogus")]) w_cached_bogus) =
    Ok (JObj [("tasks", JArr []); ("fromCache", JBool true)]).
Proof. vm_compute. split; reflexivity. Qed.

(** ** C7: the category ownership check *)

Lemma getTaskById_frame (taskId userId : Z) (w : rworld) :
  exists r w1 xs,
    getTaskById taskId userId w = (r, w1) /\
    (int4_ok taskId = true -> exists v, r = Ok v) /\
    tasks w1 = tasks w /\
    categories w1 = categories w /\
    trace w1 = trace w ++ xs /\
    ~ In (Sql SUpdateTask) xs.
Proof.
  unfold getTaskById. unfold bind at 1. rewrite getCached_read. cbv beta iota.
  destruct (truthy _).
  - do 3 eexists. split; [reflexivity|]. split; [eexists; reflexivity|].
    split; [reflexivity|]. split; [reflexivity|].
    split; [reflexivity|]. cbn. intuition discriminate.
  - unfold emit, gets, bind, ret, throw, setCached, modify, set_cache.
    cbn [cache tasks categories next_id trace fst snd].
    unfold pg_int_param. destruct (int4_ok taskId) eqn:Hr.
    2: { destruct (_ <=? _)%Z; (cbn [cache tasks categories next_id trace fst snd];
         do 3 eexists; split; [reflexivity|]; split; [discriminate|];
         split; [reflexivity|]; split; [reflexivity|];
         split; [cbn [trace]; rewrite <- app_assoc; reflexivity|]; cbn; intuition discriminate). }
    cbn [cache tasks categories next_id trace fst snd].
    destruct (filter _ (tasks w)) as [|t r].
    + do 3 eexists. split; [reflexivity|]. split; [eexists; reflexivity|].
      split; [reflexivity|]. split; [reflexivity|].
      split; [cbn [trace]; rewrite <- app_assoc; reflexivity|]. cbn. intuition discriminate.
    + destruct (stringify _) as [txt|]; cbn [cache tasks categories next_id trace fst snd].
      * do 3 eexists. split; [reflexivity|]. split; [eexists; reflexivity|].
        split; [reflexivity|]. split; [reflexivity|].
        split; [cbn [trace]; rewrite <- !app_assoc; reflexivity|]. cbn. intuition discriminate.
      * do 3 eexists. split; [reflexivity|]. split; [eexists; reflexivity|].
        split; [reflexivity|]. split; [reflexivity|].
        split; [cbn [trace]; rewrite <- !app_assoc; reflexivity|]. cbn. intuition discriminate.
Qed.

(** C7. A truthy [category_id] that PostgreSQL reads as an [integer]
    [c] ([sql_int] gives [Ok (Some c)], so [c] is in range) naming no
    category of the user makes [createTask] reject with its business
    error [Category not found or access denied], after the one ownership
    [SELECT], before the [INSERT]; and such a [category_id] other than
    [undefined] and [null] makes [updateTask], for a [taskId] PostgreSQL
    accepts, resolve to [null] (no such task) or reject with that error,
    without an [UPDATE] and with the table unchanged. *)
Theorem category_check_before_write (userId taskId : Z) (data : jval) (w : rworld) (c : Z) :
  sql_int (get_prop "category_id" data) = Ok (Some c) ->
  existsb (fun cat => Z.eqb (c_id cat) c && Z.eqb (c_user cat) userId) (categories w) = false ->
  (truthy (get_prop "category_id" data) = true ->
   createTask userId data w =
     (Exn category_error,
      mkRWorld (cache w) (tasks w) (categories w) (next_id w) (trace w ++ [Sql SSelectCategory]))) /\
  (is_nullish (get_prop "category_id" data) = false ->
   int4_ok taskId = true ->
   exists r w' xs,
     updateTask taskId userId data w = (r, w') /\
     (r = Ok JNull \/ r = Exn category_error) /\
     tasks w' = tasks w /\
     trace w' = trace w ++ xs /\
     ~ In (Sql SUpdateTask) xs).
Proof.
  intros Hc Hown. split.
  - intros Ht. unfold createTask. rewrite Ht.
    unfold validateCategoryOwnership. rewrite Hc.
    unfold emit, gets, bind, throw. cbn [categories cache tasks next_id trace].
    rewrite Hown. reflexivity.
  - intros Hn Hid.
    destruct (getTaskById_frame taskId userId w) as [r [w1 [xs [Hg [Hok [Hts [Hcs [Htr Hin]]]]]]]].
    destruct (Hok Hid) as [v ->].
    unfold updateTask. unfold bind at 1. rewrite Hg.
    destruct (truthy v); cbn [negb].
    + rewrite Hn. cbn [negb]. unfold validateCategoryOwnership. rewrite Hc.
      unfold emit, gets, bind, throw. cbn [categories cache tasks next_id trace].
      rewrite Hcs, Hown.
      do 2 eexists. exists (xs ++ [Sql SSelectCategory]). split; [reflexivity|].
      split; [right; reflexivity|]. cbn [tasks trace].
      split; [exact Hts|]. split; [rewrite Htr, app_assoc; reflexivity|].
      rewrite in_app_iff. cbn. intuition discriminate.
    + unfold ret. do 2 eexists. exists xs. split; [reflexivity|].
      split; [left; reflexivity|].
      split; [exact Hts|]. split; [exact Htr|exact Hin].
Qed.

Lemma category_check_before_write_witness :
  sql_int (get_prop "category_id" (JObj [("title", JStr "t"); ("category_id", JNum 7)]))
    = Ok (Some 7%Z) /\
  existsb (fun cat => Z.eqb (c_id cat) 7 && Z.eqb (c_user cat) 1) (categories w_cat) = false /\
  truthy (get_prop "category_id" (JObj [("title", JStr "t"); ("category_id", JNum 7)])) = true /\
  createTask 1 (JObj [("title", JStr "t"); ("category_id", JNum 7)]) w_cat =
    (Exn category_error,
     mkRWorld (cache w_cat) (tasks w_cat) (categories w_cat) (next_id w_cat)
       (trace w_cat ++ [Sql SSelectCategory])).
Proof.
  split; [reflexivity|]. split; [reflexivity|]. split; [reflexivity|].
  apply (category_check_before_write 1 5 (JObj [("title", JStr "t"); ("category_id", JNum 7)])
           w_cat 7); reflexivity.
Defined.

(** C7, counterexample: [createTask(1, {title: 'b', category_id: 0})]
    with no category 0: [0] is falsy, so the ownership check is skipped
    and the [INSERT] is sent; the call rejects only with the foreign key
    violation of PostgreSQL (code [23503]), a generic relational error,
    not the repository's business error.  And a [category_id] of
    ['3000000000'], which the route's [isInt({min: 1})] accepts, makes
    the ownership [SELECT] itself fail with PostgreSQL's out of range
    error ([22003]), again not the business error. *)
Lemma createTask_category_zero_unchecked :
  createTask 1 (JObj [("title", JStr "b"); ("category_id", JNum 0)]) w_empty =
    (Exn fk_violation, mkRWorld [] [] [] 1%Z [Sql SInsertTask]) /\
  fk_violation <> category_error /\
  createTask 1 (JObj [("title", JStr "b"); ("category_id", JStr "3000000000")]) w_empty =
    (Exn out_of_range, mkRWorld [] [] [] 1%Z [Sql SSelectCategory]) /\
  out_of_range <> category_error.
Proof.
  split; [vm_compute; reflexivity|]. split; [discriminate|].
  split; [vm_compute; reflexivity | discriminate].
Qed.

(** ** C6: [executeTransaction] *)

Lemma count_release_app (l1 l2 : list txevent) :
  count_release (l1 ++ l2) = count_release l1 + count_release l2.
Proof.
  induction l1 as [|[] l1 IH]; cbn; rewrite ?IH; reflexivity.
Qed.

(** C6. [executeTransaction(callback)], for a callback that does not
    release the connection itself.  When [pool.connect()] rejects, its
    error propagates, the callback never runs and there is nothing to
    release.  Once a client is handed out, every run, whatever the
    callback and the queries do, releases it exactly once.  When [BEGIN]
    succeeds and the callback resolves to [a], a successful [COMMIT] is
    followed by the release and the call resolves to [a]; a failing
    [COMMIT] is followed by a [ROLLBACK] and the release, and the call
    rejects with [COMMIT]'s error, or with [ROLLBACK]'s if that fails
    too.  When the callback rejects with [e], a successful [ROLLBACK] is
    followed by the release and the call rejects with [e]; a failing
    [ROLLBACK] is followed by the release and the call rejects with
    [ROLLBACK]'s error. *)
Theorem executeTransaction_paths {A} (callback : M txworld A) (w : txworld) :
  (forall s, count_release (tx_log (snd (callback s))) = count_release (tx_log s)) ->
  (forall e, executeTransaction_on (Some e) callback w = (Exn e, w)) /\
  count_release (tx_log (snd (executeTransaction callback w))) = S (count_release (tx_log w)) /\
  (query_ok (tx_outcomes w) = true ->
   let s0 := mkTx (tl (tx_outcomes w)) (tx_log w ++ [TConnect; TQuery "BEGIN"]) in
   (forall a s1, callback s0 = (Ok a, s1) -> query_ok (tx_outcomes s1) = true ->
      executeTransaction callback w =
        (Ok a, mkTx (tl (tx_outcomes s1)) (tx_log s1 ++ [TQuery "COMMIT"; TRelease]))) /\
   (forall a s1 e' r, callback s0 = (Ok a, s1) -> tx_outcomes s1 = Some e' :: r ->
      executeTransaction callback w =
        (Exn (match r with Some e'' :: _ => e'' | _ => e' end),
         mkTx (tl r) (tx_log s1 ++ [TQuery "COMMIT"; TQuery "ROLLBACK"; TRelease]))) /\
   (forall e s1, callback s0 = (Exn e, s1) -> query_ok (tx_outcomes s1) = true ->
      executeTransaction callback w =
        (Exn e, mkTx (tl (tx_outcomes s1)) (tx_log s1 ++ [TQuery "ROLLBACK"; TRelease]))) /\
   (forall e s1 e' r, callback s0 = (Exn e, s1) -> tx_outcomes s1 = Some e' :: r ->
      executeTransaction callback w =
        (Exn e', mkTx r (tx_log s1 ++ [TQuery "ROLLBACK"; TRelease])))).
Proof.
  intros Hcb. split; [intros e; reflexivity|].
  destruct w as [os l].
  unfold executeTransaction, executeTransaction_on, pool_connect, connect, tx_emit,
    release, try_finally, try_catch, client_query, bind, throw, ret.
  cbn [tx_outcomes tx_log].
  split.
  - destruct os as [|[e|] os]; cbn [tl].
    + destruct (callback _) as [[a|e] s1] eqn:H1;
        specialize (Hcb (mkTx [] ((l ++ [TConnect]) ++ [TQuery "BEGIN"]))); rewrite H1 in Hcb;
        cbn [snd tx_log] in Hcb;
        destruct (tx_outcomes s1) as [|[e'|] os'];
        try (destruct os' as [|[e''|] os'']);
        cbn; rewrite ?count_release_app, ?Hcb, ?count_release_app; cbn;
        lia.
    + destruct os as [|[e'|] os']; cbn;
        rewrite ?count_release_app; cbn; lia.
    + destruct (callback _) as [[a|e] s1] eqn:H1;
        specialize (Hcb (mkTx os ((l ++ [TConnect]) ++ [TQuery "BEGIN"]))); rewrite H1 in Hcb;
        cbn [snd tx_log] in Hcb;
        destruct (tx_outcomes s1) as [|[e'|] os'];
        try (destruct os' as [|[e''|] os'']);
        cbn; rewrite ?count_release_app, ?Hcb, ?count_release_app; cbn;
        lia.
  - intros Hq. cbn zeta. rewrite <- app_assoc. cbn [app].
    destruct os as [|[e|] os]; [|discriminate|]; cbn [tl];
      (split; [|split; [|split]];
      [ intros a s1 H1 Hc; rewrite H1; destruct s1 as [os1 l1]; cbn in Hc |- *;
        destruct os1 as [|[e1|] os1]; [| discriminate |]; cbn; rewrite <- app_assoc; reflexivity
      | intros a s1 e' r H1 Hc; rewrite H1; destruct s1 as [os1 l1]; cbn in Hc |- *; subst os1;
        destruct r as [|[e''|] r]; cbn; rewrite <- !app_assoc; reflexivity
      | intros e s1 H1 Hc; rewrite H1; destruct s1 as [os1 l1]; cbn in Hc |- *;
        destruct os1 as [|[e1|] os1]; [| discriminate |]; cbn; rewrite <- app_assoc; reflexivity
      | intros e s1 e' r H1 Hc; rewrite H1; destruct s1 as [os1 l1]; cbn in Hc |- *; subst os1;
        cbn; rewrite <- app_assoc; reflexivity ]).
Qed.

Lemma executeTransaction_paths_witness :
  (forall s, count_release (tx_log (snd (@ret txworld nat 5 s))) = count_release (tx_log s)) /\
  executeTransaction_on (Some lost_connection) (ret 5) (mkTx [] []) =
    (Exn lost_connection, mkTx [] []) /\
  count_release (tx_log (snd (executeTransaction (ret 5) (mkTx [] [])))) =
    S (count_release (tx_log (mkTx [] []))).
Proof.
  assert (H : forall s, count_release (tx_log (snd (@ret txworld nat 5 s))) = count_release (tx_log s))
    by (intros s; reflexivity).
  split; [exact H|].
  destruct (executeTransaction_paths (ret 5) (mkTx [] []) H) as [Hc [Hr _]].
  split; [exact (Hc lost_connection) | exact Hr].
Defined.

(** C6, counterexample: the callback rejects with [body_error], and the
    [ROLLBACK] fails: the call rejects with the [ROLLBACK]'s error, not
    the callback's. *)
Lemma executeTransaction_rollback_error_wins :
  executeTransaction (@throw txworld nat body_error) (mkTx [None; Some lost_connection] []) =
    (Exn lost_connection,
     mkTx [] [TConnect; TQuery "BEGIN"; TQuery "ROLLBACK"; TRelease]).
Proof. vm_compute. reflexivity. Qed.

(** ** C1: what a mutation invalidates *)

Lemma keeps_bind {A B} (k : string) (m : M rworld A) (f : A -> M rworld B) :
  keeps k m -> (forall a, keeps k (f a)) -> keeps k (bind m f).
Proof.
  intros Hm Hf w. unfold bind. specialize (Hm w).
  destruct (m w) as [[a|e] w1]; cbn [snd] in *; [rewrite Hf|]; exact Hm.
Qed.

Lemma keeps_ret {A} (k : string) (a : A) : keeps k (ret a).
Proof. intros w. reflexivity. Qed.

Lemma keeps_throw {A} (k : string) (e : exn) : keeps k (@throw rworld A e).
Proof. intros w. reflexivity. Qed.

Lemma keeps_emit (k : string) (e : event) : keeps k (emit e).
Proof. intros w. reflexivity. Qed.

Lemma keeps_gets {A} (k : string) (f : rworld -> A) : keeps k (gets f).
Proof. intros w. reflexivity. Qed.

Lemma keeps_set_tasks (k : string) (ts : list task) : keeps k (modify (set_tasks ts)).
Proof. intros w. reflexivity. Qed.

Lemma keeps_insert (k : string) (u : Z) (a b c d : jval) (cat : option Z) :
  keeps k (insert_task u a b c d cat).
Proof.
  intros w. unfold insert_task. cbv zeta.
  destruct cat as [c'|]; [destruct (existsb _ (categories w))|]; reflexivity.
Qed.

Lemma cache_find_put_other (k k' v : string) (c : list (string * string)) :
  k' <> k -> cache_find k (cache_put k' v c) = cache_find k c.
Proof.
  intros Hne. induction c as [|[k1 v1] c IH]; cbn.
  - destruct (String.eqb_spec k' k); [contradiction|reflexivity].
  - destruct (String.eqb_spec k1 k') as [->|Hn1]; cbn.
    + destruct (String.eqb_spec k' k); [contradiction|reflexivity].
    + destruct (String.eqb k1 k); [reflexivity|exact IH].
Qed.

Lemma cache_find_del_other (k k' : string) (c : list (string * string)) :
  k' <> k -> cache_find k (cache_del k' c) = cache_find k c.
Proof.
  intros Hne. induction c as [|[k1 v1] c IH]; cbn; [reflexivity|].
  destruct (String.eqb_spec k1 k') as [->|Hn1]; cbn.
  - destruct (String.eqb_spec k' k); [contradiction|exact IH].
  - destruct (String.eqb k1 k); [reflexivity|exact IH].
Qed.

Lemma keeps_getCached (k key : string) : keeps k (getCached key).
Proof.
  intros w. rewrite getCached_read. reflexivity.
Qed.

Lemma keeps_setCached (k key : string) (d : jval) (ttl : Z) :
  key <> k -> keeps k (setCached key d ttl).
Proof.
  intros Hne w. unfold setCached.
  destruct (stringify d) as [txt|]; [|reflexivity].
  cbn. apply cache_find_put_other. exact Hne.
Qed.

Lemma keeps_deleteCached (k key : string) : key <> k -> keeps k (deleteCached key).
Proof.
  intros Hne w. cbn. apply cache_find_del_other. exact Hne.
Qed.

Lemma keeps_validate (k : string) (c : jval) (u : Z) : keeps k (validateCategoryOwnership c u).
Proof.
  intros w. unfold validateCategoryOwnership, bind, emit.
  destruct (sql_int c) as [[x|]|e]; reflexivity.
Qed.

Ltac keeps_tac :=
  repeat first
    [ apply keeps_getCached
    | apply keeps_setCached
    | apply keeps_deleteCached
    | apply keeps_validate
    | apply keeps_ret | apply keeps_throw | apply keeps_emit | apply keeps_gets
    | apply keeps_set_tasks | apply keeps_insert
    | apply keeps_bind; [|intros ?; cbv beta]
    | match goal with
      | |- keeps _ (if ?b then _ else _) => destruct b
      | |- keeps _ (match ?x with _ => _ end) => destruct x
      end ].

Lemma string_length_app (a b : string) :
  String.length (a ++ b)%string = String.length a + String.length b.
Proof. induction a as [|c a IH]; cbn; [reflexivity|rewrite IH; reflexivity]. Qed.

Lemma json_part_str (f : jval) : exists s, json_part (default_to f (JObj [])) = JStr s.
Proof.
  destruct f as [| |[]|n|s|xs|kvs]; cbn; eexists; reflexivity.
Qed.

Lemma list_key_shape (userId : Z) (filters : jval) :
  exists s, list_key userId filters =
            ("user_tasks:" ++ (sanitize (z_to_string userId) ++ ":" ++ sanitize s))%string.
Proof.
  destruct (json_part_str filters) as [s Hs]. exists s.
  unfold list_key, generateCacheKey. rewrite Hs. reflexivity.
Qed.

Lemma list_key_ne_tasks (userId : Z) (filters : jval) :
  generateCacheKey "user_tasks" [JNum userId] <> list_key userId filters.
Proof.
  destruct (list_key_shape userId filters) as [s ->].
  unfold generateCacheKey. cbn [filter is_nullish negb map join].
  intros H. apply (f_equal String.length) in H.
  rewrite !string_length_app in H. cbn in H. lia.
Qed.

Lemma list_key_ne_stats (userId : Z) (filters : jval) :
  generateCacheKey "user_task_stats" [JNum userId] <> list_key userId filters.
Proof.
  destruct (list_key_shape userId filters) as [s ->].
  unfold generateCacheKey. cbn. discriminate.
Qed.

Lemma list_key_ne_task (taskId userId : Z) (filters : jval) :
  generateCacheKey "task" [JNum taskId; JNum userId] <> list_key userId filters.
Proof.
  destruct (list_key_shape userId filters) as [s ->].
  unfold generateCacheKey. cbn. discriminate.
Qed.

Ltac key_tac :=
  first [ apply list_key_ne_tasks | apply list_key_ne_stats | apply list_key_ne_task ].

(** C1. [createTask], [updateTask] and [deleteTask] of a user, on every
    path, leave the cache entry of that user's task list under every
    filter object (the key [getUserTasks] reads and fills) as they find
    it: [invalidateUserTasksCache] deletes [user_tasks:<userId>] and
    [user_task_stats:<userId>], and the list keys carry one more part,
    the text of the filters. *)
Theorem mutations_keep_list_entries (userId taskId : Z) (data filters : jval) (w : rworld) :
  let lk := list_key userId filters in
  cache_find lk (cache (snd (createTask userId data w))) = cache_find lk (cache w) /\
  cache_find lk (cache (snd (updateTask taskId userId data w))) = cache_find lk (cache w) /\
  cache_find lk (cache (snd (deleteTask taskId userId w))) = cache_find lk (cache w).
Proof.
  intros lk. split; [|split]; revert w.
  - change (keeps lk (createTask userId data)). unfold createTask.
    keeps_tac; key_tac.
  - change (keeps lk (updateTask taskId userId data)). unfold updateTask.
    keeps_tac; key_tac.
  - change (keeps lk (deleteTask taskId userId)). unfold deleteTask.
    keeps_tac; key_tac.
Qed.

(** C1, counterexample: user 1 lists its tasks with no filters (an
    empty page, now cached under [user_tasks:1:__]), creates a task, and
    lists again: the second list is the cached empty page, marked
    [fromCache: true], while the table holds the new row. *)
Lemma list_stale_after_create :
  let run := (getUserTasks 1 (JObj []) ;;;
              createTask 1 (JObj [("title", JStr "b")]) ;;;
              getUserTasks 1 (JObj [])) in
  fst (run w_empty) = Ok (with_prop "fromCache" (JBool true) empty_page) /\
  map t_id (tasks (snd (run w_empty))) = [1%Z] /\
  list_key 1 (JObj []) = "user_tasks:1:__"%string.
Proof. vm_compute. split; [reflexivity|split; reflexivity]. Qed.

(** C2, counterexample: [{priority: 'high', completed: false}] and
    [{completed: false, priority: 'high'}] give two list keys, so the
    second call misses ([fromCache: false]) and queries again; the
    [CacheService] key of the two objects is one and the same. *)
Lemma reordered_filters_miss :
  let f1 := JObj [("priority", JStr "high"); ("completed", JBool false)] in
  let f2 := JObj [("completed", JBool false); ("priority", JStr "high")] in
  fst ((getUserTasks 1 f1 ;;; getUserTasks 1 f2) w_empty) =
    Ok (with_prop "fromCache" (JBool false) empty_page) /\
  list_key 1 f1 <> list_key 1 f2 /\
  CacheSvc.key_userTasks (JNum 1) f1 = CacheSvc.key_userTasks (JNum 1) f2.
Proof.
  vm_compute. split; [reflexivity|]. split; [discriminate|reflexivity].
Qed.

End RepoFacts.

(* ================================================================== *)
(** * Further properties *)

Module JsonFacts.

Lemma str_body (s rest : string) :
  parse_str_body (escape s ++ String dq rest) = Some (s, rest).
Proof.
  induction s as [|c s IH].
  - reflexivity.
  - destruct c as [[] [] [] [] [] [] [] []]; simpl; rewrite ?IH; reflexivity.
Qed.

Lemma digit_step (d : N) (s : string) (a : Z) (seen : bool) :
  (d < 10)%N ->
  parse_digits (String (digit_char d) s) a seen = parse_digits s (a * 10 + Z.of_N d)%Z true.
Proof.
  intros Hd.
  assert (d = 0 \/ d = 1 \/ d = 2 \/ d = 3 \/ d = 4 \/ d = 5 \/ d = 6 \/ d = 7 \/ d = 8 \/ d = 9)%N
    as Hc by lia.
  repeat destruct Hc as [-> | Hc]; try (subst d); reflexivity.
Qed.

Lemma digits_of_app (f : nat) (n : N) (acc rest : string) :
  digits_of f n acc ++ rest = digits_of f n (acc ++ rest).
Proof.
  revert n acc. induction f as [|f IH]; intros n acc; [reflexivity|].
  cbn [digits_of]. destruct (N.div n 10 =? 0)%N; [reflexivity|].
  rewrite IH. reflexivity.
Qed.

Lemma digits_of_parse (f : nat) (n : N) (acc : string) :
  (Z.of_N n < 10 ^ Z.of_nat f)%Z ->
  exists k, forall a seen,
    parse_digits (digits_of (S f) n acc) a seen =
    parse_digits acc (a * 10 ^ Z.of_nat k + Z.of_N n)%Z true.
Proof.
  revert n acc. induction f as [|f IH]; intros n acc Hn.
  - assert (n = 0%N) by lia. subst n. exists 1. intros a seen. reflexivity.
  - cbn [digits_of]. destruct (N.div n 10 =? 0)%N eqn:Hq.
    + exists 1. intros a seen. rewrite digit_step by (apply N.mod_lt; discriminate).
      apply N.eqb_eq in Hq. f_equal.
      pose proof (N.div_mod n 10 ltac:(discriminate)) as Hdm. rewrite Hq in Hdm. lia.
    + destruct (IH (N.div n 10) (String (digit_char (N.modulo n 10)) acc)) as [k Hk].
      { rewrite N2Z.inj_div. rewrite Nat2Z.inj_succ, Z.pow_succ_r in Hn by lia.
        apply Z.div_lt_upper_bound; lia. }
      exists (S k). intros a seen. rewrite Hk.
      rewrite digit_step by (apply N.mod_lt; discriminate).
      f_equal. rewrite Nat2Z.inj_succ, Z.pow_succ_r by lia.
      pose proof (N.div_mod n 10 ltac:(discriminate)) as Hdm.
      rewrite N2Z.inj_div, N2Z.inj_mod in *.
      pose proof (Z.div_mod (Z.of_N n) 10 ltac:(discriminate)). nia.
Qed.

Lemma parse_digits_stop (v : Z) (rest : string) :
  stop rest -> parse_digits rest v true = Some (v, rest).
Proof.
  destruct rest as [|c r]; [reflexivity|].
  intros [-> | [-> | ->]]; reflexivity.
Qed.

Lemma number_stop (n : Z) (rest : string) :
  stop rest ->
  match rest with
  | String c _ =>
      if Ascii.eqb c "."%char || Ascii.eqb c "e"%char || Ascii.eqb c "E"%char
      then None else Some (JNum n, rest)
  | EmptyString => Some (JNum n, rest)
  end = Some (JNum n, rest).
Proof.
  destruct rest as [|c r]; [reflexivity|].
  intros [-> | [-> | ->]]; reflexivity.
Qed.

Lemma digits_start (f : nat) (n : N) (acc : string) :
  exists d r, (d < 10)%N /\ digits_of (S f) n acc = String (digit_char d) r.
Proof.
  revert n acc. induction f as [|f IH]; intros n acc.
  - cbn [digits_of]. destruct (N.div n 10 =? 0)%N;
      (exists (N.modulo n 10); eexists; split; [apply N.mod_lt; discriminate | reflexivity]).
  - change (digits_of (S (S f)) n acc) with
      (let acc' := String (digit_char (N.modulo n 10)) acc in
       if (N.div n 10 =? 0)%N then acc' else digits_of (S f) (N.div n 10) acc').
    cbv zeta. destruct (N.div n 10 =? 0)%N.
    + exists (N.modulo n 10); eexists; split; [apply N.mod_lt; discriminate | reflexivity].
    + apply IH.
Qed.

Lemma pv_digit (d : N) (r : string) (f : nat) :
  (d < 10)%N -> parse_value (S f) (String (digit_char d) r) = parse_number (String (digit_char d) r).
Proof.
  intros Hd.
  assert (d = 0 \/ d = 1 \/ d = 2 \/ d = 3 \/ d = 4 \/ d = 5 \/ d = 6 \/ d = 7 \/ d = 8 \/ d = 9)%N
    as Hc by lia.
  repeat destruct Hc as [-> | Hc]; try (subst d); reflexivity.
Qed.

Lemma pn_digit (d : N) (r : string) :
  (d < 10)%N ->
  parse_number (String (digit_char d) r) =
  match parse_digits (String (digit_char d) r) 0%Z false with
  | Some (n, rest) =>
      match rest with
      | String c _ =>
          if Ascii.eqb c "."%char || Ascii.eqb c "e"%char || Ascii.eqb c "E"%char
          then None else Some (JNum n, rest)
      | EmptyString => Some (JNum n, rest)
      end
  | None => None
  end.
Proof.
  intros Hd.
  assert (d = 0 \/ d = 1 \/ d = 2 \/ d = 3 \/ d = 4 \/ d = 5 \/ d = 6 \/ d = 7 \/ d = 8 \/ d = 9)%N
    as Hc by lia.
  repeat destruct Hc as [-> | Hc]; try (subst d); reflexivity.
Qed.

Lemma size_bound (n : N) : (Z.of_N n < 10 ^ Z.of_nat (N.size_nat n))%Z.
Proof.
  destruct n as [|p]; [reflexivity|].
  cbn [N.size_nat Z.of_N].
  pose proof (proj2 (Zpower2_Psize (Pos.size_nat p) p) (le_n _)) as H.
  assert (2 ^ Z.of_nat (Pos.size_nat p) <= 10 ^ Z.of_nat (Pos.size_nat p))%Z.
  { apply Z.pow_le_mono_l. lia. }
  lia.
Qed.

Lemma unsigned_rt (n : N) (f : nat) (rest : string) :
  stop rest ->
  parse_value (S f) (digits_of (S (N.size_nat n)) n rest) = Some (JNum (Z.of_N n), rest).
Proof.
  intros Hs.
  destruct (digits_start (N.size_nat n) n rest) as [d [r [Hd Heq]]].
  rewrite Heq, pv_digit, pn_digit by exact Hd. rewrite <- Heq.
  destruct (digits_of_parse (N.size_nat n) n rest (size_bound n)) as [k Hk].
  rewrite Hk, parse_digits_stop by exact Hs.
  rewrite Z.mul_0_l, Z.add_0_l. apply number_stop. exact Hs.
Qed.

Lemma num_rt (z : Z) (f : nat) (rest : string) :
  stop rest -> parse_value (S f) (z_to_string z ++ rest) = Some (JNum z, rest).
Proof.
  intros Hs. unfold z_to_string. cbv zeta.
  destruct (z <? 0)%Z eqn:Hz.
  - cbn [append]. rewrite digits_of_app.
    change (parse_value (S f) (String "-" (digits_of (S (N.size_nat (Z.abs_N z))) (Z.abs_N z) (EmptyString ++ rest))))
      with (parse_number (String "-" (digits_of (S (N.size_nat (Z.abs_N z))) (Z.abs_N z) (EmptyString ++ rest)))).
    cbn [append].
    destruct (digits_start (N.size_nat (Z.abs_N z)) (Z.abs_N z) rest) as [d [r [Hd Heq]]].
    unfold parse_number. cbv beta iota.
    destruct (digits_of_parse (N.size_nat (Z.abs_N z)) (Z.abs_N z) rest (size_bound _)) as [k Hk].
    rewrite Hk, parse_digits_stop by exact Hs.
    rewrite Z.mul_0_l, Z.add_0_l.
    rewrite (number_stop (Z.opp (Z.of_N (Z.abs_N z))) rest Hs).
    rewrite Z_of_N_abs, Z.abs_neq by lia. rewrite Z.opp_involutive. reflexivity.
  - rewrite digits_of_app. cbn [append].
    rewrite unsigned_rt by exact Hs.
    rewrite Z_of_N_abs, Z.abs_eq by lia. reflexivity.
Qed.

Lemma sapp_assoc (a b c : string) : (a ++ b) ++ c = a ++ (b ++ c).
Proof. induction a as [|x a IH]; cbn; [reflexivity|rewrite IH; reflexivity]. Qed.

Lemma sapp_nil (a : string) : a ++ EmptyString = a.
Proof. induction a as [|x a IH]; cbn; [reflexivity|rewrite IH; reflexivity]. Qed.

Lemma quote_app (k x : string) : quote k ++ x = String dq (escape k ++ String dq x).
Proof. unfold quote. cbn [append]. rewrite sapp_assoc. reflexivity. Qed.

Lemma stringify_text (x : jval) : clean x = true -> stringify x = Some (text x).
Proof. intros H. unfold text. destruct x as [| |[]| | | |]; try discriminate; reflexivity. Qed.

Lemma elems_unfold (f : nat) (c : ascii) (s : string) (acc : list jval) :
  Ascii.eqb c "]"%char = false ->
  parse_elems (S f) (String c s) acc =
  match parse_value f (String c s) with
  | Some (v, rest) =>
      match skip_ws rest with
      | String "]" r => Some (JArr (rev (v :: acc)), r)
      | String "," r => parse_elems f (skip_ws r) (v :: acc)
      | _ => None
      end
  | None => None
  end.
Proof.
  intros H. destruct c as [[] [] [] [] [] [] [] []]; try discriminate H; reflexivity.
Qed.

(** The first character of a JSON text. *)
Lemma text_first (v : jval) :
  clean v = true ->
  exists c r, text v = String c r /\ Ascii.eqb c "]"%char = false /\ is_ws c = false.
Proof.
  intros Hc. destruct v as [| |[]|z|s|xs|fs]; try discriminate; unfold text; cbn [stringify].
  - do 2 eexists; split; [reflexivity|split; reflexivity].
  - do 2 eexists; split; [reflexivity|split; reflexivity].
  - do 2 eexists; split; [reflexivity|split; reflexivity].
  - unfold z_to_string. cbv zeta. destruct (z <? 0)%Z.
    + do 2 eexists; split; [reflexivity|split; reflexivity].
    + destruct (digits_start (N.size_nat (Z.abs_N z)) (Z.abs_N z) EmptyString) as [d [r [Hd ->]]].
      exists (digit_char d), r. split; [reflexivity|].
      assert (d = 0 \/ d = 1 \/ d = 2 \/ d = 3 \/ d = 4 \/ d = 5 \/ d = 6 \/ d = 7 \/ d = 8 \/ d = 9)%N
        as Hd' by lia.
      repeat destruct Hd' as [-> | Hd']; try (subst d); split; reflexivity.
  - do 2 eexists; split; [reflexivity|split; reflexivity].
  - do 2 eexists; split; [reflexivity|split; reflexivity].
  - do 2 eexists; split; [reflexivity|split; reflexivity].
Qed.

Lemma skip_ws_first (c : ascii) (r : string) : is_ws c = false -> skip_ws (String c r) = String c r.
Proof. intros H. cbn [skip_ws]. rewrite H. reflexivity. Qed.

Lemma elems_text (f : nat) (x : jval) (X : string) (acc : list jval) :
  clean x = true ->
  parse_elems (S f) (text x ++ X) acc =
  match parse_value f (text x ++ X) with
  | Some (v, rest) =>
      match skip_ws rest with
      | String "]" r => Some (JArr (rev (v :: acc)), r)
      | String "," r => parse_elems f (skip_ws r) (v :: acc)
      | _ => None
      end
  | None => None
  end.
Proof.
  intros Hc. destruct (text_first x Hc) as [c [t [Ht [H1 _]]]].
  rewrite Ht. cbn [append]. apply elems_unfold. exact H1.
Qed.

Lemma skip_ws_text (x : jval) (X : string) : clean x = true -> skip_ws (text x ++ X) = text x ++ X.
Proof.
  intros Hc. destruct (text_first x Hc) as [c [t [Ht [_ H2]]]].
  rewrite Ht. cbn [append]. apply skip_ws_first. exact H2.
Qed.

Lemma skip_ws_join (y : jval) (r : list jval) (X : string) :
  clean y = true ->
  skip_ws (join "," (map text (y :: r)) ++ X) = join "," (map text (y :: r)) ++ X.
Proof.
  intros Hc. destruct r as [|z r]; cbn [map join].
  - apply skip_ws_text. exact Hc.
  - rewrite sapp_assoc. apply skip_ws_text. exact Hc.
Qed.

Lemma elems_rt (xs : list jval) :
  Forall PV xs -> forallb clean xs = true -> xs <> [] ->
  forall f acc rest, E_need xs <= f -> stop rest ->
  parse_elems f (join "," (map text xs) ++ String "]" rest) acc = Some (JArr (rev acc ++ xs), rest).
Proof.
  induction xs as [|x r IH]; intros HP Hc Hne f acc rest Hf Hs; [congruence|].
  inversion HP as [|? ? Hx Hr]; subst. cbn [forallb] in Hc. apply andb_prop in Hc as [Hcx Hcr].
  destruct f as [|f]; [cbn in Hf; lia|].
  cbn [E_need fold_right] in Hf. fold (E_need r) in Hf.
  destruct r as [|y r'].
  - cbn [map join]. rewrite elems_text by exact Hcx.
    rewrite (Hx Hcx f (String "]" rest)) by (try lia; right; left; reflexivity).
    simpl. reflexivity.
  - cbn [map]. change (join "," (text x :: text y :: map text r'))
      with (text x ++ "," ++ join "," (text y :: map text r')).
    rewrite !sapp_assoc. rewrite elems_text by exact Hcx.
    rewrite (Hx Hcx f ("," ++ (join "," (text y :: map text r') ++ String "]" rest)))
      by (try lia; left; reflexivity).
    cbn [append]. rewrite (skip_ws_first "," _ eq_refl). cbv beta iota.
    change (parse_elems f (skip_ws (join "," (map text (y :: r')) ++ String "]" rest)) (x :: acc)
            = Some (JArr (rev acc ++ x :: y :: r'), rest)).
    inversion Hr; subst. cbn [forallb] in Hcr. apply andb_prop in Hcr as [Hcy Hcr'].
    rewrite skip_ws_join by exact Hcy.
    rewrite (IH Hr ltac:(cbn [forallb]; rewrite Hcy, Hcr'; reflexivity) ltac:(discriminate) f (x :: acc) rest)
      by (try lia; exact Hs).
    cbn [rev]. rewrite <- app_assoc. reflexivity.
Qed.

Lemma flat_map_clean (fs : list (string * jval)) :
  forallb (fun kv => clean (snd kv)) fs = true ->
  flat_map (fun kv => match stringify (snd kv) with
                      | Some s => [quote (fst kv) ++ ":" ++ s]
                      | None => []
                      end) fs = map mtext fs.
Proof.
  induction fs as [|[k v] fs IH]; intros Hc; [reflexivity|].
  cbn [forallb snd] in Hc. apply andb_prop in Hc as [Hv Hr].
  cbn [flat_map snd fst]. rewrite (stringify_text v Hv), IH by exact Hr. reflexivity.
Qed.

Lemma members_dq (f : nat) (Y : string) (acc : list (string * jval)) :
  parse_members (S f) (String dq Y) acc =
  match parse_str_body Y with
  | Some (k, rest) =>
      match skip_ws rest with
      | String ":" rest' =>
          match parse_value f rest' with
          | Some (v, rest'') =>
              match skip_ws rest'' with
              | String "}" r' => Some (JObj (rev ((k, v) :: acc)), r')
              | String "," r' => parse_members f (skip_ws r') ((k, v) :: acc)
              | _ => None
              end
          | None => None
          end
      | _ => None
      end
  | None => None
  end.
Proof. destruct acc; reflexivity. Qed.

Lemma skip_ws_mjoin (kv : string * jval) (r : list (string * jval)) (X : string) :
  exists Y, join "," (map mtext (kv :: r)) ++ X = String dq Y /\
            skip_ws (join "," (map mtext (kv :: r)) ++ X) = join "," (map mtext (kv :: r)) ++ X.
Proof.
  destruct r as [|kv' r]; cbn [map join]; unfold mtext; rewrite ?sapp_assoc, quote_app;
    (eexists; split; [reflexivity| apply skip_ws_first; reflexivity]).
Qed.

Lemma members_rt (fs : list (string * jval)) :
  Forall (fun kv => PV (snd kv)) fs -> forallb (fun kv => clean (snd kv)) fs = true -> fs <> [] ->
  forall f acc rest, M_need fs <= f -> stop rest ->
  parse_members f (join "," (map mtext fs) ++ String "}" rest) acc = Some (JObj (rev acc ++ fs), rest).
Proof.
  induction fs as [|[k v] r IH]; intros HP Hc Hne f acc rest Hf Hs; [congruence|].
  inversion HP as [|? ? Hx Hr]; subst. cbn [forallb snd] in Hc. apply andb_prop in Hc as [Hcx Hcr].
  cbn [snd] in Hx.
  destruct f as [|f]; [cbn in Hf; lia|].
  cbn [M_need fold_right snd] in Hf. fold (M_need r) in Hf.
  destruct r as [|kv' r'].
  - cbn [map join]. unfold mtext. cbn [fst snd]. rewrite !sapp_assoc, quote_app.
    rewrite members_dq, str_body. cbn [append].
    rewrite (skip_ws_first ":" _ eq_refl). cbv beta iota.
    rewrite (Hx Hcx f (String "}" rest)) by (try lia; right; right; reflexivity).
    rewrite (skip_ws_first "}" _ eq_refl). cbv beta iota.
    cbn [rev]. reflexivity.
  - change (join "," (map mtext ((k, v) :: kv' :: r')))
      with (mtext (k, v) ++ "," ++ join "," (map mtext (kv' :: r'))).
    unfold mtext at 1. cbn [fst snd]. rewrite !sapp_assoc, quote_app.
    rewrite members_dq, str_body. cbn [append].
    rewrite (skip_ws_first ":" _ eq_refl). cbv beta iota.
    rewrite (Hx Hcx f (String "," (join "," (map mtext (kv' :: r')) ++ String "}" rest)))
      by (try lia; left; reflexivity).
    rewrite (skip_ws_first "," _ eq_refl). cbv beta iota.
    destruct (skip_ws_mjoin kv' r' (String "}" rest)) as [Y [_ ->]].
    rewrite (IH Hr Hcr ltac:(discriminate) f ((k, v) :: acc) rest) by (try lia; exact Hs).
    cbn [rev]. rewrite <- app_assoc. reflexivity.
Qed.

Lemma pv_all (v : jval) : PV v.
Proof.
  induction v as [| |b|z|s|xs IH|fs IH] using jval_ind'; unfold PV;
    intros Hc f rest Hf Hs; try discriminate Hc;
    (destruct f as [|f]; [cbn in Hf; lia|]).
  - reflexivity.
  - destruct b; reflexivity.
  - unfold text. cbn [stringify]. apply num_rt. exact Hs.
  - unfold text. cbn [stringify]. rewrite quote_app.
    change (option_map (fun p => (JStr (fst p), snd p)) (parse_str_body (escape s ++ String dq rest))
            = Some (JStr s, rest)).
    rewrite str_body. reflexivity.
  - unfold text. cbn [stringify].
    change (map (fun x => match stringify x with Some s => s | None => "null" end) xs)
      with (map text xs).
    cbn [append]. rewrite sapp_assoc. cbn [append].
    change (parse_elems f (skip_ws (join "," (map text xs) ++ String "]" rest)) [] = Some (JArr xs, rest)).
    cbn [clean] in Hc. cbn [need] in Hf. fold (E_need xs) in Hf.
    destruct xs as [|x r].
    + cbn [map join append]. rewrite (skip_ws_first "]" _ eq_refl).
      destruct f as [|f]; [cbn in Hf; lia|]. reflexivity.
    + cbn [forallb] in Hc. pose proof Hc as Hc'. apply andb_prop in Hc' as [Hx _].
      rewrite skip_ws_join by exact Hx.
      rewrite (elems_rt (x :: r) IH Hc ltac:(discriminate) f [] rest) by (try lia; exact Hs).
      reflexivity.
  - unfold text. cbn [stringify]. cbn [clean] in Hc. rewrite (flat_map_clean fs Hc).
    cbn [append]. rewrite sapp_assoc. cbn [append].
    change (parse_members f (skip_ws (join "," (map mtext fs) ++ String "}" rest)) [] = Some (JObj fs, rest)).
    cbn [need] in Hf. fold (M_need fs) in Hf.
    destruct fs as [|kv r].
    + cbn [map join append]. rewrite (skip_ws_first "}" _ eq_refl).
      destruct f as [|f]; [cbn in Hf; lia|]. reflexivity.
    + destruct (skip_ws_mjoin kv r (String "}" rest)) as [Y [_ ->]].
      rewrite (members_rt (kv :: r) IH Hc ltac:(discriminate) f [] rest) by (try lia; exact Hs).
      reflexivity.
Qed.

Lemma slen_app (a b : string) : String.length (a ++ b) = String.length a + String.length b.
Proof. induction a as [|x a IH]; cbn; [reflexivity|rewrite IH; reflexivity]. Qed.

Lemma need_pos (v : jval) : 1 <= need v.
Proof. destruct v; cbn [need]; lia. Qed.

Lemma text_len_pos (v : jval) : clean v = true -> 1 <= String.length (text v).
Proof.
  intros Hc. destruct (text_first v Hc) as [c [t [-> _]]]. cbn. lia.
Qed.

Lemma need_le_length (v : jval) : clean v = true -> need v <= String.length (text v).
Proof.
  induction v as [| |b|z|s|xs IH|fs IH] using jval_ind'; intros Hc; try discriminate Hc;
    try (cbn [need]; apply text_len_pos; exact Hc).
  - unfold text. cbn [stringify need].
    change (map (fun x => match stringify x with Some s => s | None => "null" end) xs)
      with (map text xs).
    cbn [String.length append]. rewrite slen_app. cbn [String.length].
    fold (E_need xs). cbn [clean] in Hc.
    enough (E_need xs <= S (String.length (join "," (map text xs)))) by lia.
    clear - IH Hc. induction xs as [|x r IHr]; [cbn; lia|].
    inversion IH as [|? ? Hx Hr]; subst. cbn [forallb] in Hc. apply andb_prop in Hc as [Hcx Hcr].
    specialize (Hx Hcx). specialize (IHr Hr Hcr).
    cbn [E_need fold_right]. fold (E_need r).
    destruct r as [|y r'].
    + cbn [map join]. change (E_need []) with 1. pose proof (need_pos x). lia.
    + change (join "," (map text (x :: y :: r'))) with (text x ++ "," ++ join "," (map text (y :: r'))).
      rewrite !slen_app. cbn [String.length]. lia.
  - unfold text. cbn [stringify need]. cbn [clean] in Hc. rewrite (flat_map_clean fs Hc).
    cbn [String.length append]. rewrite slen_app. cbn [String.length].
    fold (M_need fs).
    enough (M_need fs <= S (String.length (join "," (map mtext fs)))) by lia.
    clear - IH Hc. induction fs as [|[k x] r IHr]; [cbn; lia|].
    inversion IH as [|? ? Hx Hr]; subst. cbn [forallb snd] in Hc. apply andb_prop in Hc as [Hcx Hcr].
    cbn [snd] in Hx. specialize (Hx Hcx). specialize (IHr Hr Hcr).
    cbn [M_need fold_right snd]. fold (M_need r).
    assert (Hm : String.length (text x) <= String.length (mtext (k, x))).
    { unfold mtext. cbn [fst snd]. rewrite !slen_app. lia. }
    destruct r as [|y r'].
    + cbn [map join]. change (M_need []) with 1. pose proof (need_pos x). lia.
    + change (join "," (map mtext ((k, x) :: y :: r')))
        with (mtext (k, x) ++ "," ++ join "," (map mtext (y :: r'))).
      rewrite !slen_app. cbn [String.length]. lia.
Qed.

Theorem parse_text (v : jval) : clean v = true -> parse (text v) = Some v.
Proof.
  intros Hc. unfold parse.
  rewrite <- (sapp_nil (text v)) at 2.
  rewrite (pv_all v Hc (S (String.length (text v))) EmptyString) by
    (try (pose proof (need_le_length v Hc); lia); exact I).
  reflexivity.
Qed.

Lemma truthy_text (d : jval) : clean d = true -> truthy (JStr (text d)) = true.
Proof.
  intros H. destruct (text_first d H) as [c [r [-> _]]]. reflexivity.
Qed.

End JsonFacts.

Module DalFacts.
Import Dal JsonFacts.
Local Open Scope list_scope.

Lemma cache_find_put_same (k v : string) (c : list (string * string)) :
  cache_find k (cache_put k v c) = Some v.
Proof.
  induction c as [|[k1 v1] c IH]; cbn.
  - rewrite String.eqb_refl. reflexivity.
  - destruct (String.eqb_spec k1 k) as [->|Hn]; cbn.
    + rewrite String.eqb_refl. reflexivity.
    + destruct (String.eqb_spec k1 k); [contradiction|exact IH].
Qed.

Lemma cache_find_del (k k' : string) (c : list (string * string)) :
  cache_find k (cache_del k' c) = if String.eqb k' k then None else cache_find k c.
Proof.
  destruct (String.eqb_spec k' k) as [->|Hne].
  - induction c as [|[k1 v1] c IH]; cbn; [reflexivity|].
    destruct (String.eqb_spec k1 k); cbn; [exact IH|].
    destruct (String.eqb_spec k1 k); [contradiction|exact IH].
  - apply RepoFacts.cache_find_del_other. exact Hne.
Qed.

Lemma cache_find_put (k k' v : string) (c : list (string * string)) :
  cache_find k (cache_put k' v c) = if String.eqb k' k then Some v else cache_find k c.
Proof.
  destruct (String.eqb_spec k' k) as [->|Hne].
  - apply cache_find_put_same.
  - apply RepoFacts.cache_find_put_other. exact Hne.
Qed.


Lemma read_cached_text (k : string) (d : jval) (c : list (string * string)) :
  clean d = true -> read_cached k (cache_put k (text d) c) = d.
Proof.
  intros H. unfold read_cached. rewrite cache_find_put_same, truthy_text by exact H.
  rewrite parse_text by exact H. reflexivity.
Qed.


Lemma setCached_clean (key : string) (data : jval) (ttl : Z) (w : rworld) :
  clean data = true ->
  setCached key data ttl w =
  (Ok true, mkRWorld (cache_put key (text data) (cache w)) (tasks w) (categories w)
              (next_id w) (trace w ++ [CacheSet key (text data)])).
Proof.
  intros H. unfold setCached. rewrite stringify_text by exact H. reflexivity.
Qed.

Lemma deleteCached_ok (key : string) (w : rworld) :
  deleteCached key w =
  (Ok true, mkRWorld (cache_del key (cache w)) (tasks w) (categories w)
              (next_id w) (trace w ++ [CacheDel key])).
Proof. reflexivity. Qed.

(** [setCached(key, data)] of a value with no [undefined] in it
    resolves to [true], and a following [getCached(key)] resolves to
    [data] itself: strings included, since [setCached] stringifies every
    value.  No other key and no table is touched. *)
Theorem setCached_then_getCached (key : string) (data : jval) (ttl : Z) (w : rworld) :
  clean data = true ->
  exists w1,
    setCached key data ttl w = (Ok true, w1) /\
    fst (getCached key w1) = Ok data /\
    (forall k, k <> key -> cache_find k (cache w1) = cache_find k (cache w)) /\
    tasks w1 = tasks w /\ categories w1 = categories w.
Proof.
  intros H. eexists. split; [apply setCached_clean; exact H|].
  split; [|split; [|split; reflexivity]].
  - rewrite RepoFacts.getCached_read. cbn [fst cache]. rewrite read_cached_text by exact H.
    reflexivity.
  - intros k Hk. cbn [cache]. apply RepoFacts.cache_find_put_other. congruence.
Qed.

Lemma setCached_then_getCached_witness :
  clean (JStr "hello") = true /\
  exists w1,
    setCached "k" (JStr "hello") 300 TaskRepository.w_empty = (Ok true, w1) /\
    fst (getCached "k" w1) = Ok (JStr "hello") /\
    (forall k, k <> "k" -> cache_find k (cache w1) = cache_find k (cache TaskRepository.w_empty)) /\
    tasks w1 = tasks TaskRepository.w_empty /\
    categories w1 = categories TaskRepository.w_empty.
Proof.
  split; [reflexivity|].
  apply (setCached_then_getCached "k" (JStr "hello") 300 TaskRepository.w_empty). reflexivity.
Defined.


Lemma del_all_find (keys : list string) (k : string) (c : list (string * string)) :
  cache_find k (del_all keys c) =
  if existsb (String.eqb k) keys then None else cache_find k c.
Proof.
  unfold del_all. revert c. induction keys as [|k' keys IH]; intros c; [reflexivity|].
  cbn [fold_left existsb]. rewrite IH, cache_find_del.
  rewrite (String.eqb_sym k k').
  destruct (String.eqb k' k), (existsb (String.eqb k) keys); reflexivity.
Qed.

Lemma delete_each_ok (keys : list string) (w : rworld) :
  delete_each keys w =
  (Ok (map (fun _ => true) keys),
   mkRWorld (del_all keys (cache w)) (tasks w) (categories w) (next_id w)
     (trace w ++ map CacheDel keys)).
Proof.
  revert w. induction keys as [|k keys IH]; intros w.
  - cbn. rewrite app_nil_r. destruct w; reflexivity.
  - cbn [delete_each]. unfold bind at 1. rewrite deleteCached_ok.
    unfold bind at 1. rewrite IH. cbn. rewrite <- app_assoc. reflexivity.
Qed.

Lemma invalidateCache_ok (keys : list string) (w : rworld) :
  invalidateCache keys w =
  (Ok tt, mkRWorld (del_all keys (cache w)) (tasks w) (categories w) (next_id w)
            (trace w ++ map CacheDel keys)).
Proof.
  revert w. induction keys as [|k keys IH]; intros w.
  - cbn. rewrite app_nil_r. destruct w; reflexivity.
  - cbn [invalidateCache]. unfold bind at 1. rewrite deleteCached_ok.
    rewrite IH. cbn. rewrite <- app_assoc. reflexivity.
Qed.

(** [bulkDeleteCache(keys)] resolves to [true] and
    [invalidateCache(keys)] resolves; after either, every listed key is
    gone from the cache and every other key holds what it held; the
    tables are not touched. *)
Theorem bulk_delete_removes_listed (keys : list string) (w : rworld) :
  (exists w1, bulkDeleteCache keys w = (Ok true, w1) /\ tasks w1 = tasks w /\
     forall k, cache_find k (cache w1) =
               if existsb (String.eqb k) keys then None else cache_find k (cache w)) /\
  (exists w1, invalidateCache keys w = (Ok tt, w1) /\ tasks w1 = tasks w /\
     forall k, cache_find k (cache w1) =
               if existsb (String.eqb k) keys then None else cache_find k (cache w)).
Proof.
  split.
  - eexists. split.
    + unfold bulkDeleteCache, try_catch, bind at 1. rewrite delete_each_ok. reflexivity.
    + split; [reflexivity|]. intros k. apply del_all_find.
  - eexists. split; [apply invalidateCache_ok|].
    split; [reflexivity|]. intros k. apply del_all_find.
Qed.







(** The data access layer's [invalidateCachePattern(pattern)]
    sends one [DEL] of the key spelled [pattern] and nothing else: a key
    the pattern would match as a glob, such as [user:1:tasks:a] for
    [user:1:tasks:*], keeps its entry. *)
Theorem dal_invalidateCachePattern_literal (pattern : string) (w : rworld) :
  exists w1,
    invalidateCachePattern pattern w = (Ok tt, w1) /\
    trace w1 = trace w ++ [CacheDel pattern] /\ tasks w1 = tasks w /\
    cache_find pattern (cache w1) = None /\
    forall k, k <> pattern -> cache_find k (cache w1) = cache_find k (cache w).
Proof.
  exists (mkRWorld (cache_del pattern (cache w)) (tasks w) (categories w) (next_id w)
            (trace w ++ [CacheDel pattern])).
  split; [reflexivity|]. cbn [trace tasks cache].
  split; [reflexivity|]. split; [reflexivity|]. split.
  - rewrite cache_find_del, String.eqb_refl. reflexivity.
  - intros k Hk. apply RepoFacts.cache_find_del_other. congruence.
Qed.

(** [query(sql, params, {cache: true, cacheKey})] with a non-empty
    key whose cached value is truthy resolves to
    [{rows: cached, fromCache: true}] after the one cache read, whatever
    the pool would answer: the pool is not called. *)
Theorem query_cache_hit (pool_query : string -> list jval -> M rworld (jval * jval))
  (sql : string) (params : list jval) (key : string) (ttl : Z) (w : rworld) :
  truthy (JStr key) = true ->
  truthy (read_cached key (cache w)) = true ->
  query pool_query sql params true key ttl w =
  (Ok (JObj [("rows", read_cached key (cache w)); ("fromCache", JBool true)]),
   mkRWorld (cache w) (tasks w) (categories w) (next_id w) (trace w ++ [CacheGet key])).
Proof.
  intros Hk Hc. unfold query. cbn [andb]. rewrite Hk.
  unfold bind at 1 2. rewrite RepoFacts.getCached_read. unfold ret. rewrite Hc. reflexivity.
Qed.



Lemma query_cache_hit_witness :
  truthy (JStr "q") = true /\ truthy (read_cached "q" (cache w_hit)) = true /\
  query pool_one "SELECT 1" [] true "q" 300 w_hit =
  (Ok (JObj [("rows", read_cached "q" (cache w_hit)); ("fromCache", JBool true)]),
   mkRWorld (cache w_hit) (tasks w_hit) (categories w_hit) (next_id w_hit)
     (trace w_hit ++ [CacheGet "q"])).
Proof.
  split; [reflexivity|]. split; [vm_compute; reflexivity|].
  apply query_cache_hit; [reflexivity|vm_compute; reflexivity].
Defined.



Lemma map_get_set (k k' : string) (v : Z) (m : list (string * Z)) :
  map_get k (map_set k' v m) = if String.eqb k' k then Some v else map_get k m.
Proof.
  induction m as [|[k1 v1] m IH]; cbn.
  - destruct (String.eqb k' k); reflexivity.
  - destruct (String.eqb_spec k1 k') as [->|Hn]; cbn.
    + destruct (String.eqb k' k); reflexivity.
    + rewrite IH. destruct (String.eqb_spec k1 k) as [->|Hn2]; [|reflexivity].
      destruct (String.eqb_spec k' k); [congruence|reflexivity].
Qed.

(** [registerRepository(name, inst)] returns [inst], after which
    [getRepository(name)] returns [inst], the instance's [ensureDAL()]
    passes, and every other name is bound as before; a falsy instance is
    refused with nothing registered. *)
Theorem register_then_get (name ctorName : string) (inst : Z) (r : registry) :
  (exists r1,
     registerRepository name (Some inst) r = (Ok inst, r1) /\
     getRepository name r1 = (Ok inst, r1) /\
     BaseRepository.ensureDAL ctorName inst r1 = (Ok tt, r1) /\
     forall n, n <> name -> map_get n (repositories r1) = map_get n (repositories r)) /\
  registerRepository name None r =
    (Exn (plain_error ("Repository instance is required for " ++ name)), r).
Proof.
  split; [|reflexivity].
  eexists. split; [reflexivity|]. split; [|split].
  - unfold getRepository. cbn [repositories]. rewrite map_get_set, String.eqb_refl. reflexivity.
  - unfold BaseRepository.ensureDAL. cbn [dal_set].
    rewrite existsb_app. cbn [existsb]. rewrite Z.eqb_refl, orb_true_r. reflexivity.
  - intros n Hn. cbn [repositories]. rewrite map_get_set.
    destruct (String.eqb_spec name n); [congruence|reflexivity].
Qed.

(** When [BEGIN] fails, [executeTransaction(callback)] never runs
    the callback: it sends [ROLLBACK], releases the connection and
    rejects with [BEGIN]'s error (with [ROLLBACK]'s error if that fails
    too). *)
Theorem executeTransaction_begin_fails {A} (callback : M txworld A) (w : txworld)
  (e : exn) (rest : list (option exn)) :
  tx_outcomes w = Some e :: rest ->
  executeTransaction callback w =
  (Exn (match rest with Some e' :: _ => e' | _ => e end),
   mkTx (tl rest) (tx_log w ++ [TConnect; TQuery "BEGIN"; TQuery "ROLLBACK"; TRelease])).
Proof.
  intros H. destruct w as [os lg]. cbn in H. subst os.
  unfold executeTransaction, executeTransaction_on, pool_connect, bind at 1 2, connect, tx_emit.
  cbn [tx_outcomes tx_log].
  unfold try_finally, try_catch, bind at 1, client_query. cbn [tx_outcomes tx_log].
  destruct rest as [|[e'|] rest']; cbn; rewrite <- !app_assoc; reflexivity.
Qed.

Lemma executeTransaction_begin_fails_witness :
  executeTransaction (ret 1) (mkTx [Some TaskRepository.lost_connection] []) =
  (Exn TaskRepository.lost_connection,
   mkTx [] ([] ++ [TConnect; TQuery "BEGIN"; TQuery "ROLLBACK"; TRelease])).
Proof.
  apply (executeTransaction_begin_fails (ret 1) (mkTx [Some TaskRepository.lost_connection] [])
           TaskRepository.lost_connection []).
  reflexivity.
Defined.

End DalFacts.

Module CacheSvcMoreFacts.
Import CacheSvc JsonFacts.
Local Open Scope list_scope.

(** *** Sorting the filter keys *)

Lemma str_leb_trans (a b c : string) :
  String.leb a b = true -> String.leb b c = true -> String.leb a c = true.
Proof.
  revert b c. induction a as [|x a IH]; intros b c; [destruct c; reflexivity|].
  destruct b as [|y b]; [discriminate|]. destruct c as [|z c]; [discriminate|].
  unfold String.leb. cbn [String.compare].
  destruct (Ascii.compare x y) eqn:Hxy; destruct (Ascii.compare y z) eqn:Hyz;
    try discriminate; intros H1 H2.
  - apply Ascii.compare_eq_iff in Hxy, Hyz. subst.
    assert (Hz : Ascii.compare z z = Eq) by (unfold Ascii.compare; apply N.compare_refl).
    rewrite Hz. apply IH with b; assumption.
  - apply Ascii.compare_eq_iff in Hxy. subst. rewrite Hyz. reflexivity.
  - apply Ascii.compare_eq_iff in Hyz. subst. rewrite Hxy. reflexivity.
  - unfold Ascii.compare in *.
    rewrite N.compare_lt_iff in Hxy, Hyz.
    assert (Hxz : (N_of_ascii x ?= N_of_ascii z)%N = Lt) by (apply N.compare_lt_iff; lia).
    rewrite Hxz. reflexivity.
Qed.

Lemma insert_comm (a b : string) (l : list string) :
  insert_sorted a (insert_sorted b l) = insert_sorted b (insert_sorted a l).
Proof.
  induction l as [|x r IH].
  - cbn. destruct (String.leb a b) eqn:Hab, (String.leb b a) eqn:Hba.
    + rewrite (String.leb_antisym a b Hab Hba). reflexivity.
    + reflexivity.
    + reflexivity.
    + destruct (String.leb_total a b); congruence.
  - destruct (String.leb b x) eqn:Hbx, (String.leb a x) eqn:Hax;
      repeat progress (cbn [insert_sorted]; rewrite ?Hbx, ?Hax).
    + destruct (String.leb a b) eqn:Hab, (String.leb b a) eqn:Hba;
        repeat progress (cbn [insert_sorted]; rewrite ?Hbx, ?Hax).
      * rewrite (String.leb_antisym a b Hab Hba). reflexivity.
      * reflexivity.
      * reflexivity.
      * destruct (String.leb_total a b); congruence.
    + destruct (String.leb a b) eqn:Hab.
      * rewrite (str_leb_trans a b x Hab Hbx) in Hax. discriminate.
      * repeat progress (cbn [insert_sorted]; rewrite ?Hbx, ?Hax). reflexivity.
    + destruct (String.leb b a) eqn:Hba.
      * rewrite (str_leb_trans b a x Hba Hax) in Hbx. discriminate.
      * repeat progress (cbn [insert_sorted]; rewrite ?Hbx, ?Hax). reflexivity.
    + rewrite IH. reflexivity.
Qed.

Lemma sort_perm (l1 l2 : list string) : Permutation l1 l2 -> sort_strings l1 = sort_strings l2.
Proof.
  induction 1; unfold sort_strings in *; cbn [fold_right]; try congruence.
  apply insert_comm.
Qed.

Lemma find_key_in (fs : list (string * jval)) (k : string) (p : string * jval) :
  NoDup (map fst fs) -> In p fs -> fst p = k ->
  find (fun p => String.eqb (fst p) k) fs = Some p.
Proof.
  induction fs as [|q r IH]; [intros _ []|].
  cbn [map]. intros Hnd Hin Hk. inversion Hnd as [|? ? Hnin Hnd']. subst.
  cbn [find]. destruct Hin as [<- | Hin].
  - rewrite String.eqb_refl. reflexivity.
  - destruct (String.eqb_spec (fst q) (fst p)) as [He|He].
    + exfalso. apply Hnin. rewrite He. apply in_map. exact Hin.
    + apply IH; auto.
Qed.

Lemma get_prop_perm (fs fs' : list (string * jval)) (k : string) :
  Permutation fs fs' -> NoDup (map fst fs) -> get_prop k (JObj fs) = get_prop k (JObj fs').
Proof.
  intros Hp Hnd.
  assert (Hnd' : NoDup (map fst fs')) by
    (apply (Permutation_NoDup (Permutation_map fst Hp)); exact Hnd).
  unfold get_prop. cbn [own_props].
  destruct (find (fun p => String.eqb (fst p) k) fs) as [p|] eqn:Hf.
  - apply find_some in Hf. destruct Hf as [Hin He]. apply String.eqb_eq in He.
    rewrite (find_key_in fs' k p Hnd' (Permutation_in p Hp Hin) He). reflexivity.
  - destruct (find (fun p => String.eqb (fst p) k) fs') as [p|] eqn:Hf'; [|reflexivity].
    apply find_some in Hf'. destruct Hf' as [Hin He]. apply String.eqb_eq in He.
    rewrite (find_key_in fs k p Hnd (Permutation_in p (Permutation_sym Hp) Hin) He) in Hf.
    discriminate.
Qed.

Lemma hash_perm (fs fs' : list (string * jval)) :
  Permutation fs fs' -> NoDup (map fst fs) -> _hashFilters (JObj fs) = _hashFilters (JObj fs').
Proof.
  intros Hp Hnd. unfold _hashFilters. cbn [own_props].
  rewrite (sort_perm _ _ (Permutation_map fst Hp)).
  rewrite (map_ext (fun key => (key ++ ":" ++ js_String (get_prop key (JObj fs)))%string)
                   (fun key => (key ++ ":" ++ js_String (get_prop key (JObj fs')))%string)).
  - reflexivity.
  - intros k. rewrite (get_prop_perm fs fs' k Hp Hnd). reflexivity.
Qed.

(** [_hashFilters] sorts the keys: two filter objects with the same
    properties, in any order, give one hash and one list key. *)
Theorem hashFilters_order_independent (fs fs' : list (string * jval)) :
  Permutation fs fs' -> NoDup (map fst fs) ->
  _hashFilters (JObj fs) = _hashFilters (JObj fs') /\
  forall userId, key_userTasks userId (JObj fs) = key_userTasks userId (JObj fs').
Proof.
  intros Hp Hnd. pose proof (hash_perm fs fs' Hp Hnd) as H.
  split; [exact H|]. intros u. unfold key_userTasks. rewrite H. reflexivity.
Qed.

Lemma hashFilters_order_independent_witness :
  Permutation [("priority", JStr "high"); ("completed", JBool false)]
              [("completed", JBool false); ("priority", JStr "high")] /\
  NoDup (map fst [("priority", JStr "high"); ("completed", JBool false)]) /\
  (_hashFilters (JObj [("priority", JStr "high"); ("completed", JBool false)]) =
   _hashFilters (JObj [("completed", JBool false); ("priority", JStr "high")]) /\
   forall userId, key_userTasks userId (JObj [("priority", JStr "high"); ("completed", JBool false)]) =
                  key_userTasks userId (JObj [("completed", JBool false); ("priority", JStr "high")])).
Proof.
  assert (Hp : Permutation [("priority", JStr "high"); ("completed", JBool false)]
                           [("completed", JBool false); ("priority", JStr "high")])
    by apply perm_swap.
  assert (Hn : NoDup (map fst [("priority", JStr "high"); ("completed", JBool false)])).
  { cbn. constructor; [cbn; intros [H|[]]; discriminate H|].
    constructor; [intros []|constructor]. }
  split; [exact Hp|]. split; [exact Hn|].
  apply hashFilters_order_independent; [exact Hp|exact Hn].
Defined.

(** *** [set] and [get] on a backend that answers *)

Lemma set_ok (k : string) (v : jval) (ttl : option Z) (w : world) (s : string) :
  isHealthy w = true -> faults w = [] -> stored_text v = Some s ->
  set k v ttl w =
  (Ok true,
   mkWorld (isAvailable w) (redis w) (default_ttl w)
     (store_put (mkEntry k (match ttl with
                            | Some t => if Z.eqb t 0 then default_ttl w else t
                            | None => default_ttl w
                            end) s) (slots w)) []
     (log w ++ [CSetEx k (match ttl with
                          | Some t => if Z.eqb t 0 then default_ttl w else t
                          | None => default_ttl w
                          end) s])).
Proof.
  intros Hh Hf Hs. destruct w as [av rd dt sl fs lg]. cbn in Hf |- *. subst fs.
  rewrite CacheSvcFacts.set_unfold. unfold when_healthy. rewrite Hh. unfold try_catch.
  unfold set_body, stored_text in *.
  destruct v as [| |b|n|str|xs|kvs]; cbn in Hs; try discriminate;
    try (destruct b); try (injection Hs as <-); reflexivity.
Qed.

Lemma get_ok (k : string) (w : world) :
  isHealthy w = true -> faults w = [] ->
  fst (get k w) =
  Ok (match lookup k (slots w) with
      | Some txt => if truthy (JStr txt)
                    then match parse txt with Some x => x | None => JNull end
                    else JNull
      | None => JNull
      end).
Proof.
  intros Hh Hf. destruct w as [av rd dt sl fs lg]. cbn in Hf. subst fs. cbn [slots].
  unfold get, when_healthy. rewrite Hh.
  unfold try_catch, bind at 1, r_get, backend. cbn [faults slots].
  destruct (lookup k sl) as [txt|]; [|reflexivity].
  destruct (truthy (JStr txt)); [|reflexivity].
  destruct (parse txt); [reflexivity|].
  unfold throw, _handleError, bind, ret. cbn. reflexivity.
Qed.

Lemma stored_text_clean (v : jval) :
  clean v = true -> (forall s, v <> JStr s) -> stored_text v = Some (text v).
Proof.
  intros Hc Hn. unfold stored_text.
  destruct v; try (apply stringify_text; exact Hc). exfalso. eapply Hn. reflexivity.
Qed.

(** The list cache of [CacheService] round-trips a value that is not a
    string through [setUserTasks] and [getUserTasks], also when the
    reader lists the filter properties in another order. *)
Theorem setUserTasks_getUserTasks_reordered (userId data : jval) (fs fs' : list (string * jval))
  (ttl : option Z) (w : world) :
  isHealthy w = true -> faults w = [] ->
  Permutation fs fs' -> NoDup (map fst fs) ->
  clean data = true -> (forall s, data <> JStr s) ->
  exists w1, setUserTasks userId (JObj fs) data ttl w = (Ok true, w1) /\
             fst (getUserTasks userId (JObj fs') w1) = Ok data.
Proof.
  intros Hh Hf Hp Hnd Hc Hn.
  unfold setUserTasks, getUserTasks. cbn [filters_default].
  rewrite (set_ok _ _ _ w (text data) Hh Hf (stored_text_clean data Hc Hn)).
  eexists. split; [reflexivity|].
  rewrite get_ok by (first [exact Hh | reflexivity]).
  replace (key_userTasks userId (JObj fs')) with (key_userTasks userId (JObj fs))
    by (unfold key_userTasks; rewrite (hash_perm fs fs' Hp Hnd); reflexivity).
  cbn [slots].
  match goal with
  | |- context [lookup ?k (store_put (mkEntry ?k ?t ?s) ?sl)] =>
      change (lookup k (store_put (mkEntry k t s) sl))
        with (lookup (e_key (mkEntry k t s)) (store_put (mkEntry k t s) sl))
  end.
  rewrite CacheSvcFacts.lookup_store_put. cbn [e_val].
  rewrite (truthy_text data Hc), (parse_text data Hc). reflexivity.
Qed.

Lemma setUserTasks_getUserTasks_reordered_witness :
  isHealthy w_fresh = true /\ faults w_fresh = [] /\
  Permutation [("priority", JStr "high"); ("completed", JBool false)]
              [("completed", JBool false); ("priority", JStr "high")] /\
  NoDup (map fst [("priority", JStr "high"); ("completed", JBool false)]) /\
  clean (JArr [JNum 1]) = true /\ (forall s, JArr [JNum 1] <> JStr s) /\
  exists w1,
    setUserTasks (JNum 1) (JObj [("priority", JStr "high"); ("completed", JBool false)])
      (JArr [JNum 1]) None w_fresh = (Ok true, w1) /\
    fst (getUserTasks (JNum 1) (JObj [("completed", JBool false); ("priority", JStr "high")]) w1)
      = Ok (JArr [JNum 1]).
Proof.
  assert (Hp : Permutation [("priority", JStr "high"); ("completed", JBool false)]
                           [("completed", JBool false); ("priority", JStr "high")])
    by apply perm_swap.
  assert (Hn : NoDup (map fst [("priority", JStr "high"); ("completed", JBool false)])).
  { cbn. constructor; [cbn; intros [H|[]]; discriminate H|].
    constructor; [intros []|constructor]. }
  assert (Hs : forall s, JArr [JNum 1] <> JStr s) by (intros s H; discriminate H).
  split; [reflexivity|]. split; [reflexivity|]. split; [exact Hp|]. split; [exact Hn|].
  split; [reflexivity|]. split; [exact Hs|].
  apply setUserTasks_getUserTasks_reordered; first [reflexivity | exact Hp | exact Hn | exact Hs].
Defined.

(** *** The TTL of the typed setters *)

Lemma ttl_or_nonzero (ttl : option Z) (d : Z) : d <> 0%Z -> Z.eqb (ttl_or ttl d) 0 = false.
Proof.
  intros Hd. destruct ttl as [t|]; cbn [ttl_or]; [destruct (Z.eqb_spec t 0)|];
    apply Z.eqb_neq; auto.
Qed.

(** [setUserTasks], [setUserTask] and [setUserStats] resolve to [true]
    and send one [SETEX] with the caller's TTL when it is given and not
    [0], else with 300, 1800 and 7200 seconds; the service's default TTL
    is never what they send. *)
Theorem typed_setters_ttl (userId x data : jval) (ttl : option Z) (w : world) (s : string) :
  isHealthy w = true -> faults w = [] -> stored_text data = Some s ->
  fst (setUserTasks userId x data ttl w) = Ok true /\
  log (snd (setUserTasks userId x data ttl w)) =
    log w ++ [CSetEx (key_userTasks userId (filters_default x)) (ttl_or ttl ttl_short) s] /\
  fst (setUserTask userId x data ttl w) = Ok true /\
  log (snd (setUserTask userId x data ttl w)) =
    log w ++ [CSetEx (key_userTask userId x) (ttl_or ttl ttl_medium) s] /\
  fst (setUserStats userId data ttl w) = Ok true /\
  log (snd (setUserStats userId data ttl w)) =
    log w ++ [CSetEx (key_userStats userId) (ttl_or ttl ttl_long) s].
Proof.
  intros Hh Hf Hs. unfold setUserTasks, setUserTask, setUserStats.
  rewrite !(set_ok _ _ _ w s Hh Hf Hs).
  rewrite !ttl_or_nonzero by (unfold ttl_short, ttl_medium, ttl_long; lia).
  repeat split.
Qed.

Lemma typed_setters_ttl_witness :
  isHealthy w_fresh = true /\ faults w_fresh = [] /\ stored_text (JNum 5) = Some "5" /\
  (fst (setUserTasks (JNum 1) JUndef (JNum 5) (Some 0%Z) w_fresh) = Ok true /\
   log (snd (setUserTasks (JNum 1) JUndef (JNum 5) (Some 0%Z) w_fresh)) =
     log w_fresh ++ [CSetEx (key_userTasks (JNum 1) (filters_default JUndef))
                            (ttl_or (Some 0%Z) ttl_short) "5"] /\
   fst (setUserTask (JNum 1) JUndef (JNum 5) (Some 0%Z) w_fresh) = Ok true /\
   log (snd (setUserTask (JNum 1) JUndef (JNum 5) (Some 0%Z) w_fresh)) =
     log w_fresh ++ [CSetEx (key_userTask (JNum 1) JUndef) (ttl_or (Some 0%Z) ttl_medium) "5"] /\
   fst (setUserStats (JNum 1) (JNum 5) (Some 0%Z) w_fresh) = Ok true /\
   log (snd (setUserStats (JNum 1) (JNum 5) (Some 0%Z) w_fresh)) =
     log w_fresh ++ [CSetEx (key_userStats (JNum 1)) (ttl_or (Some 0%Z) ttl_long) "5"]).
Proof.
  split; [reflexivity|]. split; [reflexivity|]. split; [reflexivity|].
  apply (typed_setters_ttl (JNum 1) JUndef (JNum 5) (Some 0%Z) w_fresh "5"); reflexivity.
Defined.

(** *** [del] then [exists] *)

Lemma lookup_store_remove (k k' : string) (sl : list (option entry)) :
  lookup k' (store_remove k sl) = if String.eqb k k' then None else lookup k' sl.
Proof.
  unfold store_remove. induction sl as [|[e|] r IH]; cbn [map lookup slot_has].
  - destruct (String.eqb k k'); reflexivity.
  - destruct (String.eqb_spec (e_key e) k) as [Hk|Hk]; cbn [lookup].
    + rewrite IH. subst k. destruct (String.eqb (e_key e) k'); reflexivity.
    + rewrite IH. destruct (String.eqb_spec k k'), (String.eqb_spec (e_key e) k');
        first [reflexivity | congruence].
  - exact IH.
Qed.

Lemma existsb_store_remove (k : string) (sl : list (option entry)) :
  existsb (slot_has k) (store_remove k sl) = false.
Proof.
  unfold store_remove. induction sl as [|[e|] r IH]; cbn [map existsb slot_has]; [reflexivity| |exact IH].
  destruct (String.eqb (e_key e) k) eqn:E; cbn [existsb slot_has]; [exact IH|].
  rewrite E. exact IH.
Qed.

Lemma store_del_single (k : string) (sl : list (option entry)) :
  store_del [k] sl = (if existsb (slot_has k) sl then 1%Z else 0%Z, store_remove k sl).
Proof. cbn. destruct (existsb (slot_has k) sl); reflexivity. Qed.

(** On a healthy service whose backend answers, [del(key)] resolves to
    whether the key existed; [exists(key)] then resolves to [false],
    and the key alone is gone from the backend. *)
Theorem del_then_exists (key : string) (w : world) :
  isHealthy w = true -> faults w = [] ->
  exists w1 w2,
    del key w = (Ok (existsb (slot_has key) (slots w)), w1) /\
    exists_ key w1 = (Ok false, w2) /\
    (forall k, lookup k (slots w2) = if String.eqb key k then None else lookup k (slots w)).
Proof.
  intros Hh Hf. destruct w as [av rd dt sl fs lg]. unfold isHealthy in Hh. cbn in Hf, Hh. subst fs. cbn [slots].
  exists (mkWorld av rd dt (store_remove key sl) [] (lg ++ [CDel [key]])).
  exists (mkWorld av rd dt (store_remove key sl) [] ((lg ++ [CDel [key]]) ++ [CExists key])).
  split; [|split].
  - unfold del, when_healthy, isHealthy. cbn [isAvailable redis]. rewrite Hh.
    unfold try_catch, bind, r_del, backend, ret. cbn [faults slots].
    rewrite store_del_single. destruct (existsb (slot_has key) sl); reflexivity.
  - unfold exists_, when_healthy, isHealthy. cbn [isAvailable redis]. rewrite Hh.
    unfold try_catch, bind, r_exists, backend, ret. cbn [faults slots].
    rewrite existsb_store_remove. reflexivity.
  - intros k. cbn [slots]. apply lookup_store_remove.
Qed.

Lemma del_then_exists_witness :
  isHealthy w_sweep = true /\ faults w_sweep = [] /\
  exists w1 w2,
    del "user:2:stats" w_sweep = (Ok (existsb (slot_has "user:2:stats") (slots w_sweep)), w1) /\
    exists_ "user:2:stats" w1 = (Ok false, w2) /\
    (forall k, lookup k (slots w2) =
               if String.eqb "user:2:stats" k then None else lookup k (slots w_sweep)).
Proof.
  split; [reflexivity|]. split; [reflexivity|].
  apply del_then_exists; reflexivity.
Defined.

(** *** Sweeps of a prefix *)

Lemma sweep_ok (pattern : string) (w : world) :
  isHealthy w = true ->
  faults w = [] ->
  NoDup (present_keys (slots w)) ->
  invalidateCachePattern pattern w =
  (Ok (mkSummary (Z.of_nat (length (filter (glob pattern) (present_keys (slots w)))))
                 (Some pattern) None (Some true)),
   mkWorld (isAvailable w) (redis w) (default_ttl w)
     (map (killp pattern) (slots w)) []
     (log w ++ concat (map (page_cmds pattern (slots w)) (page_starts (length (slots w)))))).
Proof.
  intros Hh Hf Hnd. unfold invalidateCachePattern. rewrite Hh. cbv beta iota. cbn [negb].
  unfold try_catch, bind at 1.
  change (scan_loop ?f pattern 0 0%Z w) with (scan_loop f pattern (batchSize * 0) 0%Z w).
  rewrite (CacheSvcFacts.scan_loop_pages pattern (slots w) Hnd (npages (length (slots w))) 0 0%Z w).
  - unfold ret. rewrite Z.add_0_l. reflexivity.
  - reflexivity.
  - exact Hf.
  - left. reflexivity.
  - reflexivity.
  - pose proof (CacheSvcFacts.npages_bounds (length (slots w))). unfold npages, batchSize in *. lia.
Qed.

Lemma lookup_killp (p k : string) (sl : list (option entry)) :
  lookup k (map (killp p) sl) = if glob p k then None else lookup k sl.
Proof.
  induction sl as [|[e|] r IH]; cbn [map killp lookup].
  - destruct (glob p k); reflexivity.
  - destruct (glob p (e_key e)) eqn:G; cbn [lookup]; rewrite ?IH;
      destruct (String.eqb_spec (e_key e) k) as [<-|Hne]; rewrite ?G; reflexivity.
  - exact IH.
Qed.

Lemma present_keys_killp (p : string) (sl : list (option entry)) :
  present_keys (map (killp p) sl) = filter (fun k => negb (glob p k)) (present_keys sl).
Proof.
  induction sl as [|[e|] r IH]; cbn [map killp present_keys filter]; [reflexivity| |exact IH].
  destruct (glob p (e_key e)); cbn [present_keys negb filter]; rewrite IH; reflexivity.
Qed.

Lemma glob_star (s : string) : glob "*" s = true.
Proof. reflexivity. Qed.

Lemma nesting_ok (n : nat) : n <= 1000 -> Nat.ltb 1000 n = false.
Proof. intros H. apply Nat.ltb_ge. exact H. Qed.

Lemma glob_at_literal (n : nat) (c d : ascii) (p s : string) :
  is_wild c = false -> n <= 1000 ->
  glob_at n (String c p) (String d s) =
  Ascii.eqb c d && match s with EmptyString => all_stars p | _ => glob_at n p s end.
Proof.
  intros Hc Hn. cbn [glob_at]. rewrite (nesting_ok n Hn).
  destruct c as [[] [] [] [] [] [] [] []]; try discriminate Hc; reflexivity.
Qed.

Lemma strip_stars_literal (c : ascii) (p : string) :
  is_wild c = false -> strip_stars (String c p) = String c p.
Proof.
  intros Hc. destruct c as [[] [] [] [] [] [] [] []]; try discriminate Hc; reflexivity.
Qed.

Lemma glob_at_prefix (p s : string) (n : nat) :
  n <= 1000 -> no_wild p = true -> p <> EmptyString ->
  glob_at n (p ++ "*") s = starts_with p s.
Proof.
  intros Hn. revert s. induction p as [|c p IH]; intros s Hp Hne; [congruence|].
  unfold no_wild in Hp. cbn [forall_chars] in Hp. apply andb_prop in Hp as [Hc Hp].
  apply negb_true_iff in Hc.
  destruct s as [|d s].
  - cbn [append glob_at]. destruct (Nat.ltb 1000 n); reflexivity.
  - cbn [append]. rewrite (glob_at_literal n c d _ _ Hc Hn). cbn [starts_with].
    destruct (Ascii.eqb c d); [cbn [andb]|reflexivity].
    destruct p as [|c' p].
    + destruct s; [reflexivity|]. cbn [append glob_at]. rewrite (nesting_ok n Hn).
      destruct s; reflexivity.
    + assert (Hc' : is_wild c' = false).
      { unfold no_wild in Hp. cbn [forall_chars] in Hp. apply andb_prop in Hp as [Hc' _].
        apply negb_true_iff in Hc'. exact Hc'. }
      destruct s as [|d' s].
      * unfold all_stars. cbn [append]. rewrite (strip_stars_literal c' _ Hc'). reflexivity.
      * apply IH; [exact Hp | discriminate].
Qed.

Lemma forall_chars_app (f : ascii -> bool) (a b : string) :
  forall_chars f (a ++ b) = forall_chars f a && forall_chars f b.
Proof.
  induction a as [|c a IH]; [reflexivity|]. cbn [append forall_chars].
  rewrite IH, andb_assoc. reflexivity.
Qed.

(** A glob made of a prefix with no wildcard and one trailing [*]
    matches the keys starting with the prefix. *)
Lemma glob_prefix (p s : string) : no_wild p = true -> glob (p ++ "*") s = starts_with p s.
Proof.
  intros Hp. destruct p as [|c p0]; [apply glob_star|].
  unfold glob. cbn [append].
  assert (He : String.eqb (String c (p0 ++ "*")) "*" = false).
  { cbn [String.eqb]. destruct p0; cbn; apply andb_false_r. }
  rewrite He. cbn [orb].
  exact (glob_at_prefix (String c p0) s 0 ltac:(lia) Hp ltac:(discriminate)).
Qed.

Lemma starts_with_app (a b c : string) : starts_with (a ++ b) (a ++ c) = starts_with b c.
Proof.
  induction a as [|x a IH]; [reflexivity|]. cbn [append starts_with].
  rewrite Ascii.eqb_refl. exact IH.
Qed.

Lemma digit_char_ok (f : ascii -> bool) :
  forallb f (map digit_char [0; 1; 2; 3; 4; 5; 6; 7; 8; 9]%N) = true ->
  forall d, (d < 10)%N -> f (digit_char d) = true.
Proof.
  intros H d Hd. rewrite forallb_forall in H. apply H. apply in_map.
  assert (Hc : (d = 0 \/ d = 1 \/ d = 2 \/ d = 3 \/ d = 4 \/ d = 5 \/ d = 6 \/ d = 7
               \/ d = 8 \/ d = 9)%N) by lia.
  destruct Hc as [->|[->|[->|[->|[->|[->|[->|[->|[->| ->]]]]]]]]]; cbn; auto 20.
Qed.

(** The characters of [String(n)]: digits and the minus sign. *)
Lemma z_to_string_chars (f : ascii -> bool) (z : Z) :
  f "-"%char = true -> (forall d, (d < 10)%N -> f (digit_char d) = true) ->
  forall_chars f (z_to_string z) = true.
Proof.
  intros Hm Hd.
  assert (Hdig : forall fuel n acc, forall_chars f acc = true ->
                 forall_chars f (digits_of fuel n acc) = true).
  { induction fuel as [|fu IH]; intros n acc Ha; [exact Ha|]. cbn [digits_of].
    assert (H' : forall_chars f (String (digit_char (n mod 10)) acc) = true).
    { cbn [forall_chars]. rewrite Hd by (apply N.mod_lt; discriminate). exact Ha. }
    destruct (N.div n 10 =? 0)%N; [exact H'|apply IH; exact H']. }
  unfold z_to_string. destruct (z <? 0)%Z.
  - cbn [append forall_chars]. rewrite Hm. apply Hdig. reflexivity.
  - apply Hdig. reflexivity.
Qed.

Lemma no_wild_z (z : Z) : no_wild (z_to_string z) = true.
Proof.
  apply z_to_string_chars; [reflexivity|].
  exact (digit_char_ok (fun c => negb (is_wild c)) eq_refl).
Qed.

Lemma no_colon_z (z : Z) : forall_chars (fun c => negb (Ascii.eqb c ":"%char)) (z_to_string z) = true.
Proof.
  apply z_to_string_chars; [reflexivity|].
  exact (digit_char_ok (fun c => negb (Ascii.eqb c ":"%char)) eq_refl).
Qed.

Lemma z_to_string_inj (u v : Z) : z_to_string u = z_to_string v -> u = v.
Proof.
  intros H. pose proof (parse_text (JNum u) eq_refl) as Hu.
  pose proof (parse_text (JNum v) eq_refl) as Hv.
  unfold text in Hu, Hv. cbn [stringify] in Hu, Hv. rewrite H in Hu. rewrite Hu in Hv. congruence.
Qed.

Lemma starts_with_sep (a b r : string) (sep : ascii) :
  forall_chars (fun c => negb (Ascii.eqb c sep)) a = true ->
  forall_chars (fun c => negb (Ascii.eqb c sep)) b = true ->
  starts_with (a ++ String sep EmptyString) (b ++ String sep r) = true -> a = b.
Proof.
  revert b. induction a as [|x a IH]; intros b Ha Hb H; destruct b as [|y b].
  - reflexivity.
  - cbn in H, Hb. apply andb_prop in H as [H _]. apply Ascii.eqb_eq in H. subst y.
    rewrite Ascii.eqb_refl in Hb. cbn in Hb. discriminate Hb.
  - cbn in H, Ha. apply andb_prop in H as [H _]. apply Ascii.eqb_eq in H. subst x.
    rewrite Ascii.eqb_refl in Ha. cbn in Ha. discriminate Ha.
  - cbn in H, Ha, Hb. apply andb_prop in H as [Hxy H]. apply Ascii.eqb_eq in Hxy. subst y.
    apply andb_prop in Ha as [_ Ha]. apply andb_prop in Hb as [_ Hb].
    f_equal. apply IH; assumption.
Qed.

Ltac nodup_strings :=
  cbn; repeat (apply NoDup_cons;
               [cbn; let Hin := fresh "Hin" in
                     intros Hin; repeat (destruct Hin as [Hin|Hin]; [discriminate Hin|]);
                     exact Hin|]);
  apply NoDup_nil.

(** [invalidateUserTasksCache(userId)] for a numeric id, on a healthy
    service whose backend answers: it deletes exactly the keys starting
    with [user:<id>:tasks:] and counts them.  Every list key of the user
    is among them; the user's task and stats entries stay. *)
Theorem invalidateUserTasksCache_scope (u : Z) (w : world) :
  isHealthy w = true -> faults w = [] -> NoDup (present_keys (slots w)) ->
  exists s w1,
    invalidateUserTasksCache (JNum u) w = (Ok s, w1) /\
    deleted s = Z.of_nat (length (filter (starts_with ("user:" ++ z_to_string u ++ ":tasks:"))
                                         (present_keys (slots w)))) /\
    (forall k, lookup k (slots w1) =
               if starts_with ("user:" ++ z_to_string u ++ ":tasks:") k then None
               else lookup k (slots w)) /\
    (forall filters, lookup (key_userTasks (JNum u) filters) (slots w1) = None) /\
    (forall taskId, lookup (key_userTask (JNum u) taskId) (slots w1) =
                    lookup (key_userTask (JNum u) taskId) (slots w)) /\
    lookup (key_userStats (JNum u)) (slots w1) = lookup (key_userStats (JNum u)) (slots w).
Proof.
  intros Hh Hf Hnd.
  assert (Hglob : forall k, glob ("user:" ++ z_to_string u ++ ":tasks:*") k =
                            starts_with ("user:" ++ z_to_string u ++ ":tasks:") k).
  { intros k. replace ("user:" ++ z_to_string u ++ ":tasks:*")%string
      with (("user:" ++ z_to_string u ++ ":tasks:") ++ "*")%string by (rewrite !sapp_assoc; reflexivity).
    apply glob_prefix. unfold no_wild. rewrite !forall_chars_app.
    change (forall_chars (fun c => negb (is_wild c)) (z_to_string u))
      with (no_wild (z_to_string u)).
    rewrite no_wild_z. reflexivity. }
  assert (Hlk : forall k, lookup k (map (killp ("user:" ++ z_to_string u ++ ":tasks:*")) (slots w)) =
                          if starts_with ("user:" ++ z_to_string u ++ ":tasks:") k then None
                          else lookup k (slots w)).
  { intros k. rewrite lookup_killp, Hglob. reflexivity. }
  unfold invalidateUserTasksCache. cbn [js_String]. rewrite (sweep_ok _ w Hh Hf Hnd).
  do 2 eexists. split; [reflexivity|]. cbn [deleted slots].
  split; [|split; [exact Hlk|split; [|split]]].
  - rewrite (filter_ext _ _ Hglob). reflexivity.
  - intros filters. rewrite Hlk. unfold key_userTasks. cbn [js_String].
    rewrite !starts_with_app. reflexivity.
  - intros taskId. rewrite Hlk. unfold key_userTask. cbn [js_String].
    rewrite !starts_with_app. reflexivity.
  - rewrite Hlk. unfold key_userStats. cbn [js_String].
    rewrite !starts_with_app. reflexivity.
Qed.

Lemma invalidateUserTasksCache_scope_witness :
  isHealthy w_sweep = true /\ faults w_sweep = [] /\ NoDup (present_keys (slots w_sweep)) /\
  exists s w1,
    invalidateUserTasksCache (JNum 1) w_sweep = (Ok s, w1) /\
    deleted s = Z.of_nat (length (filter (starts_with ("user:" ++ z_to_string 1 ++ ":tasks:"))
                                         (present_keys (slots w_sweep)))) /\
    (forall k, lookup k (slots w1) =
               if starts_with ("user:" ++ z_to_string 1 ++ ":tasks:") k then None
               else lookup k (slots w_sweep)) /\
    (forall filters, lookup (key_userTasks (JNum 1) filters) (slots w1) = None) /\
    (forall taskId, lookup (key_userTask (JNum 1) taskId) (slots w1) =
                    lookup (key_userTask (JNum 1) taskId) (slots w_sweep)) /\
    lookup (key_userStats (JNum 1)) (slots w1) = lookup (key_userStats (JNum 1)) (slots w_sweep).
Proof.
  assert (Hn : NoDup (present_keys (slots w_sweep))) by nodup_strings.
  split; [reflexivity|]. split; [reflexivity|]. split; [exact Hn|].
  apply invalidateUserTasksCache_scope; [reflexivity|reflexivity|exact Hn].
Defined.

(** [invalidateUserCache(userId)] for a numeric id, on a healthy service
    whose backend answers: it deletes exactly the keys starting with
    [user:<id>:] and counts them; no key of another user is touched. *)
Theorem invalidateUserCache_scope (u : Z) (w : world) :
  isHealthy w = true -> faults w = [] -> NoDup (present_keys (slots w)) ->
  exists s w1,
    invalidateUserCache (JNum u) w = (Ok s, w1) /\
    deleted s = Z.of_nat (length (filter (starts_with ("user:" ++ z_to_string u ++ ":"))
                                         (present_keys (slots w)))) /\
    (forall k, lookup k (slots w1) =
               if starts_with ("user:" ++ z_to_string u ++ ":") k then None
               else lookup k (slots w)) /\
    (forall v rest, v <> u ->
       lookup ("user:" ++ z_to_string v ++ ":" ++ rest) (slots w1) =
       lookup ("user:" ++ z_to_string v ++ ":" ++ rest) (slots w)).
Proof.
  intros Hh Hf Hnd.
  assert (Hglob : forall k, glob ("user:" ++ z_to_string u ++ ":*") k =
                            starts_with ("user:" ++ z_to_string u ++ ":") k).
  { intros k. replace ("user:" ++ z_to_string u ++ ":*")%string
      with (("user:" ++ z_to_string u ++ ":") ++ "*")%string by (rewrite !sapp_assoc; reflexivity).
    apply glob_prefix. unfold no_wild. rewrite !forall_chars_app.
    change (forall_chars (fun c => negb (is_wild c)) (z_to_string u))
      with (no_wild (z_to_string u)).
    rewrite no_wild_z. reflexivity. }
  assert (Hlk : forall k, lookup k (map (killp ("user:" ++ z_to_string u ++ ":*")) (slots w)) =
                          if starts_with ("user:" ++ z_to_string u ++ ":") k then None
                          else lookup k (slots w)).
  { intros k. rewrite lookup_killp, Hglob. reflexivity. }
  unfold invalidateUserCache. cbn [js_String]. rewrite (sweep_ok _ w Hh Hf Hnd).
  do 2 eexists. split; [reflexivity|]. cbn [deleted slots].
  split; [|split; [exact Hlk|]].
  - rewrite (filter_ext _ _ Hglob). reflexivity.
  - intros v rest Hvu. rewrite Hlk. rewrite starts_with_app.
    destruct (starts_with (z_to_string u ++ ":") (z_to_string v ++ ":" ++ rest)) eqn:E;
      [|reflexivity].
    exfalso. apply Hvu. symmetry. apply z_to_string_inj.
    exact (starts_with_sep (z_to_string u) (z_to_string v) rest ":"%char
             (no_colon_z u) (no_colon_z v) E).
Qed.

Lemma invalidateUserCache_scope_witness :
  isHealthy w_sweep = true /\ faults w_sweep = [] /\ NoDup (present_keys (slots w_sweep)) /\
  exists s w1,
    invalidateUserCache (JNum 1) w_sweep = (Ok s, w1) /\
    deleted s = Z.of_nat (length (filter (starts_with ("user:" ++ z_to_string 1 ++ ":"))
                                         (present_keys (slots w_sweep)))) /\
    (forall k, lookup k (slots w1) =
               if starts_with ("user:" ++ z_to_string 1 ++ ":") k then None
               else lookup k (slots w_sweep)) /\
    (forall v rest, v <> 1%Z ->
       lookup ("user:" ++ z_to_string v ++ ":" ++ rest) (slots w1) =
       lookup ("user:" ++ z_to_string v ++ ":" ++ rest) (slots w_sweep)).
Proof.
  assert (Hn : NoDup (present_keys (slots w_sweep))) by nodup_strings.
  split; [reflexivity|]. split; [reflexivity|]. split; [exact Hn|].
  apply invalidateUserCache_scope; [reflexivity|reflexivity|exact Hn].
Defined.

(** *** Several patterns *)

Lemma filter_or_length (f g : string -> bool) (l : list string) :
  length (filter (fun k => f k || g k) l) =
  length (filter f l) + length (filter g (filter (fun k => negb (f k)) l)).
Proof.
  induction l as [|a r IH]; [reflexivity|]. cbn [filter].
  destruct (f a) eqn:Ef, (g a) eqn:Eg; cbn [orb negb filter length]; rewrite ?Eg; cbn [length];
    rewrite IH; lia.
Qed.

Lemma filter_cons_length (p : string) (ps : list string) (l : list string) :
  length (filter (fun k => existsb (fun q => glob q k) (p :: ps)) l) =
  length (filter (glob p) l) +
  length (filter (fun k => existsb (fun q => glob q k) ps) (filter (fun k => negb (glob p k)) l)).
Proof. exact (filter_or_length (glob p) (fun k => existsb (fun q => glob q k) ps) l). Qed.

Lemma sum_deleted_shift (rs : list summary) (a : Z) :
  fold_left (fun sum result => (sum + deleted result)%Z) rs a =
  (a + fold_left (fun sum result => (sum + deleted result)%Z) rs 0)%Z.
Proof.
  revert a. induction rs as [|r rs IH]; intros a; cbn [fold_left]; [lia|].
  rewrite IH, (IH (0 + deleted r)%Z). lia.
Qed.

Lemma invalidate_each_ok (ps : list string) : forall w,
  isHealthy w = true -> faults w = [] -> NoDup (present_keys (slots w)) ->
  exists results w1,
    invalidate_each ps w = (Ok results, w1) /\
    length results = length ps /\
    fold_left (fun sum result => (sum + deleted result)%Z) results 0%Z =
      Z.of_nat (length (filter (fun k => existsb (fun p => glob p k) ps) (present_keys (slots w)))) /\
    (forall k, lookup k (slots w1) =
               if existsb (fun p => glob p k) ps then None else lookup k (slots w)).
Proof.
  induction ps as [|p ps IH]; intros w Hh Hf Hnd.
  - exists [], w. split; [reflexivity|]. split; [reflexivity|]. split.
    + cbn [existsb]. clear Hnd. induction (present_keys (slots w)) as [|a r IHr]; [reflexivity|].
      exact IHr.
    + intros k. reflexivity.
  - cbn [invalidate_each]. unfold bind at 1. rewrite (sweep_ok p w Hh Hf Hnd).
    cbv beta iota.
    destruct (IH (mkWorld (isAvailable w) (redis w) (default_ttl w)
                    (map (killp p) (slots w)) []
                    (log w ++ concat (map (page_cmds p (slots w)) (page_starts (length (slots w)))))))
      as [results [w1 [Hrun [Hlen [Hsum Hlk]]]]].
    + exact Hh.
    + reflexivity.
    + cbn [slots]. rewrite present_keys_killp. apply NoDup_filter. exact Hnd.
    + eexists (_ :: results), w1. split; [|split; [|split]].
      * unfold bind. rewrite Hrun. reflexivity.
      * cbn [length]. rewrite Hlen. reflexivity.
      * cbn [fold_left]. rewrite sum_deleted_shift, Hsum. cbn [deleted slots].
        rewrite present_keys_killp, filter_cons_length. lia.
      * intros k. rewrite Hlk. cbn [slots]. rewrite lookup_killp. cbn [existsb].
        destruct (glob p k), (existsb (fun q => glob q k) ps); reflexivity.
Qed.

(** [invalidateMultiplePatterns(patterns)] for an array of patterns, on
    a healthy service whose backend answers: it sweeps every pattern,
    one result per pattern; the keys matching some pattern are gone,
    every other key stays, and [totalDeleted] counts each deleted key
    once, also when several patterns match it. *)
Theorem invalidateMultiplePatterns_total (ps : list string) (w : world) :
  isHealthy w = true -> faults w = [] -> NoDup (present_keys (slots w)) ->
  exists r w1,
    invalidateMultiplePatterns (inl ps) w = (Ok r, w1) /\
    m_patterns r = ps /\ length (m_results r) = length ps /\
    totalDeleted r = Z.of_nat (length (filter (fun k => existsb (fun p => glob p k) ps)
                                              (present_keys (slots w)))) /\
    (forall k, lookup k (slots w1) =
               if existsb (fun p => glob p k) ps then None else lookup k (slots w)).
Proof.
  intros Hh Hf Hnd.
  destruct (invalidate_each_ok ps w Hh Hf Hnd) as [results [w1 [Hrun [Hlen [Hsum Hlk]]]]].
  eexists _, w1. split.
  - unfold invalidateMultiplePatterns, bind. rewrite Hrun. reflexivity.
  - cbn [m_patterns m_results totalDeleted]. auto.
Qed.

Lemma invalidateMultiplePatterns_total_witness :
  isHealthy w_sweep = true /\ faults w_sweep = [] /\ NoDup (present_keys (slots w_sweep)) /\
  exists r w1,
    invalidateMultiplePatterns (inl ["user:1:*"; "user:*:tasks:a"]) w_sweep = (Ok r, w1) /\
    m_patterns r = ["user:1:*"; "user:*:tasks:a"] /\
    length (m_results r) = length ["user:1:*"; "user:*:tasks:a"] /\
    totalDeleted r = Z.of_nat (length (filter (fun k => existsb (fun p => glob p k)
                                                          ["user:1:*"; "user:*:tasks:a"])
                                              (present_keys (slots w_sweep)))) /\
    (forall k, lookup k (slots w1) =
               if existsb (fun p => glob p k) ["user:1:*"; "user:*:tasks:a"] then None
               else lookup k (slots w_sweep)).
Proof.
  assert (Hn : NoDup (present_keys (slots w_sweep))) by nodup_strings.
  split; [reflexivity|]. split; [reflexivity|]. split; [exact Hn|].
  apply invalidateMultiplePatterns_total; [reflexivity|reflexivity|exact Hn].
Defined.

End CacheSvcMoreFacts.

Module ErrorFacts.
Import ErrorHandler.

(** *** Status codes and the client-facing error *)

Ltac split_chain :=
  repeat match goal with |- context [if ?b then _ else _] => destruct b eqn:? end.

(** Every response of [sanitizeErrorForClient] has [success: false]; its
    status is a 4xx code, or 500 with the fixed internal-error object, or
    503 with the fixed service-unavailable object: a 5xx response never
    carries the error's own message or code. *)
Theorem sanitize_status_cases (err : exn) (errors : option (list string)) (stack : option string)
  (errorId : string) (isProduction : bool) :
  get_prop "success" (snd (sanitizeErrorForClient err errors stack errorId isProduction)) = JBool false /\
  ((400 <= fst (sanitizeErrorForClient err errors stack errorId isProduction) < 500)%Z \/
   (fst (sanitizeErrorForClient err errors stack errorId isProduction) = 500%Z /\
    get_prop "error" (snd (sanitizeErrorForClient err errors stack errorId isProduction)) =
      JObj [("message", JStr "An internal server error occurred"); ("code", JStr "INTERNAL_ERROR");
            ("errorId", JStr errorId)]) \/
   (fst (sanitizeErrorForClient err errors stack errorId isProduction) = 503%Z /\
    get_prop "error" (snd (sanitizeErrorForClient err errors stack errorId isProduction)) =
      JObj [("message", JStr "Service temporarily unavailable"); ("code", JStr "SERVICE_UNAVAILABLE");
            ("errorId", JStr errorId)])).
Proof.
  unfold sanitizeErrorForClient. cbv beta zeta.
  destruct isProduction; [| destruct (fold_left _ _ _) as [m st]].
  all: destruct (ex_status err) as [s|].
  all: split_chain.
  all: cbn; split; [reflexivity|].
  all: first [ left; lia
             | right; left; split; reflexivity
             | right; right; split; reflexivity
             | match goal with
               | H : ((400 <=? ?s) && (?s <? 500))%Z = true |- _ =>
                   apply andb_prop in H; destruct H as [H1 H2];
                   apply Z.leb_le in H1; apply Z.ltb_lt in H2; left; lia
               end ].
Qed.

(** An error that none of the branches recognises (no known code or
    name) and whose [statusCode] is absent or outside [400..499] is
    answered with 500 and the fixed internal-error object. *)
Theorem sanitize_unrecognized_is_500 (err : exn) (errors : option (list string))
  (stack : option string) (errorId : string) (isProduction : bool) :
  (forall c, ex_code err = Some c -> ~ In c ["23505"; "23503"; "23502"; "08006"; "ENOENT"; "EACCES"]) ->
  ~ In (ex_name err) ["JsonWebTokenError"; "TokenExpiredError"; "UnauthorizedError";
                      "ValidationError"; "TooManyRequestsError"] ->
  (forall s, ex_status err = Some s -> (s < 400 \/ 500 <= s)%Z) ->
  fst (sanitizeErrorForClient err errors stack errorId isProduction) = 500%Z /\
  get_prop "error" (snd (sanitizeErrorForClient err errors stack errorId isProduction)) =
    JObj [("message", JStr "An internal server error occurred"); ("code", JStr "INTERNAL_ERROR");
          ("errorId", JStr errorId)].
Proof.
  intros Hc Hn Hs.
  assert (Hcode : forall c0, In c0 ["23505"; "23503"; "23502"; "08006"; "ENOENT"; "EACCES"] ->
            match ex_code err with Some c' => String.eqb c' c0 | None => false end = false).
  { intros c0 Hin. destruct (ex_code err) as [c|]; [|reflexivity].
    destruct (String.eqb_spec c c0) as [<-|]; [|reflexivity].
    exfalso. exact (Hc c eq_refl Hin). }
  assert (Hname : forall n0, In n0 ["JsonWebTokenError"; "TokenExpiredError"; "UnauthorizedError";
                                    "ValidationError"; "TooManyRequestsError"] ->
            String.eqb (ex_name err) n0 = false).
  { intros n0 Hin. destruct (String.eqb_spec (ex_name err) n0) as [<-|]; [|reflexivity].
    exfalso. exact (Hn Hin). }
  unfold sanitizeErrorForClient. cbv beta zeta.
  rewrite !Hcode by (cbn; tauto). rewrite !Hname by (cbn; tauto).
  assert (Hst : match ex_status err with
                | Some s => if ((400 <=? s) && (s <? 500))%Z then false else true
                | None => true
                end = true).
  { destruct (ex_status err) as [s|]; [|reflexivity].
    destruct (Hs s eq_refl) as [H|H].
    - apply Z.leb_gt in H. rewrite H. reflexivity.
    - apply Z.ltb_ge in H. rewrite H, andb_false_r. reflexivity. }
  destruct (ex_status err) as [s|]; [destruct ((400 <=? s) && (s <? 500))%Z; [discriminate Hst|]|].
  all: destruct isProduction; [| destruct (fold_left _ _ _) as [m st]]; cbn; split; reflexivity.
Qed.

Lemma sanitize_unrecognized_is_500_witness :
  (forall c, ex_code CacheSvc.cache_unavailable = Some c ->
             ~ In c ["23505"; "23503"; "23502"; "08006"; "ENOENT"; "EACCES"]) /\
  ~ In (ex_name CacheSvc.cache_unavailable)
       ["JsonWebTokenError"; "TokenExpiredError"; "UnauthorizedError";
        "ValidationError"; "TooManyRequestsError"] /\
  (forall s, ex_status CacheSvc.cache_unavailable = Some s -> (s < 400 \/ 500 <= s)%Z) /\
  (fst (sanitizeErrorForClient CacheSvc.cache_unavailable None None "e1" true) = 500%Z /\
   get_prop "error" (snd (sanitizeErrorForClient CacheSvc.cache_unavailable None None "e1" true)) =
     JObj [("message", JStr "An internal server error occurred"); ("code", JStr "INTERNAL_ERROR");
           ("errorId", JStr "e1")]).
Proof.
  assert (H1 : forall c, ex_code CacheSvc.cache_unavailable = Some c ->
                         ~ In c ["23505"; "23503"; "23502"; "08006"; "ENOENT"; "EACCES"]).
  { intros c Hc. cbn in Hc. injection Hc as <-. cbn.
    intros H; repeat (destruct H as [H|H]; [discriminate H|]); exact H. }
  assert (H2 : ~ In (ex_name CacheSvc.cache_unavailable)
                    ["JsonWebTokenError"; "TokenExpiredError"; "UnauthorizedError";
                     "ValidationError"; "TooManyRequestsError"]).
  { cbn. intros H; repeat (destruct H as [H|H]; [discriminate H|]); exact H. }
  assert (H3 : forall s, ex_status CacheSvc.cache_unavailable = Some s -> (s < 400 \/ 500 <= s)%Z).
  { intros s Hs. cbn in Hs. injection Hs as <-. right. lia. }
  split; [exact H1|]. split; [exact H2|]. split; [exact H3|].
  apply sanitize_unrecognized_is_500; assumption.
Defined.

(** [notFoundHandler] passes on an error that [sanitizeErrorForClient]
    answers with 404, the message [Route <url> not found] and the code
    [ROUTE_NOT_FOUND]. *)
Theorem notFound_response (originalUrl : string) (errors : option (list string))
  (stack : option string) (errorId : string) (isProduction : bool) :
  fst (sanitizeErrorForClient (notFoundHandler originalUrl) errors stack errorId isProduction) = 404%Z /\
  get_prop "success" (snd (sanitizeErrorForClient (notFoundHandler originalUrl) errors stack errorId isProduction))
    = JBool false /\
  get_prop "error" (snd (sanitizeErrorForClient (notFoundHandler originalUrl) errors stack errorId isProduction))
    = JObj [("message", JStr ("Route " ++ originalUrl ++ " not found"));
            ("code", JStr "ROUTE_NOT_FOUND"); ("errorId", JStr errorId)].
Proof.
  unfold sanitizeErrorForClient, notFoundHandler. cbv beta zeta. cbn [ex_code ex_name ex_status ex_message].
  cbn -[fold_left]. 
  destruct isProduction; [| destruct (fold_left _ _ _) as [m st]]; cbn; auto.
Qed.

(** *** What the development output never shows *)

Lemma sw_app_true (w a b : string) : starts_with w a = true -> starts_with w (a ++ b) = true.
Proof.
  revert a. induction w as [|x w IH]; intros a H; [reflexivity|].
  destruct a as [|y a]; [discriminate H|]. cbn in H |- *.
  apply andb_prop in H as [H1 H2]. rewrite H1. apply IH. exact H2.
Qed.

(** A character that is not in [w] stops every occurrence of [w]. *)
Lemma sw_char (d : ascii) (w a b : string) :
  forall_chars (fun c => negb (Ascii.eqb c d)) w = true ->
  starts_with w (a ++ String d b) = starts_with w a.
Proof.
  revert a. induction w as [|x w IH]; intros a Hw; [destruct a; reflexivity|].
  cbn [forall_chars] in Hw. apply andb_prop in Hw as [Hx Hw].
  destruct a as [|y a].
  - cbn. destruct (Ascii.eqb_spec x d) as [->|]; [|reflexivity].
    try rewrite Ascii.eqb_refl in Hx. discriminate Hx.
  - cbn [append starts_with]. rewrite IH by exact Hw. reflexivity.
Qed.

Lemma has_sub_char (d : ascii) (w a b : string) :
  forall_chars (fun c => negb (Ascii.eqb c d)) w = true ->
  has_sub w (a ++ String d b) = has_sub w a || has_sub w b.
Proof.
  intros Hw. induction a as [|y a IH].
  - cbn [append has_sub]. pose proof (sw_char d w EmptyString b Hw) as E. cbn [append] in E. rewrite E.
    destruct (starts_with w EmptyString); reflexivity.
  - change (String y a ++ String d b) with (String y (a ++ String d b)).
    cbn [has_sub]. rewrite IH.
    change (String y (a ++ String d b)) with (String y a ++ String d b).
    rewrite (sw_char d w (String y a) b Hw). rewrite orb_assoc. reflexivity.
Qed.

(** Where no match starts, the output copies the input up to the next
    [[REDACTED]] (or to the end). *)
Lemma out_shape (m : matcher) (r : string) :
  exists P X R, r = P ++ R /\ replace_from m r 0 = P ++ X /\
                (X = EmptyString \/ exists X', X = String "[" X').
Proof.
  induction r as [|c r IH].
  - exists EmptyString, EmptyString, EmptyString. auto.
  - cbn [replace_from]. destruct (m (String c r)) as [[|k]|].
    + destruct IH as [P [X [R [-> [Ho HX]]]]]. rewrite Ho.
      exists (String c P), X, R. auto.
    + exists EmptyString, (REDACTED ++ replace_from m r k), (String c r).
      split; [reflexivity|]. split; [reflexivity|]. right. eexists. reflexivity.
    + destruct IH as [P [X [R [-> [Ho HX]]]]]. rewrite Ho.
      exists (String c P), X, R. auto.
Qed.

Section Redaction.

(** The view of the text the check reads: the text itself, or the text
    folded to lower case for a case-insensitive word. *)
Variable V : string -> string.
Variable g : ascii -> ascii.
Hypothesis V_nil : V EmptyString = EmptyString.
Hypothesis V_cons : forall c r, V (String c r) = String (g c) (V r).
Hypothesis g_lb : g "[" = "["%char.
Hypothesis g_rb : g "]" = "]"%char.

Variable w : string.
Hypothesis w_lb : forall_chars (fun c => negb (Ascii.eqb c "[")) w = true.
Hypothesis w_rb : forall_chars (fun c => negb (Ascii.eqb c "]")) w = true.
Hypothesis w_red : has_sub w (V "[REDACTED") = false.
Hypothesis w_ne : w <> EmptyString.

Lemma V_app (a b : string) : V (a ++ b) = V a ++ V b.
Proof.
  induction a as [|c a IH]; [rewrite V_nil; reflexivity|].
  cbn [append]. rewrite !V_cons, IH. reflexivity.
Qed.

Lemma redacted_safe (y : string) : has_sub w y = false -> has_sub w (V REDACTED ++ y) = false.
Proof.
  intros Hy. change REDACTED with ("[REDACTED" ++ "]").
  rewrite V_app, (V_cons "]" EmptyString), V_nil, g_rb, JsonFacts.sapp_assoc.
  cbn [append]. rewrite (has_sub_char "]" w (V "[REDACTED") y w_rb), w_red, Hy. reflexivity.
Qed.

Lemma start_transfer (m : matcher) (c : ascii) (r : string) :
  starts_with w (V (String c r)) = false ->
  starts_with w (V (String c (replace_from m r 0))) = false.
Proof.
  destruct (out_shape m r) as [P [X [R [-> [Ho HX]]]]]. rewrite Ho.
  rewrite !V_cons, !V_app. intros H.
  destruct (starts_with w (String (g c) (V P))) eqn:E.
  - exfalso. pose proof (sw_app_true w (String (g c) (V P)) (V R) E) as H'.
    cbn [append] in H'. rewrite H' in H. discriminate H.
  - destruct HX as [-> | [X' ->]].
    + rewrite V_nil, JsonFacts.sapp_nil. exact E.
    + rewrite V_cons, g_lb.
      change (String (g c) (V P ++ String "[" (V X')))
        with (String (g c) (V P) ++ String "[" (V X')).
      rewrite (sw_char "[" w (String (g c) (V P)) (V X') w_lb). exact E.
Qed.

(** Replacing the matches of any pattern by [[REDACTED]] creates no
    occurrence of [w]. *)
Lemma replace_keeps_absent (m : matcher) (s : string) :
  forall k, has_sub w (V s) = false -> has_sub w (V (replace_from m s k)) = false.
Proof.
  induction s as [|c r IH]; intros k Hs; [exact Hs|].
  rewrite V_cons in Hs. cbn [has_sub] in Hs. apply orb_false_iff in Hs as [Hc Hr].
  rewrite <- V_cons in Hc.
  destruct k as [|k]; cbn [replace_from].
  - destruct (m (String c r)) as [[|j]|].
    + rewrite V_cons. cbn [has_sub]. rewrite <- V_cons.
      rewrite (start_transfer m c r Hc), (IH 0 Hr). reflexivity.
    + rewrite V_app. apply redacted_safe. apply IH. exact Hr.
    + rewrite V_cons. cbn [has_sub]. rewrite <- V_cons.
      rewrite (start_transfer m c r Hc), (IH 0 Hr). reflexivity.
  - apply IH. exact Hr.
Qed.

(** A pattern that matches wherever [w] starts leaves no occurrence. *)
Lemma replace_kills (m : matcher) :
  (forall s, starts_with w (V s) = true -> exists k, m s = Some (S k)) ->
  forall s k, has_sub w (V (replace_from m s k)) = false.
Proof.
  intros Hfire. induction s as [|c r IH]; intros k.
  - cbn. rewrite V_nil. destruct w as [|x w']; [|reflexivity].
    exfalso. apply w_ne. reflexivity.
  - destruct k as [|k]; cbn [replace_from]; [|apply IH].
    destruct (m (String c r)) as [[|j]|] eqn:Hm.
    + rewrite V_cons. cbn [has_sub]. rewrite <- V_cons. rewrite (IH 0), orb_false_r.
      destruct (starts_with w (V (String c r))) eqn:E.
      * destruct (Hfire _ E) as [j' Hj']. congruence.
      * exact (start_transfer m c r E).
    + rewrite V_app. apply redacted_safe. apply IH.
    + rewrite V_cons. cbn [has_sub]. rewrite <- V_cons. rewrite (IH 0), orb_false_r.
      destruct (starts_with w (V (String c r))) eqn:E.
      * destruct (Hfire _ E) as [j' Hj']. congruence.
      * exact (start_transfer m c r E).
Qed.

End Redaction.

Section Fold.

(** The [sensitivePatterns.forEach] step: one pattern on the message and
    on every stack line. *)
Variable step : string * list string -> matcher -> string * list string.
Hypothesis step_eq : forall acc pattern,
  step acc pattern = (replace_all pattern (fst acc), map (replace_all pattern) (snd acc)).

Lemma fold_keeps (Q : string -> Prop) (Hpres : forall m s, Q s -> Q (replace_all m s)) :
  forall (pats : list matcher) (acc : string * list string),
  Q (fst acc) -> Forall Q (snd acc) ->
  Q (fst (fold_left step pats acc)) /\ Forall Q (snd (fold_left step pats acc)).
Proof.
  induction pats as [|p pats IH]; intros acc H1 H2; [auto|].
  cbn [fold_left]. apply IH; rewrite step_eq; cbn [fst snd].
  - apply Hpres. exact H1.
  - apply Forall_map. eapply Forall_impl; [|exact H2]. intros s Hs. apply Hpres. exact Hs.
Qed.

Lemma fold_kills (Q : string -> Prop) (Hpres : forall m s, Q s -> Q (replace_all m s))
  (m : matcher) (Hkill : forall s, Q (replace_all m s)) :
  forall (pats : list matcher) (acc : string * list string), In m pats ->
  Q (fst (fold_left step pats acc)) /\ Forall Q (snd (fold_left step pats acc)).
Proof.
  induction pats as [|p pats IH]; intros acc Hin; [destruct Hin|].
  cbn [fold_left]. destruct Hin as [<- | Hin].
  - apply fold_keeps; [exact Hpres| |]; rewrite step_eq; cbn [fst snd].
    + apply Hkill.
    + apply Forall_forall. intros x Hx. apply in_map_iff in Hx as [y [<- _]]. apply Hkill.
  - apply IH. exact Hin.
Qed.

Lemma fold_length (pats : list matcher) :
  forall acc, length (snd (fold_left step pats acc)) = length (snd acc).
Proof.
  induction pats as [|p pats IH]; intros acc; [reflexivity|].
  cbn [fold_left]. rewrite IH, step_eq. cbn [snd]. apply length_map.
Qed.

End Fold.

Lemma sw_strip (w s : string) : starts_with w s = true -> exists r, strip_prefix w s = Some r.
Proof.
  revert s. induction w as [|a w IH]; intros s H; [eexists; reflexivity|].
  destruct s as [|b s]; [discriminate H|]. cbn in H |- *.
  apply andb_prop in H as [H1 H2]. rewrite H1. apply IH. exact H2.
Qed.

Lemma sw_strip_ci (w s : string) :
  forall_chars (fun a => Ascii.eqb (fold_case a) a) w = true ->
  starts_with w (lower s) = true -> exists r, strip_prefix_ci w s = Some r.
Proof.
  revert s. induction w as [|a w IH]; intros s Hw H; [eexists; reflexivity|].
  destruct s as [|b s]; [discriminate H|]. cbn in H, Hw |- *.
  apply andb_prop in H as [H1 H2]. apply andb_prop in Hw as [Ha Hw].
  apply Ascii.eqb_eq in Ha. rewrite Ha, H1. apply IH; assumption.
Qed.

Lemma lit_fires (w : string) :
  w <> EmptyString -> forall s, starts_with w s = true -> exists k, m_lit w s = Some (S k).
Proof.
  intros Hne s H. destruct (sw_strip w s H) as [r Hr]. unfold m_lit. rewrite Hr.
  destruct w as [|c w]; [congruence|]. eexists. reflexivity.
Qed.

Lemma root_fires (s : string) :
  starts_with "/root/" s = true -> exists k, m_root s = Some (S k).
Proof.
  intros H. destruct (sw_strip "/root/" s H) as [r Hr]. unfold m_root. rewrite Hr.
  eexists. reflexivity.
Qed.

Lemma word_fires (w : string) :
  w <> EmptyString -> forall_chars (fun a => Ascii.eqb (fold_case a) a) w = true ->
  forall s, starts_with w (lower s) = true -> exists k, m_word w s = Some (S k).
Proof.
  intros Hne Hw s H. destruct (sw_strip_ci w s Hw H) as [r Hr]. unfold m_word. rewrite Hr.
  destruct w as [|c w]; [congruence|]. eexists. reflexivity.
Qed.

(** The view [lower], character by character. *)
Lemma lower_cons (c : ascii) (r : string) : lower (String c r) = String (fold_case c) (lower r).
Proof. reflexivity. Qed.

(** A literal [w] that one of the [sensitivePatterns] matches wherever
    it starts is absent from the redacted message and stack lines. *)
Lemma redact_literal (step : string * list string -> matcher -> string * list string)
  (step_eq : forall acc pattern,
     step acc pattern = (replace_all pattern (fst acc), map (replace_all pattern) (snd acc)))
  (acc : string * list string) (w : string) (m : matcher) :
  w <> EmptyString ->
  forall_chars (fun c => negb (Ascii.eqb c "[")) w = true ->
  forall_chars (fun c => negb (Ascii.eqb c "]")) w = true ->
  has_sub w "[REDACTED" = false ->
  In m sensitivePatterns ->
  (forall s, starts_with w s = true -> exists k, m s = Some (S k)) ->
  has_sub w (fst (fold_left step sensitivePatterns acc)) = false /\
  Forall (fun t => has_sub w t = false) (snd (fold_left step sensitivePatterns acc)).
Proof.
  intros Hne Hl Hr Hred Hin Hfire.
  apply (fold_kills step step_eq (fun t => has_sub w t = false)) with (m := m); [| |exact Hin].
  - intros m' s Hs.
    exact (replace_keeps_absent (fun s => s) (fun c => c) eq_refl (fun _ _ => eq_refl)
             eq_refl eq_refl w Hl Hr Hred m' s 0 Hs).
  - intros s.
    exact (replace_kills (fun s => s) (fun c => c) eq_refl (fun _ _ => eq_refl)
             eq_refl eq_refl w Hl Hr Hred Hne m Hfire s 0).
Qed.

(** The same for a word that a [/i] pattern matches wherever it starts
    in any case: it is absent in any case. *)
Lemma redact_word (step : string * list string -> matcher -> string * list string)
  (step_eq : forall acc pattern,
     step acc pattern = (replace_all pattern (fst acc), map (replace_all pattern) (snd acc)))
  (acc : string * list string) (w : string) (m : matcher) :
  w <> EmptyString ->
  forall_chars (fun c => negb (Ascii.eqb c "[")) w = true ->
  forall_chars (fun c => negb (Ascii.eqb c "]")) w = true ->
  has_sub w (lower "[REDACTED") = false ->
  In m sensitivePatterns ->
  (forall s, starts_with w (lower s) = true -> exists k, m s = Some (S k)) ->
  has_sub w (lower (fst (fold_left step sensitivePatterns acc))) = false /\
  Forall (fun t => has_sub w (lower t) = false) (snd (fold_left step sensitivePatterns acc)).
Proof.
  intros Hne Hl Hr Hred Hin Hfire.
  apply (fold_kills step step_eq (fun t => has_sub w (lower t) = false)) with (m := m);
    [| |exact Hin].
  - intros m' s Hs.
    exact (replace_keeps_absent lower fold_case eq_refl lower_cons
             eq_refl eq_refl w Hl Hr Hred m' s 0 Hs).
  - intros s.
    exact (replace_kills lower fold_case eq_refl lower_cons
             eq_refl eq_refl w Hl Hr Hred Hne m Hfire s 0).
Qed.

Ltac in_patterns := unfold sensitivePatterns; cbn [In]; tauto.

(** In production the response has no [development] part.  Otherwise
    the [development] part holds the message and at most five stack
    lines, and after the [sensitivePatterns] none of them contains
    [/var/run/postgresql], [/root/], [/sensitive/path] or [socket], nor
    [password], [secret], [token] or [key] in any case. *)
Theorem sanitize_dev_redacts (err : exn) (errors : option (list string)) (stack : option string)
  (errorId : string) :
  get_prop "development" (snd (sanitizeErrorForClient err errors stack errorId true)) = JUndef /\
  exists msg lines,
    get_prop "development" (snd (sanitizeErrorForClient err errors stack errorId false)) =
      JObj [("originalMessage", JStr msg); ("stack", JArr (map JStr lines))] /\
    length lines <= 5 /\
    Forall (fun t =>
      has_sub "/var/run/postgresql" t = false /\ has_sub "/root/" t = false /\
      has_sub "/sensitive/path" t = false /\ has_sub "socket" t = false /\
      has_sub "password" (lower t) = false /\ has_sub "secret" (lower t) = false /\
      has_sub "token" (lower t) = false /\ has_sub "key" (lower t) = false) (msg :: lines).
Proof.
  split.
  { unfold sanitizeErrorForClient. cbv beta zeta.
    destruct (ex_status err) as [s|]; split_chain; reflexivity. }
  unfold sanitizeErrorForClient. cbv beta zeta.
  match goal with
  | |- context [fold_left ?f sensitivePatterns ?a] =>
      assert (Hst : forall acc pattern,
                 f acc pattern = (replace_all pattern (fst acc), map (replace_all pattern) (snd acc)))
        by (intros; reflexivity);
      pose proof (fold_length f Hst sensitivePatterns a) as KL;
      pose proof (redact_literal f Hst a "/var/run/postgresql" (m_lit "/var/run/postgresql")
                    ltac:(discriminate) eq_refl eq_refl eq_refl ltac:(in_patterns)
                    (lit_fires "/var/run/postgresql" ltac:(discriminate))) as K1;
      pose proof (redact_literal f Hst a "/root/" m_root
                    ltac:(discriminate) eq_refl eq_refl eq_refl ltac:(in_patterns) root_fires) as K2;
      pose proof (redact_literal f Hst a "/sensitive/path" (m_lit "/sensitive/path")
                    ltac:(discriminate) eq_refl eq_refl eq_refl ltac:(in_patterns)
                    (lit_fires "/sensitive/path" ltac:(discriminate))) as K3;
      pose proof (redact_literal f Hst a "socket" (m_lit "socket")
                    ltac:(discriminate) eq_refl eq_refl eq_refl ltac:(in_patterns)
                    (lit_fires "socket" ltac:(discriminate))) as K4;
      pose proof (redact_word f Hst a "password" (m_word "password")
                    ltac:(discriminate) eq_refl eq_refl eq_refl ltac:(in_patterns)
                    (word_fires "password" ltac:(discriminate) eq_refl)) as K5;
      pose proof (redact_word f Hst a "secret" (m_word "secret")
                    ltac:(discriminate) eq_refl eq_refl eq_refl ltac:(in_patterns)
                    (word_fires "secret" ltac:(discriminate) eq_refl)) as K6;
      pose proof (redact_word f Hst a "token" (m_word "token")
                    ltac:(discriminate) eq_refl eq_refl eq_refl ltac:(in_patterns)
                    (word_fires "token" ltac:(discriminate) eq_refl)) as K7;
      pose proof (redact_word f Hst a "key" (m_word "key")
                    ltac:(discriminate) eq_refl eq_refl eq_refl ltac:(in_patterns)
                    (word_fires "key" ltac:(discriminate) eq_refl)) as K8;
      destruct (fold_left f sensitivePatterns a) as [msg lines] eqn:Hf
  end.
  cbn [fst snd] in K1, K2, K3, K4, K5, K6, K7, K8, KL.
  exists msg, lines.
  assert (Hbody : forall X : Z * string * string,
    get_prop "development"
      (snd (let '(statusCode, clientMessage, errorCode) := X in
            if false then (statusCode, JObj [("success", JBool false);
                                              ("error", JObj [("message", JStr clientMessage);
                                                              ("code", JStr errorCode);
                                                              ("errorId", JStr errorId)])])
            else (statusCode,
                  JObj [("success", JBool false);
                        ("error", JObj [("message", JStr clientMessage); ("code", JStr errorCode);
                                        ("errorId", JStr errorId)]);
                        ("development", JObj [("originalMessage", JStr msg);
                                              ("stack", JArr (map JStr lines))])]))) =
    JObj [("originalMessage", JStr msg); ("stack", JArr (map JStr lines))]).
  { intros [[sc cm] ec]. reflexivity. }
  split; [apply Hbody|]. split.
  - rewrite KL. cbn [snd]. destruct stack as [s|]; [apply firstn_le_length|cbn; lia].
  - destruct K1 as [K1m K1l], K2 as [K2m K2l], K3 as [K3m K3l], K4 as [K4m K4l],
      K5 as [K5m K5l], K6 as [K6m K6l], K7 as [K7m K7l], K8 as [K8m K8l].
    constructor; [tauto|].
    rewrite Forall_forall in *. intros t Ht.
    repeat split; [apply K1l|apply K2l|apply K3l|apply K4l|apply K5l|apply K6l|apply K7l|apply K8l];
      exact Ht.
Qed.

End ErrorFacts.

Module BaseRepoFacts.
Import Dal BaseRepository.
Local Open Scope list_scope.

Lemma update_parts_closed (excludeFields : list string) (es : list (string * jval)) :
  forall n,
  let kept := filter (fun fv => negb (existsb (String.eqb (fst fv)) excludeFields)
                                && match snd fv with JUndef => false | _ => true end) es in
  update_parts es excludeFields n =
    (numbered (map fst kept) n, map snd kept, (n + Z.of_nat (length kept))%Z).
Proof.
  induction es as [|[f v] r IH]; intros n; cbn [update_parts filter fst snd].
  - cbn. f_equal. lia.
  - destruct (negb (existsb (String.eqb f) excludeFields) && _) eqn:E.
    + rewrite IH. cbn [map fst snd length numbered]. f_equal. lia.
    + apply IH.
Qed.

Lemma where_parts_closed (es : list (string * jval)) :
  forall n,
  let kept := filter (fun fv => present (snd fv)) es in
  where_parts es n = (numbered (map fst kept) n, map snd kept).
Proof.
  induction es as [|[f v] r IH]; intros n; cbn -[numbered]; [reflexivity|].
  destruct (present v); cbn -[numbered].
  - rewrite IH. reflexivity.
  - apply IH.
Qed.

Lemma numbered_length (fs : list string) : forall n, length (numbered fs n) = length fs.
Proof. induction fs as [|f r IH]; intros n; cbn; [reflexivity|rewrite IH; reflexivity]. Qed.

(** [buildUpdateClause(data, excludeFields)] throws exactly on [null]
    and [undefined].  Otherwise it keeps, in the order of
    [Object.entries(data)], the fields that are not excluded and whose
    value is not [undefined]: the clause numbers them [$1], [$2], ...,
    [params] holds their values in the same order, and [nextParamCount]
    is one more than their number. *)
Theorem buildUpdateClause_closed (data : jval) (excludeFields : list string) :
  (buildUpdateClause data excludeFields = None <-> data = JUndef \/ data = JNull) /\
  forall es, entries data = Some es ->
  let kept := filter (fun fv => negb (existsb (String.eqb (fst fv)) excludeFields)
                                && match snd fv with JUndef => false | _ => true end) es in
  buildUpdateClause data excludeFields =
    Some (join ", " (numbered (map fst kept) 1), map snd kept, Z.of_nat (length kept) + 1)%Z.
Proof.
  split.
  - unfold buildUpdateClause. split.
    + destruct (entries data) eqn:E; [|destruct data; cbn in E; try discriminate; auto].
      destruct (update_parts l excludeFields 1) as [[? ?] ?]. discriminate.
    + intros [-> | ->]; reflexivity.
  - intros es Hes kept. unfold buildUpdateClause. rewrite Hes, update_parts_closed.
    unfold kept. f_equal. f_equal. lia.
Qed.

(** [buildWhereClause(conditions)]: a falsy [conditions] gives no
    clause and no parameter.  Otherwise the fields whose value is
    neither [null] nor [undefined] are kept in entry order; with none
    the clause is empty, else it is [WHERE] followed by the kept fields
    numbered [$1], [$2], ... and joined by [AND], and [params] holds
    their values in the same order. *)
Theorem buildWhereClause_closed (conditions : jval) :
  let kept := if truthy conditions
              then match entries conditions with
                   | Some es => filter (fun fv => present (snd fv)) es
                   | None => []
                   end
              else [] in
  buildWhereClause conditions =
    (match kept with
     | [] => EmptyString
     | _ => ("WHERE " ++ join " AND " (numbered (map fst kept) 1))%string
     end, map snd kept).
Proof.
  intros kept. unfold buildWhereClause, kept.
  destruct (truthy conditions) eqn:T; cbn [negb]; [|reflexivity].
  destruct (entries conditions) as [es|] eqn:E; [|reflexivity].
  destruct es as [|e es]; [reflexivity|].
  rewrite where_parts_closed.
  destruct (filter (fun fv => present (snd fv)) (e :: es)) as [|k ks] eqn:F; [reflexivity|].
  cbn -[numbered join]. reflexivity.
Qed.

(** [validateRequired(data, requiredFields)] passes exactly when no
    required field is [undefined], [null] or the empty string in
    [data]; otherwise it throws a plain [Error] whose message starts
    with [Missing required fields: ]. *)
Theorem validateRequired_iff (data : jval) (requiredFields : list string) :
  (validateRequired data requiredFields = Ok tt <->
   forall field, In field requiredFields -> missing_value (get_prop field data) = false) /\
  (forall e, validateRequired data requiredFields = Exn e ->
   exists rest, e = plain_error ("Missing required fields: " ++ rest)).
Proof.
  unfold validateRequired.
  destruct (filter (fun field => missing_value (get_prop field data)) requiredFields) as [|m ms] eqn:F;
    cbn [length Nat.ltb Nat.leb].
  - split; [|discriminate]. split; [|reflexivity]. intros _ field Hin.
    destruct (missing_value (get_prop field data)) eqn:Em; [|reflexivity].
    assert (In field []) as [] by (rewrite <- F; apply filter_In; auto).
  - split.
    + split; [discriminate|]. intros H.
      assert (Hm : In m (filter (fun field => missing_value (get_prop field data)) requiredFields))
        by (rewrite F; left; reflexivity).
      apply filter_In in Hm as [Hin Hm]. rewrite H in Hm by exact Hin. discriminate.
    + intros e He. injection He as <-. eexists. reflexivity.
Qed.

End BaseRepoFacts.

Module RepoMoreFacts.
Import Dal TaskRepository.
Local Open Scope list_scope.

Lemma filter_hit_none (p : task -> bool) (ts : list task) :
  filter p (filter (fun t => negb (p t)) ts) = [].
Proof.
  induction ts as [|t ts IH]; cbn; [reflexivity|].
  destruct (p t) eqn:E; cbn; [exact IH|]. rewrite E. exact IH.
Qed.

(** [deleteTask(taskId, userId)] resolving to [true] removes exactly
    the rows with that [id] and [user_id], and a following
    [getTaskById(taskId, userId)] resolves to [null]: the task key was
    deleted, so no stale copy is served from the cache. *)
Theorem deleteTask_then_getTaskById (taskId userId : Z) (w w1 : rworld) :
  deleteTask taskId userId w = (Ok true, w1) ->
  tasks w1 = filter (fun t => negb (Z.eqb (t_id t) taskId && Z.eqb (t_user t) userId)) (tasks w) /\
  fst (getTaskById taskId userId w1) = Ok JNull.
Proof.
  unfold deleteTask, emit, gets, bind, ret, modify, throw.
  destruct (pg_int_param taskId) as [n|e] eqn:Hp; [|discriminate].
  cbn [cache tasks categories next_id trace].
  destruct (filter _ (tasks w)) as [|t r] eqn:F; [discriminate|].
  unfold invalidateUserTasksCache. rewrite DalFacts.invalidateCache_ok, DalFacts.deleteCached_ok.
  intros H. injection H as <-. cbn [tasks]. split; [reflexivity|].
  unfold getTaskById. unfold bind at 1. rewrite RepoFacts.getCached_read.
  cbn [cache tasks]. unfold read_cached. rewrite DalFacts.cache_find_del, String.eqb_refl.
  cbn [truthy negb]. unfold emit, gets, bind, ret. rewrite Hp. cbn [tasks].
  rewrite filter_hit_none. reflexivity.
Qed.

Lemma deleteTask_then_getTaskById_witness :
  deleteTask 1 1 (mkRWorld [] [mkTask 1 1 (JStr "a") JNull false (JStr "low") JNull None] [] 2 [])
    = (Ok true, snd (deleteTask 1 1 (mkRWorld [] [mkTask 1 1 (JStr "a") JNull false (JStr "low") JNull None] [] 2 []))) /\
  fst (getTaskById 1 1 (snd (deleteTask 1 1 (mkRWorld [] [mkTask 1 1 (JStr "a") JNull false (JStr "low") JNull None] [] 2 [])))) = Ok JNull.
Proof.
  split; [reflexivity|].
  apply (deleteTask_then_getTaskById 1 1
           (mkRWorld [] [mkTask 1 1 (JStr "a") JNull false (JStr "low") JNull None] [] 2 [])).
  reflexivity.
Defined.

Lemma filter_split_length {A} (p : A -> bool) (l : list A) :
  length (filter p l) + length (filter (fun x => negb (p x)) l) = length l.
Proof.
  induction l as [|a l IH]; cbn; [reflexivity|].
  destruct (p a); cbn; lia.
Qed.

(** On a cache miss, [getTaskStats(userId)] counts the user's rows:
    [total] is [completed] plus [pending], no count is negative, the
    response is marked [fromCache: false], and the tables are not
    touched. *)
Theorem getTaskStats_counts (userId : Z) (w : rworld) :
  truthy (read_cached (generateCacheKey "user_task_stats" [JNum userId]) (cache w)) = false ->
  exists v w1 c p,
    getTaskStats userId w = (Ok v, w1) /\
    get_prop "total" v = JNum (c + p) /\
    get_prop "completed" v = JNum c /\
    get_prop "pending" v = JNum p /\
    (0 <= c)%Z /\ (0 <= p)%Z /\
    c = Z.of_nat (length (filter (fun t => Z.eqb (t_user t) userId && t_completed t) (tasks w))) /\
    get_prop "fromCache" v = JBool false /\
    tasks w1 = tasks w.
Proof.
  intros Hm. unfold getTaskStats. cbv zeta. unfold bind at 1. rewrite RepoFacts.getCached_read.
  rewrite Hm. unfold emit, gets, bind, ret, setCached. cbn [cache tasks categories next_id trace].
  set (mine := filter (fun t => Z.eqb (t_user t) userId) (tasks w)).
  set (c := Z.of_nat (length (filter t_completed mine))).
  set (p := Z.of_nat (length (filter (fun t => negb (t_completed t)) mine))).
  assert (Ht : Z.of_nat (length (filter (fun _ => true) mine)) = (c + p)%Z).
  { unfold c, p. rewrite <- Nat2Z.inj_add, filter_split_length.
    f_equal. f_equal. induction mine as [|t r IH]; cbn; [reflexivity|rewrite IH; reflexivity]. }
  assert (Hc : c = Z.of_nat (length (filter (fun t => Z.eqb (t_user t) userId && t_completed t)
                                           (tasks w)))).
  { unfold c, mine. f_equal. clear. induction (tasks w) as [|t r IH]; cbn; [reflexivity|].
    destruct (Z.eqb (t_user t) userId), (t_completed t) eqn:E; cbn; rewrite ?E; cbn;
      rewrite ?IH; reflexivity. }
  rewrite Ht.
  destruct (stringify _) as [txt|].
  - cbn [set_cache cache tasks]. do 4 eexists. split; [reflexivity|]. cbn.
    repeat split; [lia|lia|exact Hc].
  - do 4 eexists. split; [reflexivity|]. cbn.
    repeat split; [lia|lia|exact Hc].
Qed.

Lemma getTaskStats_counts_witness :
  truthy (read_cached (generateCacheKey "user_task_stats" [JNum 1]) (cache w_empty)) = false /\
  exists v w1 c p,
    getTaskStats 1 w_empty = (Ok v, w1) /\
    get_prop "total" v = JNum (c + p) /\
    get_prop "completed" v = JNum c /\
    get_prop "pending" v = JNum p /\
    (0 <= c)%Z /\ (0 <= p)%Z /\
    c = Z.of_nat (length (filter (fun t => Z.eqb (t_user t) 1 && t_completed t) (tasks w_empty))) /\
    get_prop "fromCache" v = JBool false /\
    tasks w1 = tasks w_empty.
Proof.
  split; [reflexivity|]. apply (getTaskStats_counts 1 w_empty). reflexivity.
Defined.

Section OtherUsers.

(** The rows of the user [u] only. *)
Variable u : Z.

Local Abbreviation rows_of s := (filter (fun t => Z.eqb (t_user t) u) (tasks s)).

Lemma frame_bind {A B} (m : M rworld A) (k : A -> M rworld B) :
  (forall s, rows_of (snd (m s)) = rows_of s) ->
  (forall a s, rows_of (snd (k a s)) = rows_of s) ->
  forall s, rows_of (snd (bind m k s)) = rows_of s.
Proof.
  intros Hm Hk s. unfold bind. specialize (Hm s).
  destruct (m s) as [[a|e] s1]; cbn [snd] in *; [rewrite Hk|]; exact Hm.
Qed.

Lemma frame_state {B} (k : rworld -> M rworld B) :
  (forall s, rows_of (snd (k s s)) = rows_of s) ->
  forall s, rows_of (snd (bind (gets (fun w => w)) k s)) = rows_of s.
Proof. intros Hk s. exact (Hk s). Qed.

Lemma frame_modify_bind {B} (ts : list task) (k : unit -> M rworld B) (s : rworld) :
  filter (fun t => Z.eqb (t_user t) u) ts = rows_of s ->
  (forall a s, rows_of (snd (k a s)) = rows_of s) ->
  rows_of (snd (bind (modify (set_tasks ts)) k s)) = rows_of s.
Proof. intros Hts Hk. unfold bind, modify. rewrite Hk. exact Hts. Qed.

Lemma frame_ret {A} (a : A) : forall s, rows_of (snd (@ret rworld A a s)) = rows_of s.
Proof. reflexivity. Qed.

Lemma frame_throw {A} (e : exn) : forall s, rows_of (snd (@throw rworld A e s)) = rows_of s.
Proof. reflexivity. Qed.

Lemma frame_emit (e : event) : forall s, rows_of (snd (emit e s)) = rows_of s.
Proof. reflexivity. Qed.

Lemma frame_gets {A} (f : rworld -> A) : forall s, rows_of (snd (gets f s)) = rows_of s.
Proof. reflexivity. Qed.

Lemma frame_getCached (key : string) : forall s, rows_of (snd (getCached key s)) = rows_of s.
Proof. intros s. rewrite RepoFacts.getCached_read. reflexivity. Qed.

Lemma frame_setCached (key : string) (d : jval) (ttl : Z) :
  forall s, rows_of (snd (setCached key d ttl s)) = rows_of s.
Proof. intros s. unfold setCached. destruct (stringify d); reflexivity. Qed.

Lemma frame_deleteCached (key : string) : forall s, rows_of (snd (deleteCached key s)) = rows_of s.
Proof. reflexivity. Qed.

Lemma frame_invalidate (userId : Z) :
  forall s, rows_of (snd (invalidateUserTasksCache userId s)) = rows_of s.
Proof. intros s. unfold invalidateUserTasksCache. rewrite DalFacts.invalidateCache_ok. reflexivity. Qed.

Lemma frame_validate (c : jval) (userId : Z) :
  forall s, rows_of (snd (validateCategoryOwnership c userId s)) = rows_of s.
Proof.
  intros s. unfold validateCategoryOwnership, emit, bind.
  destruct (sql_int c) as [[x|]|e]; reflexivity.
Qed.

Lemma frame_getTaskById (taskId userId : Z) :
  forall s, rows_of (snd (getTaskById taskId userId s)) = rows_of s.
Proof.
  intros s. destruct (RepoFacts.getTaskById_frame taskId userId s) as (r & w1 & xs & E & _ & Ht & _).
  rewrite E. cbn [snd]. rewrite Ht. reflexivity.
Qed.

Ltac frame1 :=
  match goal with
  | |- forall s, _ = _ => intros ?s; cbv beta
  | |- filter _ (tasks (snd (bind (gets (fun w => w)) _ ?s))) = _ => revert s; apply frame_state
  | |- filter _ (tasks (snd (bind (modify (set_tasks _)) _ _))) = _ =>
      apply frame_modify_bind; [|intros ?a]
  | |- filter _ (tasks (snd (bind _ _ ?s))) = _ => revert s; apply frame_bind; [|intros ?a]
  | |- filter _ (tasks (snd ((if ?b then _ else _) ?s))) = _ => destruct b
  | |- filter _ (tasks (snd ((match ?x with _ => _ end) ?s))) = _ => destruct x
  | |- filter _ (tasks (snd (ret _ _))) = _ => reflexivity
  | |- filter _ (tasks (snd (throw _ _))) = _ => reflexivity
  | |- filter _ (tasks (snd (emit _ _))) = _ => reflexivity
  | |- filter _ (tasks (snd (gets _ _))) = _ => reflexivity
  | |- filter _ (tasks (snd (getCached _ ?s))) = _ => apply frame_getCached
  | |- filter _ (tasks (snd (setCached _ _ _ ?s))) = _ => apply frame_setCached
  | |- filter _ (tasks (snd (deleteCached _ ?s))) = _ => apply frame_deleteCached
  | |- filter _ (tasks (snd (invalidateUserTasksCache _ ?s))) = _ => apply frame_invalidate
  | |- filter _ (tasks (snd (validateCategoryOwnership _ _ ?s))) = _ => apply frame_validate
  | |- filter _ (tasks (snd (getTaskById _ _ ?s))) = _ => apply frame_getTaskById
  | |- filter _ (tasks (snd (insert_task _ _ _ _ _ _ _))) = _ =>
      unfold insert_task; cbv zeta;
      match goal with |- context [if ?b then _ else _] => destruct b end;
      [unfold set_tasks, set_next_id; cbn [snd tasks] | reflexivity]
  end.

Ltac frame := repeat frame1.

Lemma filter_map_other (userId : Z) (f : task -> task) (hit : task -> bool) (ts : list task) :
  u <> userId ->
  (forall t, hit t = true -> t_user t = userId) ->
  (forall t, t_user (f t) = t_user t) ->
  filter (fun t => Z.eqb (t_user t) u) (map (fun t => if hit t then f t else t) ts) =
  filter (fun t => Z.eqb (t_user t) u) ts.
Proof.
  intros Hne Hhit Hf. induction ts as [|t ts IH]; cbn; [reflexivity|].
  destruct (hit t) eqn:Eh.
  - rewrite Hf, (Hhit t Eh). destruct (Z.eqb_spec userId u); [congruence|].
    destruct (Z.eqb_spec (t_user t) u) as [E|E]; [rewrite (Hhit t Eh) in E; congruence|exact IH].
  - destruct (Z.eqb (t_user t) u); [f_equal|]; exact IH.
Qed.

Lemma filter_filter_other (userId : Z) (hit : task -> bool) (ts : list task) :
  u <> userId ->
  (forall t, hit t = true -> t_user t = userId) ->
  filter (fun t => Z.eqb (t_user t) u) (filter (fun t => negb (hit t)) ts) =
  filter (fun t => Z.eqb (t_user t) u) ts.
Proof.
  intros Hne Hhit. induction ts as [|t ts IH]; cbn; [reflexivity|].
  destruct (hit t) eqn:Eh; cbn.
  - destruct (Z.eqb_spec (t_user t) u) as [E|E]; [rewrite (Hhit t Eh) in E; congruence|exact IH].
  - destruct (Z.eqb (t_user t) u); [f_equal|]; exact IH.
Qed.

(** [createTask], [updateTask] and [deleteTask] of the user [userId]
    leave the rows of every other user as they are, on every path:
    rejected or not, the rows of [tasks] owned by [u] are the same and
    in the same order afterwards. *)
Theorem mutations_keep_other_users (userId taskId : Z) (data : jval) (w : rworld) :
  u <> userId ->
  rows_of (snd (createTask userId data w)) = rows_of w /\
  rows_of (snd (updateTask taskId userId data w)) = rows_of w /\
  rows_of (snd (deleteTask taskId userId w)) = rows_of w.
Proof.
  intros Hne. split; [|split].
  - revert w. unfold createTask. cbv zeta. frame.
    rewrite filter_app. cbn [filter t_user]. destruct (Z.eqb_spec userId u); [congruence|]. apply app_nil_r.
  - revert w. unfold updateTask. cbv zeta. frame.
    apply (filter_map_other userId); [exact Hne| |reflexivity].
    intros t1 Ht1. apply andb_prop in Ht1 as [_ Ht1]. apply Z.eqb_eq. exact Ht1.
  - revert w. unfold deleteTask. frame.
    apply (filter_filter_other userId); [exact Hne|].
    intros t1 Ht1. apply andb_prop in Ht1 as [_ Ht1]. apply Z.eqb_eq. exact Ht1.
Qed.

End OtherUsers.

Lemma mutations_keep_other_users_witness :
  let w := mkRWorld [] [mkTask 1 1 (JStr "a") JNull false (JStr "low") JNull None;
                        mkTask 2 2 (JStr "b") JNull false (JStr "low") JNull None] [] 3 [] in
  (2 <> 1)%Z /\
  (filter (fun t => Z.eqb (t_user t) 2) (tasks (snd (createTask 1 (JObj [("title", JStr "c")]) w))) =
     filter (fun t => Z.eqb (t_user t) 2) (tasks w) /\
   filter (fun t => Z.eqb (t_user t) 2) (tasks (snd (updateTask 1 1 (JObj [("title", JStr "c")]) w))) =
     filter (fun t => Z.eqb (t_user t) 2) (tasks w) /\
   filter (fun t => Z.eqb (t_user t) 2) (tasks (snd (deleteTask 1 1 w))) =
     filter (fun t => Z.eqb (t_user t) 2) (tasks w)).
Proof.
  intros w. split; [lia|].
  apply (mutations_keep_other_users 2 1 1 (JObj [("title", JStr "c")]) w). lia.
Defined.

Lemma bind_ok {S A B} (m : M S A) (k : A -> M S B) (s s2 : S) (r : B) :
  bind m k s = (Ok r, s2) -> exists a s1, m s = (Ok a, s1) /\ k a s1 = (Ok r, s2).
Proof.
  unfold bind. destruct (m s) as [[a|e] s1]; [intros H; exists a, s1; auto|discriminate].
Qed.

Ltac peel H :=
  repeat match type of H with
  | bind _ _ _ = (Ok _, _) =>
      let a := fresh "a" in let s1 := fresh "s" in let E := fresh "E" in
      apply bind_ok in H as (a & s1 & E & H); cbv beta in H
  | (if ?b then _ else _) _ = (Ok _, _) => destruct b eqn:?
  | (match ?x with _ => _ end) _ = (Ok _, _) => destruct x eqn:?
  | throw _ _ = _ => discriminate H
  end.

Lemma filter_map_hit (hit : task -> bool) (f : task -> task) (ts : list task) :
  (forall t, hit (f t) = hit t) ->
  filter hit (map (fun t => if hit t then f t else t) ts) = map f (filter hit ts).
Proof.
  intros Hf. induction ts as [|t ts IH]; cbn; [reflexivity|].
  destruct (hit t) eqn:E; cbn; rewrite ?Hf, ?E, IH; reflexivity.
Qed.

(** When [updateTask(taskId, userId, updateData)] resolves to a row,
    that row is the updated task of [userId] with id [taskId], and a
    following [getTaskById(taskId, userId)] reads it from the table
    ([fromCache: false]), never a copy cached before the update. *)
Theorem updateTask_then_getTaskById (taskId userId : Z) (data : jval) (w w1 : rworld) (r : jval) :
  updateTask taskId userId data w = (Ok r, w1) -> truthy r = true ->
  exists t,
    In t (tasks w1) /\ t_id t = taskId /\ t_user t = userId /\ r = task_cols t /\
    fst (getTaskById taskId userId w1) =
      Ok (with_prop "fromCache" (JBool false) (select_row (categories w1) t)).
Proof.
  intros H Hr. unfold updateTask in H. cbv zeta in H. peel H.
  all: try (unfold ret in H; injection H as <- <-; discriminate Hr).
  unfold gets in E2. injection E2 as <- <-.
  unfold modify in E3. injection E3 as <- <-.
  unfold invalidateUserTasksCache in E4. rewrite DalFacts.invalidateCache_ok in E4.
  injection E4 as <- <-. rewrite DalFacts.deleteCached_ok in E5. injection E5 as <- <-.
  unfold ret in H. injection H as <- <-.
  set (hit := fun t => (Z.eqb (t_id t) taskId && Z.eqb (t_user t) userId)%bool) in *.
  set (upd := apply_update (get_prop "title" data) (get_prop "description" data) a2
                (get_prop "priority" data) (get_prop "due_date" data) a3) in *.
  assert (Hupd : forall t, hit (upd t) = hit t) by reflexivity.
  assert (Ht : hit t = true).
  { assert (Hin : In t (filter hit (tasks s1))) by (rewrite Heql; left; reflexivity).
    apply filter_In in Hin. apply Hin. }
  exists (upd t). cbn [tasks set_tasks].
  split; [|split; [|split; [|split]]].
  - apply in_map_iff. exists t.
    split; [change (hit t) with ((t_id t =? taskId)%Z && (t_user t =? userId)%Z) in Ht;
            rewrite Ht; reflexivity|].
    assert (Hin : In t (filter hit (tasks s1))) by (rewrite Heql; left; reflexivity).
    apply filter_In in Hin. apply Hin.
  - transitivity (t_id t); [reflexivity|].
    unfold hit in Ht. apply andb_prop in Ht as [Ht _]. apply Z.eqb_eq. exact Ht.
  - transitivity (t_user t); [reflexivity|].
    unfold hit in Ht. apply andb_prop in Ht as [_ Ht]. apply Z.eqb_eq. exact Ht.
  - reflexivity.
  - unfold getTaskById. unfold bind at 1. rewrite RepoFacts.getCached_read.
    cbn [cache tasks categories set_tasks]. unfold read_cached.
    rewrite DalFacts.cache_find_del, String.eqb_refl. cbn [truthy negb].
    unfold emit, gets, bind, ret.
    match goal with Hp : pg_int_param taskId = Ok _ |- _ => rewrite Hp end.
    cbn [tasks categories].
    assert (Hf : filter (fun t => (t_id t =? taskId)%Z && (t_user t =? userId)%Z)
                   (map (fun t0 => if (t_id t0 =? taskId)%Z && (t_user t0 =? userId)%Z
                                   then upd t0 else t0) (tasks s1)) = upd t :: map upd l)
      by exact (eq_trans (filter_map_hit hit upd _ Hupd) (f_equal (map upd) Heql)).
    rewrite Hf.
    unfold setCached. destruct (stringify (select_row (categories s1) (upd t)));
      unfold ret; cbn; reflexivity.
Qed.

Lemma updateTask_then_getTaskById_witness :
  let w := mkRWorld [] [mkTask 1 1 (JStr "a") JNull false (JStr "low") JNull None] [] 2 [] in
  let r := JObj [("id", JNum 1); ("title", JStr "b"); ("description", JNull);
                 ("completed", JBool false); ("priority", JStr "low"); ("due_date", JNull)] in
  updateTask 1 1 (JObj [("title", JStr "b")]) w =
    (Ok r, snd (updateTask 1 1 (JObj [("title", JStr "b")]) w)) /\
  truthy r = true /\
  exists t,
    In t (tasks (snd (updateTask 1 1 (JObj [("title", JStr "b")]) w))) /\ t_id t = 1%Z /\
    t_user t = 1%Z /\ r = task_cols t /\
    fst (getTaskById 1 1 (snd (updateTask 1 1 (JObj [("title", JStr "b")]) w))) =
      Ok (with_prop "fromCache" (JBool false)
            (select_row (categories (snd (updateTask 1 1 (JObj [("title", JStr "b")]) w))) t)).
Proof.
  intros w r. split; [reflexivity|]. split; [reflexivity|].
  apply (updateTask_then_getTaskById 1 1 (JObj [("title", JStr "b")]) w); reflexivity.
Defined.

Lemma validate_state (c : jval) (userId : Z) (s s1 : rworld) (x : res bool) :
  validateCategoryOwnership c userId s = (x, s1) -> tasks s1 = tasks s /\ next_id s1 = next_id s.
Proof.
  unfold validateCategoryOwnership, emit, bind, gets, ret, throw.
  destruct (sql_int c) as [[k|]|]; intros H; injection H as _ <-; auto.
Qed.

Lemma guard_state (b : bool) (c : jval) (userId : Z) (s s1 : rworld) (x : res unit) :
  (if b
   then categoryExists <- validateCategoryOwnership c userId ;;
        if categoryExists then ret tt else throw category_error
   else ret tt) s = (x, s1) -> tasks s1 = tasks s /\ next_id s1 = next_id s.
Proof.
  destruct b; [|intros H; injection H as _ <-; auto].
  unfold bind. destruct (validateCategoryOwnership c userId s) as [[[|]|e] s2] eqn:V;
    apply validate_state in V as [V1 V2]; intros H; injection H as _ <-; auto.
Qed.

(** When [createTask(userId, taskData)] resolves, it has appended
    exactly one row to [tasks]: the next [SERIAL] id, owned by
    [userId], with [priority] defaulting to [medium];
    the id counter moves on by one, and the response is that row's
    columns. *)
Theorem createTask_appends (userId : Z) (data : jval) (w w1 : rworld) (r : jval) :
  createTask userId data w = (Ok r, w1) ->
  exists t,
    tasks w1 = tasks w ++ [t] /\ next_id w1 = (next_id w + 1)%Z /\
    t_id t = next_id w /\ t_user t = userId /\
    t_priority t = sql_val (default_to (get_prop "priority" data) (JStr "medium")) /\
    r = task_cols t.
Proof.
  intros H. unfold createTask in H. cbv zeta in H. peel H.
  apply guard_state in E as [Et En].
  unfold emit in E0. injection E0 as <- <-.
  unfold insert_task in E1. cbv zeta in E1.
  match type of E1 with (if ?b then _ else _) = _ => destruct b end;
    [injection E1 as <- <- | discriminate E1].
  unfold invalidateUserTasksCache in E2. rewrite DalFacts.invalidateCache_ok in E2.
  injection E2 as <- <-. unfold ret in H. injection H as <- <-.
  cbn [tasks next_id set_tasks set_next_id]. rewrite Et, En.
  eexists. repeat split.
Qed.

Lemma createTask_appends_witness :
  createTask 1 (JObj [("title", JStr "b")]) w_empty =
    (Ok (JObj [("id", JNum 1); ("title", JStr "b"); ("description", JNull);
               ("completed", JBool false); ("priority", JStr "medium"); ("due_date", JNull)]),
     snd (createTask 1 (JObj [("title", JStr "b")]) w_empty)) /\
  exists t,
    tasks (snd (createTask 1 (JObj [("title", JStr "b")]) w_empty)) = tasks w_empty ++ [t] /\
    next_id (snd (createTask 1 (JObj [("title", JStr "b")]) w_empty)) = (next_id w_empty + 1)%Z /\
    t_id t = next_id w_empty /\ t_user t = 1%Z /\
    t_priority t = sql_val (default_to (get_prop "priority" (JObj [("title", JStr "b")])) (JStr "medium")) /\
    JObj [("id", JNum 1); ("title", JStr "b"); ("description", JNull);
          ("completed", JBool false); ("priority", JStr "medium"); ("due_date", JNull)] = task_cols t.
Proof.
  split; [reflexivity|]. apply (createTask_appends 1 (JObj [("title", JStr "b")]) w_empty). reflexivity.
Defined.

End RepoMoreFacts.
